(** * Boats and loads: the relationship-consistency core of the REST API

    A shallow embedding of the route handlers of the repository
    (src/routes/boats.js, the users router and the authenticated boats
    router that follows it in src/routes/users.js, the two loads routers,
    the two versions of utils.js, src/datastore.js and the server name of
    the two applications), over a model of the document store the
    handlers talk to, together with the properties that the specification
    states about them and further properties of the handlers. *)

From Stdlib Require Import ZArith Ascii String DecimalString DecimalPos DecimalZ.
From stdpp Require Import gmap strings list fin_maps.

Local Open Scope string_scope.
Local Open Scope Z_scope.

(** ** JavaScript values as far as the handlers look at them *)

(** The values that reach the handlers: what [express.json()] parses out of
    a request body, [undefined] for a property that is absent, and the
    [Date] objects the loads routers build with [new Date(v)].  Numbers
    are integers here; every other object or array is [JObject].  A
    string is the UTF-8 encoding of the JavaScript string.

    The model is exact on the values that JavaScript and the datastore
    client keep as they are: integers of magnitude below 2^53, and dates
    built from a time inside the range of the store's timestamps.  A
    [JDate] holds the argument of its constructor; what an argument that
    is no valid time turns into, in the response and in the store, is
    not modelled.  [safe_integer], [kept] and [timestamp] below say which
    values these are, and the properties that read a value back assume
    them. *)
Inductive JsVal : Type :=
| JUndefined
| JNull
| JBool (b : bool)
| JNum (n : Z)
| JStr (s : string)
| JDate (arg : JsVal)
| JObject.

(** ToBoolean: what [if (v)], [!v] and [a && b] test. *)
Definition truthy (v : JsVal) : bool :=
  match v with
  | JUndefined | JNull => false
  | JBool b => b
  | JNum n => negb (n =? 0)
  | JStr s => negb (String.eqb s EmptyString)
  | JDate _ | JObject => true
  end.

(** [a && b] on values: the first operand when it is falsy, else the second. *)
Definition js_and (a b : JsVal) : JsVal := if truthy a then b else a.

(** [v === s] for a string [s]. *)
Definition strict_eq_str (v : JsVal) (s : string) : bool :=
  match v with
  | JStr t => String.eqb t s
  | _ => false
  end.

(** The result of [parseInt]: an integer or [NaN]. *)
Inductive JsNum : Type :=
| NaN
| Int (z : Z).

(** The white space that [parseInt] skips (StrWhiteSpaceChar) in one
    byte: TAB, LF, VT, FF, CR and SP. *)
Definition is_space (a : Ascii.ascii) : bool :=
  let n := Z.of_nat (nat_of_ascii a) in
  (n =? 32) || ((9 <=? n) && (n <=? 13)).

(** In two bytes: U+00A0, the no-break space. *)
Definition is_space2 (a b : Ascii.ascii) : bool :=
  (N_of_ascii a =? 194)%N && (N_of_ascii b =? 160)%N.

(** In three bytes: U+1680, U+2000 to U+200A, the line and paragraph
    separators U+2028 and U+2029, U+202F, U+205F, U+3000 and the byte
    order mark U+FEFF. *)
Definition is_space3 (a b c : Ascii.ascii) : bool :=
  let x := N_of_ascii a in
  let y := N_of_ascii b in
  let z := N_of_ascii c in
  ((x =? 225) && (y =? 154) && (z =? 128)
   || (x =? 226) && (y =? 128)
        && ((128 <=? z) && (z <=? 138) || (z =? 168) || (z =? 169) || (z =? 175))
   || (x =? 226) && (y =? 129) && (z =? 159)
   || (x =? 227) && (y =? 128) && (z =? 128)
   || (x =? 239) && (y =? 187) && (z =? 191))%N.

Definition digit_of (a : Ascii.ascii) : option Z :=
  let n := Z.of_nat (nat_of_ascii a) in
  if (48 <=? n) && (n <=? 57) then Some (n - 48) else None.

Fixpoint skip_space (s : string) : string :=
  match s with
  | String a r =>
      if is_space a then skip_space r
      else
        match r with
        | String b r' =>
            if is_space2 a b then skip_space r'
            else
              match r' with
              | String c r'' => if is_space3 a b c then skip_space r'' else s
              | EmptyString => s
              end
        | EmptyString => s
        end
  | EmptyString => s
  end.

(** The longest prefix of decimal digits, read as a number; [acc] is what
    has been read so far, [NaN] while no digit has been seen. *)
Fixpoint digits (acc : JsNum) (s : string) : JsNum :=
  match s with
  | String a r =>
      match digit_of a with
      | Some d =>
          digits (Int (10 * match acc with Int n => n | NaN => 0 end + d)) r
      | None => acc
      end
  | EmptyString => acc
  end.

Definition negate (n : JsNum) : JsNum :=
  match n with
  | Int z => Int (- z)
  | NaN => NaN
  end.

(** [parseInt(s, 10)]: leading white space is skipped, a sign is read, the
    digits that follow are the value and the rest of the string is
    ignored; no digit at all gives [NaN].  The value is the number the
    digits denote: JavaScript rounds it to the nearest double from 2^53
    on, beyond the ids of the store. *)
Definition parseInt (s : string) : JsNum :=
  match skip_space s with
  | String "-"%char r => negate (digits NaN r)
  | String "+"%char r => digits NaN r
  | r => digits NaN r
  end.

(** A number inside a template literal: its decimal digits, as JavaScript
    prints every integer of magnitude below 10^21. *)
Definition show (n : Z) : string := NilZero.string_of_int (Z.to_int n).

(** ** The values that are read back as they were written *)

(** [Number.isSafeInteger]: the integers that JavaScript holds exactly, and
    the only ones that the datastore client decodes. *)
Definition safe_integer (n : Z) : bool := Z.abs n <? 2 ^ 53.

(** An id that the store allocates. *)
Definition allocated_id (n : Z) : bool := (0 <? n) && safe_integer n.

(** A text of ASCII characters that fits an indexed property of the
    store, which holds at most 1500 bytes. *)
Definition short_text (s : string) : bool :=
  (Z.of_nat (String.length s) <=? 1500)
  && forallb (λ a, (N_of_ascii a <? 128)%N) (list_ascii_of_string s).

(** The values of a body that the store gives back as they were written:
    [null], booleans, safe integers and short texts. *)
Definition kept (v : JsVal) : bool :=
  match v with
  | JNull | JBool _ => true
  | JNum n => safe_integer n
  | JStr s => short_text s
  | JUndefined | JDate _ | JObject => false
  end.

(** A time in milliseconds that [new Date] turns into a valid date and
    that a timestamp of the store holds: after 1970 and before the year
    10000. *)
Definition timestamp (v : JsVal) : bool :=
  match v with
  | JNum n => (0 <? n) && (n <? 253402300800000)
  | _ => false
  end.

(** ** Arrays *)

Fixpoint findIndex_from {A : Type} (p : A → bool) (l : list A) (i : Z) : Z :=
  match l with
  | [] => -1
  | x :: r => if p x then i else findIndex_from p r (i + 1)
  end.

(** [l.findIndex(p)]: the index of the first element that satisfies [p],
    or -1. *)
Definition findIndex {A : Type} (p : A → bool) (l : list A) : Z :=
  findIndex_from p l 0.

(** [l.splice(start, deleteCount)], the array that is left: a negative
    [start] counts from the end, and both numbers are clamped to the
    array. *)
Definition splice {A : Type} (start deleteCount : Z) (l : list A) : list A :=
  let len := Z.of_nat (length l) in
  let from := if start <? 0 then Z.max (len + start) 0 else Z.min start len in
  let count := Z.min (Z.max deleteCount 0) (len - from) in
  take (Z.to_nat from) l ++ drop (Z.to_nat (from + count)) l.

(** ** Stored documents (spec, section 3) *)

(** An entry of a boat's [loads] array: [{id}] as stored, and [{id, self}]
    once [boatRepr] has written the link into it. *)
Record LoadRef : Type := {
  ref_id : Z;
  ref_self : option string
}.

Record Boat : Type := {
  boat_name : JsVal;
  boat_type : JsVal;
  boat_length : JsVal;
  boat_owner : JsVal;
  boat_loads : list LoadRef
}.

(** [load.carrier] when it is not [null]: [{id, name}]. *)
Record Carrier : Type := {
  carrier_id : Z;
  carrier_name : JsVal
}.

Record Load : Type := {
  load_volume : JsVal;
  load_content : JsVal;
  load_creation_date : JsVal;
  load_carrier : option Carrier
}.

(** ** The entity store (src/datastore.js and the client behind it) *)

(** The documents of the three kinds.  Boats and loads have numeric ids,
    users are keyed by the subject identifier. *)
Record Store : Type := {
  boats : gmap Z Boat;
  loads : gmap Z Load;
  users : gset string
}.

(** A kind of numerically keyed documents: its name and where its
    documents live in the store. *)
Record Kind (A : Type) : Type := {
  kind_name : string;
  table : Store → gmap Z A;
  set_table : gmap Z A → Store → Store
}.
Arguments kind_name {A} _.
Arguments table {A} _ _.
Arguments set_table {A} _ _ _.

Definition BOATS : Kind Boat := {|
  kind_name := "Boats";
  table := boats;
  set_table := λ m st, {| boats := m; loads := loads st; users := users st |}
|}.

Definition LOADS : Kind Load := {|
  kind_name := "Loads";
  table := loads;
  set_table := λ m st, {| boats := boats st; loads := m; users := users st |}
|}.

Definition USERS : string := "Users".

(** The calls a handler makes on the datastore client, in the order it
    makes them. *)
Inductive DsCall : Type :=
| DsGet (kind : string) (ids : list JsNum)
| DsGetNamed (kind : string) (name : string)
| DsInsert (kind : string) (id : Z)
| DsUpdate (kind : string) (ids : list Z)
| DsUpdateKeyless
| DsDelete (kind : string) (id : Z).

Definition is_write (c : DsCall) : bool :=
  match c with
  | DsGet _ _ | DsGetNamed _ _ => false
  | _ => true
  end.

(** A rejected datastore call: the [code] of the error. *)
Record DsError : Type := { code : Z }.

Definition INVALID_ARGUMENT : DsError := {| code := 3 |}.
Definition NOT_FOUND_ERROR : DsError := {| code := 5 |}.
Definition ALREADY_EXISTS : DsError := {| code := 6 |}.

(** What a handler runs in: the store, and the calls made so far. *)
Record World : Type := {
  store : Store;
  calls : list DsCall
}.

Definition M (A : Type) : Type := World → A * World.

#[global] Instance M_ret : MRet M := λ A a w, (a, w).
#[global] Instance M_bind : MBind M :=
  λ A B f m w, let (a, w') := m w in f a w'.

Definition call (c : DsCall) : M unit :=
  λ w, (tt, {| store := store w; calls := calls w ++ [c] |}).

Definition read : M Store := λ w, (store w, w).

Definition write (f : Store → Store) : M unit :=
  λ w, (tt, {| store := f (store w); calls := calls w |}).

(** [Promise.all([p, q])]: both calls are made; the result is the pair of
    their results, or the first rejection. *)
Definition Promise_all {A B : Type} (p : M (DsError + A)) (q : M (DsError + B))
  : M (DsError + A * B) :=
  a ← p;
  b ← q;
  mret (match a, b with
        | inr x, inr y => inr (x, y)
        | inl e, _ => inl e
        | _, inl e => inl e
        end).

Definition is_stored {A : Type} (K : Kind A) (st : Store) (id : Z) : bool :=
  match table K st !! id with
  | Some _ => true
  | None => false
  end.

Module Datastore.

(** [datastore.get(key)] for one key.  The client rejects a key whose id
    is [NaN] with code 3, which is what the handlers' "was non-int"
    branches test for; any other id is looked up.  The entity that is
    found carries its key.  It is returned as it was written, which is
    what the client does for the values that [kept] and [timestamp]
    describe; the client throws when it decodes an integer that is not
    safe. *)
Definition get {A : Type} (K : Kind A) (id : JsNum) : M (DsError + option (Z * A)) :=
  _ ← call (DsGet (kind_name K) [id]);
  match id with
  | NaN => mret (inl INVALID_ARGUMENT)
  | Int z => st ← read; mret (inr ((λ a, (z, a)) <$> table K st !! z))
  end.

(** [datastore.get(keys)]: the entities that exist, in the order of the
    keys. *)
Definition get_all {A : Type} (K : Kind A) (ids : list Z) : M (DsError + list (Z * A)) :=
  _ ← call (DsGet (kind_name K) (Int <$> ids));
  st ← read;
  mret (inr (omap (λ z, (λ a, (z, a)) <$> table K st !! z) ids)).

(** [datastore.get(key)] for a key with a name. *)
Definition get_named (kind : string) (name : string) : M (DsError + option unit) :=
  _ ← call (DsGetNamed kind name);
  st ← read;
  mret (inr (if decide (name ∈ users st) then Some tt else None)).

(** [datastore.insert({key, data})] with an incomplete key: the store
    allocates [id], and the call is rejected if the id is taken. *)
Definition insert {A : Type} (K : Kind A) (id : Z) (data : A) : M (DsError + unit) :=
  _ ← call (DsInsert (kind_name K) id);
  st ← read;
  match table K st !! id with
  | Some _ => mret (inl ALREADY_EXISTS)
  | None => _ ← write (λ st, set_table K (<[id := data]> (table K st)) st); mret (inr tt)
  end.

(** [datastore.update(entities)]: one commit; it is rejected, and
    nothing is written, unless every entity exists. *)
Definition update {A : Type} (K : Kind A) (es : list (Z * A)) : M (DsError + unit) :=
  _ ← call (DsUpdate (kind_name K) (fst <$> es));
  st ← read;
  if forallb (λ e, is_stored K st e.1) es
  then _ ← write (λ st, set_table K (foldl (λ m e, <[e.1 := e.2]> m) (table K st) es) st);
       mret (inr tt)
  else mret (inl NOT_FOUND_ERROR).

(** [datastore.delete(key)]: deleting a key that is absent is not an
    error. *)
Definition delete {A : Type} (K : Kind A) (id : Z) : M (DsError + unit) :=
  _ ← call (DsDelete (kind_name K) id);
  _ ← write (λ st, set_table K (base.delete id (table K st)) st);
  mret (inr tt).

(** [findEntity(kind, id)] of src/datastore.js. *)
Definition findEntity {A : Type} (K : Kind A) (id : JsNum) : M (DsError + option (Z * A)) :=
  get K id.

(** [findEntity(USERS, req.user.sub)]. *)
Definition findUser (sub : string) : M (DsError + option unit) :=
  get_named USERS sub.

End Datastore.

(** ** Requests, responses and representations *)

(** What the handlers read from a request: the subject of the bearer token
    once [checkJwt] has accepted it ([req.user.sub]), the [Accept] header
    and whether it admits JSON ([req.accepts('application/json')]), the
    parsed body and [req.serverName()]. *)
Record Request : Type := {
  req_user : option string;
  req_accept : string;
  req_accepts_json : bool;
  req_body : gmap string JsVal;
  req_serverName : string
}.

(** [body.k]: [undefined] when the property is absent. *)
Definition prop (body : gmap string JsVal) (k : string) : JsVal :=
  default JUndefined (body !! k).

Record CarrierRepr : Type := {
  cr_id : Z;
  cr_name : JsVal;
  cr_self : string
}.

(** [d.toLocaleDateString('en-US')] for the date [new Date(arg)]: the text
    is the runtime's, so it is kept symbolic. *)
Inductive DateText : Type :=
| LocaleDateString (arg : JsVal).

Record LoadRepr : Type := {
  lr_id : Z;
  lr_volume : JsVal;
  lr_carrier : option CarrierRepr;
  lr_content : JsVal;
  lr_creation_date : DateText;
  lr_self : string
}.

(** [br_loads] is [None] when the representation has no [loads] property;
    [br_owner] is [JUndefined] when it has no [owner]. *)
Record BoatRepr : Type := {
  br_id : Z;
  br_name : JsVal;
  br_type : JsVal;
  br_length : JsVal;
  br_loads : option (list LoadRef);
  br_owner : JsVal;
  br_self : string
}.

Inductive Body : Type :=
| NoContent
| ErrorBody (Error : string)
| BoatBody (r : BoatRepr)
| LoadBody (r : LoadRepr).

Record Response : Type := {
  status : Z;
  body : Body
}.

(** How a request ends: a response is sent, or the handler threw inside
    its [async] function and the request is never answered. *)
Inductive Outcome : Type :=
| Sent (r : Response)
| Unanswered.

(** A middleware either answers the request or calls [next()]. *)
Definition use (mw : M (option Outcome)) (h : M Outcome) : M Outcome :=
  o ← mw;
  match o with
  | Some out => mret out
  | None => h
  end.

(** Running a handler on a store, with no call made yet. *)
Definition run {A : Type} (h : M A) (st : Store) : A * World :=
  h {| store := st; calls := [] |}.

Module Utils.

(** [handleClientError]: one version of utils.js sends the response at
    once, the other sets status and message and lets the application's
    last middleware send the same body. *)
Definition handleClientError (statusCode : Z) (message : string) : Outcome :=
  Sent {| status := statusCode; body := ErrorBody message |}.

(** [handleServerError], answered by the application's error handler. *)
Definition handleServerError : Outcome :=
  Sent {| status := 500;
          body := ErrorBody "Something went wrong. We will fix it shortly." |}.

(** [loadRepr(id, load, baseUrl)].  [toLocaleDateString] is a method of
    [Date] only: on any other [creation_date] the call throws, which is
    [None] here. *)
Definition loadRepr (id : Z) (load : Load) (baseUrl : string) : option LoadRepr :=
  let carrier :=
    match load_carrier load with
    | Some c => Some {| cr_id := carrier_id c;
                        cr_name := carrier_name c;
                        cr_self := baseUrl +:+ "/boats/" +:+ show (carrier_id c) |}
    | None => None
    end in
  match load_creation_date load with
  | JDate d =>
      Some {| lr_id := id;
              lr_volume := load_volume load;
              lr_carrier := carrier;
              lr_content := load_content load;
              lr_creation_date := LocaleDateString d;
              lr_self := baseUrl +:+ "/loads/" +:+ show id |}
  | _ => None
  end.

(** [checkJwt]: a request without a valid bearer token goes to the
    application's error handler, which answers 401. *)
Definition checkJwt (req : Request) : M (option Outcome) :=
  mret (match req_user req with
        | Some _ => None
        | None => Some (Sent {| status := 401;
                                body := ErrorBody "Missing/invalid authorization" |})
        end).

Definition isAcceptable (req : Request) : M (option Outcome) :=
  mret (if req_accepts_json req then None
        else Some (handleClientError 406
                     ("Unsupported 'Accept' header: '" +:+ req_accept req
                        +:+ "'. Must accept 'application/json'"))).

End Utils.

(** The three properties [getBoatProps] takes out of the body. *)
Record BoatProps : Type := {
  bp_name : JsVal;
  bp_type : JsVal;
  bp_length : JsVal
}.

(** The three properties [getLoadProps] takes out of the body. *)
Record LoadProps : Type := {
  lp_volume : JsVal;
  lp_content : JsVal;
  lp_creation_date : JsVal
}.

(** [load.self = ...] on one entry of [boat.loads]. *)
Definition set_self (baseUrl : string) (load : LoadRef) : LoadRef :=
  {| ref_id := ref_id load;
     ref_self := Some (baseUrl +:+ "/loads/" +:+ show (ref_id load)) |}.

Definition with_loads (boat : Boat) (ls : list LoadRef) : Boat :=
  {| boat_name := boat_name boat; boat_type := boat_type boat;
     boat_length := boat_length boat; boat_owner := boat_owner boat;
     boat_loads := ls |}.

Definition with_carrier (load : Load) (c : option Carrier) : Load :=
  {| load_volume := load_volume load; load_content := load_content load;
     load_creation_date := load_creation_date load; load_carrier := c |}.

(** [if (load.carrier)]: the carrier is an object or [null]. *)
Definition has_carrier (load : Load) : bool :=
  match load_carrier load with
  | Some _ => true
  | None => false
  end.

(** [if (props[prop] === undefined) props[prop] = stored[prop]], the body
    of the loop of PATCH. *)
Definition or_stored (v stored : JsVal) : JsVal :=
  match v with
  | JUndefined => stored
  | _ => v
  end.

(** The callback of [boat.loads.findIndex(load => load.id === loadId)]. *)
Definition is_ref (loadId : Z) (r : LoadRef) : bool := ref_id r =? loadId.

(** ** Queries and listings *)

(** A query as the handlers build it: [datastore.createQuery(kind)], then
    [.filter('owner', '=', sub)], [.limit(n)] and [.start(cursor)]. *)
Record Query : Type := {
  q_kind : string;
  q_owner : option string;
  q_limit : option Z;
  q_start : option JsVal
}.

Definition createQuery (kind : string) : Query :=
  {| q_kind := kind; q_owner := None; q_limit := None; q_start := None |}.

(** The second component of what [datastore.runQuery] resolves to. *)
Record QueryInfo : Type := {
  moreResults : string;
  endCursor : string
}.

Definition MORE_RESULTS_AFTER_LIMIT : string := "MORE_RESULTS_AFTER_LIMIT".

(** How the datastore answers a query is not in the repository: the
    handlers that run one take the answer as a function of the store and
    of the query they built. *)
Definition Engine (A : Type) : Type :=
  Store → Query → DsError + (list (Z * A) * QueryInfo).

Definition runQuery {A : Type} (engine : Engine A) (query : Query)
  : M (DsError + (list (Z * A) * QueryInfo)) :=
  st ← read;
  mret (engine st query).

(** [pagedQuery(query, limit, cursor)] of src/datastore.js: the query
    starts at the cursor if there is one. *)
Definition pagedQuery {A : Type} (engine : Engine A) (query : Query) (limit : Z)
    (cursor : JsVal) : M (DsError + (list (Z * A) * QueryInfo)) :=
  let query := {| q_kind := q_kind query; q_owner := q_owner query;
                  q_limit := Some limit; q_start := q_start query |} in
  let query := if truthy cursor
               then {| q_kind := q_kind query; q_owner := q_owner query;
                       q_limit := q_limit query; q_start := Some cursor |}
               else query in
  runQuery engine query.

Definition hex_digit (n : N) : Ascii.ascii :=
  ascii_of_N (if (n <? 10)%N then 48 + n else 55 + n)%N.

(** The characters [encodeURIComponent] leaves alone: letters, digits and
    [- _ . ! ~ * ' ( )]. *)
Definition unreserved (a : Ascii.ascii) : bool :=
  let n := N_of_ascii a in
  ((48 <=? n) && (n <=? 57) || (65 <=? n) && (n <=? 90) || (97 <=? n) && (n <=? 122)
   || (n =? 45) || (n =? 95) || (n =? 46) || (n =? 33) || (n =? 126) || (n =? 42)
   || (n =? 39) || (n =? 40) || (n =? 41))%N.

(** [encodeURIComponent(s)] on the bytes of [s]: every other byte becomes
    [%XX]. *)
Fixpoint encodeURIComponent (s : string) : string :=
  match s with
  | EmptyString => EmptyString
  | String a r =>
      if unreserved a then String a (encodeURIComponent r)
      else String "%" (String (hex_digit (N_of_ascii a / 16))
                         (String (hex_digit (N_of_ascii a mod 16))
                            (encodeURIComponent r)))
  end.

(** The bodies of the routes that answer with a list. *)
Inductive ListBody : Type :=
| LoadList (items : list LoadRepr)
| BoatPage (items : list BoatRepr) (next : option string)
| LoadPage (items : list LoadRepr) (next : option string) (total : option Z)
| UserList (ids : list string).

Inductive ListOutcome : Type :=
| Listed (statusCode : Z) (listing : ListBody)
| NotListed (o : Outcome).

(** [respBody.next]: set when the datastore reports more results after
    the limit. *)
Definition next_link (baseUrl : string) (path : string) (info : QueryInfo)
  : option string :=
  if String.eqb (moreResults info) MORE_RESULTS_AFTER_LIMIT
  then Some (baseUrl +:+ path +:+ "?cursor=" +:+ encodeURIComponent (endCursor info))
  else None.

(** [loads.map(load => loadRepr(id, load, baseUrl))]: one throwing
    [loadRepr] ends the whole map. *)
Definition loadReprs (fetched : list (Z * Load)) (baseUrl : string)
  : option (list LoadRepr) :=
  mapM (λ e : Z * Load, Utils.loadRepr e.1 e.2 baseUrl) fetched.

(** ** src/routes/boats.js *)

Module Boats.
Import Datastore Utils.

Definition getBoatProps (req : Request) : BoatProps :=
  {| bp_name := prop (req_body req) "name";
     bp_type := prop (req_body req) "type";
     bp_length := prop (req_body req) "length" |}.

Definition isBadRequest (boatBody : BoatProps) : bool :=
  negb (truthy (js_and (js_and (bp_name boatBody) (bp_type boatBody))
                       (bp_length boatBody))).

(** [boatRepr(id, boat, baseUrl, singleton)]: the representation, and
    the boat as the call leaves it.  In a singleton view the loop writes
    [self] into every entry of [boat.loads], and the representation
    holds that same array. *)
Definition boatRepr (id : Z) (boat : Boat) (baseUrl : string) (singleton : bool)
  : BoatRepr * Boat :=
  let boat' :=
    if singleton then with_loads boat (set_self baseUrl <$> boat_loads boat)
    else boat in
  ({| br_id := id;
      br_name := boat_name boat;
      br_type := boat_type boat;
      br_length := boat_length boat;
      br_loads := if singleton then Some (boat_loads boat') else None;
      br_owner := JUndefined;
      br_self := baseUrl +:+ "/boats/" +:+ show id |}, boat').

Definition BAD_REQUEST : string :=
  "The request object is missing at least one of the required attributes".
Definition BOAT_NOT_FOUND : string := "No boat with this boat_id exists".
Definition BOAT_OR_LOAD_NOT_FOUND : string :=
  "The specified boat and/or load does not exist".
Definition LOAD_ALREADY_ASSIGNED : string := "The load is already assigned".
Definition LOAD_ELSEWHERE : string := "The load is not on this boat".

Definition checkRegistered (req : Request) : M (option Outcome) :=
  match req_user req with
  | None => mret (Some Unanswered)
  | Some sub =>
      user ← findUser sub;
      mret (match user with
            | inl _ => Some handleServerError
            | inr None =>
                Some (handleClientError 403 "The associated user is not registered.")
            | inr (Some _) => None
            end)
  end.

(** [router.post('/')]; [allocated] is the id the store gives the new
    key. *)
Definition post (allocated : Z) (req : Request) : M Outcome :=
  use (checkJwt req) (use (checkRegistered req) (
    let props := getBoatProps req in
    if isBadRequest props then mret (handleClientError 400 BAD_REQUEST)
    else
      let boat := {| boat_name := bp_name props; boat_type := bp_type props;
                     boat_length := bp_length props; boat_owner := JUndefined;
                     boat_loads := [] |} in
      r ← insert BOATS allocated boat;
      mret (match r with
            | inl _ => handleServerError
            | inr _ =>
                Sent {| status := 201;
                        body := BoatBody (boatRepr allocated boat (req_serverName req) true).1 |}
            end))).

(** [router.put('/:boat_id/loads/:load_id')]: add a load to a boat. *)
Definition put_boat_load (boat_id load_id : string) (req : Request) : M Outcome :=
  let boatId := parseInt boat_id in
  let loadId := parseInt load_id in
  found ← Promise_all (findEntity BOATS boatId) (findEntity LOADS loadId);
  match found with
  | inr (Some (b, boat), Some (l, load)) =>
      if has_carrier load then mret (handleClientError 403 LOAD_ALREADY_ASSIGNED)
      else
        let load' := with_carrier load
                       (Some {| carrier_id := b; carrier_name := boat_name boat |}) in
        let boat' := with_loads boat
                       (boat_loads boat ++ [{| ref_id := l; ref_self := None |}]) in
        r ← Promise_all (update LOADS [(l, load')]) (update BOATS [(b, boat')]);
        mret (match r with
              | inr _ => Sent {| status := 204; body := NoContent |}
              | inl _ => handleServerError
              end)
  | inr _ => mret (handleClientError 404 BOAT_OR_LOAD_NOT_FOUND)
  | inl e =>
      mret (if code e =? 3 then handleClientError 404 BOAT_OR_LOAD_NOT_FOUND
            else handleServerError)
  end.

(** [router.delete('/:boat_id/loads/:load_id')]: remove a load from a
    boat. *)
Definition delete_boat_load (boat_id load_id : string) (req : Request) : M Outcome :=
  let boatId := parseInt boat_id in
  let loadId := parseInt load_id in
  found ← Promise_all (findEntity BOATS boatId) (findEntity LOADS loadId);
  match found with
  | inr (Some (b, boat), Some (l, load)) =>
      if match load_carrier load with
         | None => true
         | Some c => negb (carrier_id c =? b)
         end
      then mret (handleClientError 403 LOAD_ELSEWHERE)
      else
        let load' := with_carrier load None in
        let index := findIndex (is_ref l) (boat_loads boat) in
        let boat' := with_loads boat (splice index 1 (boat_loads boat)) in
        r ← Promise_all (update LOADS [(l, load')]) (update BOATS [(b, boat')]);
        mret (match r with
              | inr _ => Sent {| status := 204; body := NoContent |}
              | inl _ => handleServerError
              end)
  | inr _ => mret (handleClientError 404 BOAT_OR_LOAD_NOT_FOUND)
  | inl e =>
      mret (if code e =? 3 then handleClientError 404 BOAT_OR_LOAD_NOT_FOUND
            else handleServerError)
  end.

(** The end of [router.delete('/:boat_id')]: delete the boat and update
    the loads that were fetched. *)
Definition delete_and_update (b : Z) (cleared : list (Z * Load)) : M Outcome :=
  r ← Promise_all (Datastore.delete BOATS b) (update LOADS cleared);
  mret (match r with
        | inr _ => Sent {| status := 204; body := NoContent |}
        | inl _ => handleServerError
        end).

(** [for (let load of loads) load.carrier = null]. *)
Definition clear_carriers (fetched : list (Z * Load)) : list (Z * Load) :=
  (λ e, (e.1, with_carrier e.2 None)) <$> fetched.

(** [router.delete('/:boat_id')]. *)
Definition delete_boat (boat_id : string) (req : Request) : M Outcome :=
  use (checkJwt req) (use (checkRegistered req) (
    let id := parseInt boat_id in
    r ← findEntity BOATS id;
    match r with
    | inl e =>
        mret (if code e =? 3 then handleClientError 404 BOAT_NOT_FOUND
              else handleServerError)
    | inr None => mret (handleClientError 404 BOAT_NOT_FOUND)
    | inr (Some (b, boat)) =>
        let toNull := ref_id <$> boat_loads boat in
        if 0 <? Z.of_nat (length toNull) then
          fetched ← get_all LOADS toNull;
          match fetched with
          | inl _ => mret handleServerError
          | inr fetched => delete_and_update b (clear_carriers fetched)
          end
        else delete_and_update b []
    end)).

(** [router.get('/:boat_id')]. *)
Definition get_boat (boat_id : string) (req : Request) : M Outcome :=
  use (checkJwt req) (use (checkRegistered req) (
    let id := parseInt boat_id in
    r ← findEntity BOATS id;
    mret (match r with
          | inl e =>
              if code e =? 3 then handleClientError 404 BOAT_NOT_FOUND
              else handleServerError
          | inr None => handleClientError 404 BOAT_NOT_FOUND
          | inr (Some (b, boat)) =>
              Sent {| status := 200;
                      body := BoatBody (boatRepr b boat (req_serverName req) true).1 |}
          end))).

(** [router.get('/:boat_id/loads')]: the loads of a boat that the store
    still has. *)
Definition get_boat_loads (boat_id : string) (req : Request) : M ListOutcome :=
  let refuse (o : Outcome) : M ListOutcome := mret (NotListed o) in
  o ← checkJwt req;
  match o with
  | Some out => refuse out
  | None =>
      o ← checkRegistered req;
      match o with
      | Some out => refuse out
      | None =>
          let id := parseInt boat_id in
          r ← findEntity BOATS id;
          match r with
          | inl e =>
              refuse (if code e =? 3 then handleClientError 404 BOAT_NOT_FOUND
                      else handleServerError)
          | inr None => refuse (handleClientError 404 BOAT_NOT_FOUND)
          | inr (Some (b, boat)) =>
              let toFetch := ref_id <$> boat_loads boat in
              if 0 <? Z.of_nat (length toFetch) then
                fetched ← get_all LOADS toFetch;
                mret (match fetched with
                      | inl _ => NotListed handleServerError
                      | inr fetched =>
                          match loadReprs fetched (req_serverName req) with
                          | Some respBody => Listed 200 (LoadList respBody)
                          | None => NotListed Unanswered
                          end
                      end)
              else mret (Listed 200 (LoadList []))
          end
      end
  end.

(** [router.get('/')]: a page of five boats, in list view. *)
Definition get_boats (engine : Engine Boat) (cursor : JsVal) (req : Request)
  : M ListOutcome :=
  o ← checkJwt req;
  match o with
  | Some out => mret (NotListed out)
  | None =>
      o ← checkRegistered req;
      match o with
      | Some out => mret (NotListed out)
      | None =>
          let query := createQuery (kind_name BOATS) in
          r ← pagedQuery engine query 5 cursor;
          mret (match r with
                | inl _ => NotListed handleServerError
                | inr (boats, info) =>
                    Listed 200
                      (BoatPage
                         ((λ e : Z * Boat,
                             (boatRepr e.1 e.2 (req_serverName req) false).1) <$> boats)
                         (next_link (req_serverName req) "/boats" info))
                end)
      end
  end.

End Boats.

(** ** The authenticated boats router (second part of src/routes/users.js) *)

Module AuthBoats.
Import Datastore Utils.

Definition getBoatProps (req : Request) : BoatProps :=
  {| bp_name := prop (req_body req) "name";
     bp_type := prop (req_body req) "type";
     bp_length := prop (req_body req) "length" |}.

Definition isBadRequest (boatBody : BoatProps) : bool :=
  negb (truthy (js_and (js_and (bp_name boatBody) (bp_type boatBody))
                       (bp_length boatBody))).

(** As in boats.js, with the owner added. *)
Definition boatRepr (id : Z) (boat : Boat) (baseUrl : string) (singleton : bool)
  : BoatRepr * Boat :=
  let boat' :=
    if singleton then with_loads boat (set_self baseUrl <$> boat_loads boat)
    else boat in
  ({| br_id := id;
      br_name := boat_name boat;
      br_type := boat_type boat;
      br_length := boat_length boat;
      br_loads := if singleton then Some (boat_loads boat') else None;
      br_owner := boat_owner boat;
      br_self := baseUrl +:+ "/boats/" +:+ show id |}, boat').

Definition BAD_REQUEST : string :=
  "The request object is missing at least one of the required attributes".
Definition BOAT_NOT_FOUND : string := "No boat with this boat_id exists".
Definition BOAT_OR_LOAD_NOT_FOUND : string :=
  "The specified boat and/or load does not exist".
Definition LOAD_ALREADY_ASSIGNED : string := "The load is already assigned".
Definition LOAD_ELSEWHERE : string := "The load is not on this boat".
Definition NOT_REGISTERED : string := "The associated user is not registered".
Definition NOT_OWNER : string :=
  "The associated user does not own the boat with the requested boat_id".

Definition checkRegistered (req : Request) : M (option Outcome) :=
  match req_user req with
  | None => mret (Some Unanswered)
  | Some sub =>
      user ← findUser sub;
      mret (match user with
            | inl _ => Some handleServerError
            | inr None => Some (handleClientError 403 NOT_REGISTERED)
            | inr (Some _) => None
            end)
  end.

(** The three [router.use] middlewares in front of every route; the
    handler then reads [req.user.sub]. *)
Definition authenticated (req : Request) (h : string → M Outcome) : M Outcome :=
  use (checkJwt req) (use (checkRegistered req) (use (isAcceptable req)
    match req_user req with
    | Some sub => h sub
    | None => mret Unanswered
    end)).

(** [boat.owner !== req.user.sub]. *)
Definition not_owner (boat : Boat) (sub : string) : bool :=
  negb (strict_eq_str (boat_owner boat) sub).

(** [router.post('/')]. *)
Definition post (allocated : Z) (req : Request) : M Outcome :=
  authenticated req (λ sub,
    let props := getBoatProps req in
    if isBadRequest props then mret (handleClientError 400 BAD_REQUEST)
    else
      let boat := {| boat_name := bp_name props; boat_type := bp_type props;
                     boat_length := bp_length props; boat_owner := JStr sub;
                     boat_loads := [] |} in
      r ← insert BOATS allocated boat;
      mret (match r with
            | inl _ => handleServerError
            | inr _ =>
                Sent {| status := 201;
                        body := BoatBody (boatRepr allocated boat (req_serverName req) true).1 |}
            end)).

(** [router.put('/:boat_id/loads/:load_id')]. *)
Definition put_boat_load (boat_id load_id : string) (req : Request) : M Outcome :=
  authenticated req (λ sub,
    let boatId := parseInt boat_id in
    let loadId := parseInt load_id in
    found ← Promise_all (findEntity BOATS boatId) (findEntity LOADS loadId);
    match found with
    | inr (Some (b, boat), Some (l, load)) =>
        if not_owner boat sub then mret (handleClientError 403 NOT_OWNER)
        else if has_carrier load
        then mret (handleClientError 403 LOAD_ALREADY_ASSIGNED)
        else
          let load' := with_carrier load
                         (Some {| carrier_id := b; carrier_name := JUndefined |}) in
          let boat' := with_loads boat
                         (boat_loads boat ++ [{| ref_id := l; ref_self := None |}]) in
          r ← Promise_all (update LOADS [(l, load')]) (update BOATS [(b, boat')]);
          mret (match r with
                | inr _ => Sent {| status := 204; body := NoContent |}
                | inl _ => handleServerError
                end)
    | inr _ => mret (handleClientError 404 BOAT_OR_LOAD_NOT_FOUND)
    | inl e =>
        mret (if code e =? 3 then handleClientError 404 BOAT_OR_LOAD_NOT_FOUND
              else handleServerError)
    end).

(** [router.delete('/:boat_id/loads/:load_id')]. *)
Definition delete_boat_load (boat_id load_id : string) (req : Request) : M Outcome :=
  authenticated req (λ sub,
    let boatId := parseInt boat_id in
    let loadId := parseInt load_id in
    found ← Promise_all (findEntity BOATS boatId) (findEntity LOADS loadId);
    match found with
    | inr (Some (b, boat), Some (l, load)) =>
        if not_owner boat sub then mret (handleClientError 403 NOT_OWNER)
        else if match load_carrier load with
                | None => true
                | Some c => negb (carrier_id c =? b)
                end
        then mret (handleClientError 403 LOAD_ELSEWHERE)
        else
          let load' := with_carrier load None in
          let index := findIndex (is_ref l) (boat_loads boat) in
          let boat' := with_loads boat (splice index 1 (boat_loads boat)) in
          r ← Promise_all (update LOADS [(l, load')]) (update BOATS [(b, boat')]);
          mret (match r with
                | inr _ => Sent {| status := 204; body := NoContent |}
                | inl _ => handleServerError
                end)
    | inr _ => mret (handleClientError 404 BOAT_OR_LOAD_NOT_FOUND)
    | inl e =>
        mret (if code e =? 3 then handleClientError 404 BOAT_OR_LOAD_NOT_FOUND
              else handleServerError)
    end).

(** [router.delete('/:boat_id')]. *)
Definition delete_boat (boat_id : string) (req : Request) : M Outcome :=
  authenticated req (λ sub,
    let id := parseInt boat_id in
    r ← findEntity BOATS id;
    match r with
    | inl e =>
        mret (if code e =? 3 then handleClientError 404 BOAT_NOT_FOUND
              else handleServerError)
    | inr None => mret (handleClientError 404 BOAT_NOT_FOUND)
    | inr (Some (b, boat)) =>
        if not_owner boat sub then mret (handleClientError 403 NOT_OWNER)
        else
          let toNull := ref_id <$> boat_loads boat in
          if 0 <? Z.of_nat (length toNull) then
            fetched ← get_all LOADS toNull;
            match fetched with
            | inl _ => mret handleServerError
            | inr fetched =>
                Boats.delete_and_update b (Boats.clear_carriers fetched)
            end
          else Boats.delete_and_update b []
    end).

(** [{owner: stored.owner, loads: stored.loads, ...boat}]. *)
Definition updated_boat (stored : Boat) (props : BoatProps) : Boat :=
  {| boat_name := bp_name props; boat_type := bp_type props;
     boat_length := bp_length props; boat_owner := boat_owner stored;
     boat_loads := boat_loads stored |}.

(** The end of PUT and PATCH.  The [catch] around the update names an
    undefined variable, so a rejected update ends in a ReferenceError. *)
Definition store_and_answer (b : Z) (updated : Boat) (req : Request) : M Outcome :=
  r ← update BOATS [(b, updated)];
  mret (match r with
        | inl _ => Unanswered
        | inr _ =>
            Sent {| status := 200;
                    body := BoatBody (boatRepr b updated (req_serverName req) true).1 |}
        end).

(** [router.put('/:boat_id')]. *)
Definition put_boat (boat_id : string) (req : Request) : M Outcome :=
  authenticated req (λ sub,
    let props := getBoatProps req in
    if isBadRequest props then mret (handleClientError 400 BAD_REQUEST)
    else
      let id := parseInt boat_id in
      r ← findEntity BOATS id;
      match r with
      | inl e =>
          mret (if code e =? 3 then handleClientError 404 BOAT_NOT_FOUND
                else handleServerError)
      | inr None => mret (handleClientError 404 BOAT_NOT_FOUND)
      | inr (Some (b, stored)) =>
          if not_owner stored sub then mret (handleClientError 403 NOT_OWNER)
          else store_and_answer b (updated_boat stored props) req
      end).

Definition missing_props (props : BoatProps) (stored : Boat) : BoatProps :=
  {| bp_name := or_stored (bp_name props) (boat_name stored);
     bp_type := or_stored (bp_type props) (boat_type stored);
     bp_length := or_stored (bp_length props) (boat_length stored) |}.

(** [router.patch('/:boat_id')]. *)
Definition patch_boat (boat_id : string) (req : Request) : M Outcome :=
  authenticated req (λ sub,
    let props := getBoatProps req in
    let id := parseInt boat_id in
    r ← findEntity BOATS id;
    match r with
    | inl e =>
        mret (if code e =? 3 then handleClientError 404 BOAT_NOT_FOUND
              else handleServerError)
    | inr None => mret (handleClientError 404 BOAT_NOT_FOUND)
    | inr (Some (b, stored)) =>
        if not_owner stored sub then mret (handleClientError 403 NOT_OWNER)
        else store_and_answer b (updated_boat stored (missing_props props stored)) req
    end).

(** [router.get('/:boat_id')]. *)
Definition get_boat (boat_id : string) (req : Request) : M Outcome :=
  authenticated req (λ sub,
    let id := parseInt boat_id in
    r ← findEntity BOATS id;
    mret (match r with
          | inl e =>
              if code e =? 3 then handleClientError 404 BOAT_NOT_FOUND
              else handleServerError
          | inr None => handleClientError 404 BOAT_NOT_FOUND
          | inr (Some (b, boat)) =>
              if not_owner boat sub then handleClientError 403 NOT_OWNER
              else Sent {| status := 200;
                           body := BoatBody (boatRepr b boat (req_serverName req) true).1 |}
          end)).

(** [router.get('/')]: a page of five of the requester's boats. *)
Definition get_boats (engine : Engine Boat) (cursor : JsVal) (req : Request)
  : M ListOutcome :=
  o ← checkJwt req;
  match o with
  | Some out => mret (NotListed out)
  | None =>
      o ← checkRegistered req;
      match o with
      | Some out => mret (NotListed out)
      | None =>
          o ← isAcceptable req;
          match o, req_user req with
          | Some out, _ => mret (NotListed out)
          | None, None => mret (NotListed Unanswered)
          | None, Some sub =>
              let query := {| q_kind := kind_name BOATS; q_owner := Some sub;
                              q_limit := None; q_start := None |} in
              r ← pagedQuery engine query 5 cursor;
              mret (match r with
                    | inl _ => NotListed handleServerError
                    | inr (boats, info) =>
                        Listed 200
                          (BoatPage
                             ((λ e : Z * Boat,
                                 (boatRepr e.1 e.2 (req_serverName req) false).1)
                                <$> boats)
                             (next_link (req_serverName req) "/boats" info))
                    end)
          end
      end
  end.

End AuthBoats.

(** ** The first loads router (src/unnamed/part_005) *)

(** What [datastore.update({})] does, an update of an object that has no
    key: the client's answer is not in the repository, so the handler that
    makes the call takes it as an argument. *)
Inductive KeylessUpdate : Type :=
| Resolves
| Rejects
| Throws.

Module Loads.
Import Datastore Utils.

(** [creation_date] is already a [Date] when [getLoadProps] returns. *)
Definition getLoadProps (req : Request) : LoadProps :=
  {| lp_volume := prop (req_body req) "volume";
     lp_content := prop (req_body req) "content";
     lp_creation_date := JDate (prop (req_body req) "creation_date") |}.

Definition isBadRequest (loadBody : LoadProps) : bool :=
  negb (truthy (js_and (js_and (lp_volume loadBody) (lp_content loadBody))
                       (lp_creation_date loadBody))).

Definition BAD_REQUEST : string :=
  "The request object is missing at least one of the required attributes".
Definition NOT_FOUND : string := "No load with this load_id exists".

(** [router.post('/')]. *)
Definition post (allocated : Z) (req : Request) : M Outcome :=
  let props := getLoadProps req in
  if isBadRequest props then mret (handleClientError 400 BAD_REQUEST)
  else
    let load := {| load_volume := lp_volume props; load_content := lp_content props;
                   load_creation_date := lp_creation_date props;
                   load_carrier := None |} in
    r ← insert LOADS allocated load;
    mret (match r with
          | inl _ => handleServerError
          | inr _ =>
              match loadRepr allocated load (req_serverName req) with
              | Some repr => Sent {| status := 201; body := LoadBody repr |}
              | None => Unanswered
              end
          end).

(** [router.delete('/:load_id')].  A carrier that names no stored boat
    makes [carrier.loads] throw. *)
Definition delete_load (keyless : KeylessUpdate) (load_id : string) (req : Request)
  : M Outcome :=
  let id := parseInt load_id in
  r ← findEntity LOADS id;
  match r with
  | inl e =>
      mret (if code e =? 3 then handleClientError 404 NOT_FOUND
            else handleServerError)
  | inr None => mret (handleClientError 404 NOT_FOUND)
  | inr (Some (l, load)) =>
      match load_carrier load with
      | Some c =>
          found ← findEntity BOATS (Int (carrier_id c));
          match found with
          | inl _ => mret handleServerError
          | inr None => mret Unanswered
          | inr (Some (b, carrier)) =>
              let index := findIndex (is_ref l) (boat_loads carrier) in
              let carrier' := with_loads carrier (splice index 1 (boat_loads carrier)) in
              r ← Promise_all (Datastore.delete LOADS l) (update BOATS [(b, carrier')]);
              mret (match r with
                    | inr _ => Sent {| status := 204; body := NoContent |}
                    | inl _ => handleServerError
                    end)
          end
      | None =>
          _ ← Datastore.delete LOADS l;
          _ ← call DsUpdateKeyless;
          mret (match keyless with
                | Resolves => Sent {| status := 204; body := NoContent |}
                | Rejects => handleServerError
                | Throws => Unanswered
                end)
      end
  end.

(** [router.get('/:load_id')]. *)
Definition get_load (load_id : string) (req : Request) : M Outcome :=
  let id := parseInt load_id in
  r ← findEntity LOADS id;
  mret (match r with
        | inl e =>
            if code e =? 3 then handleClientError 404 NOT_FOUND
            else handleServerError
        | inr None => handleClientError 404 NOT_FOUND
        | inr (Some (l, load)) =>
            match loadRepr l load (req_serverName req) with
            | Some repr => Sent {| status := 200; body := LoadBody repr |}
            | None => Unanswered
            end
        end).

(** [router.get('/')]: a page of five loads. *)
Definition get_loads (engine : Engine Load) (cursor : JsVal) (req : Request)
  : M ListOutcome :=
  let query := createQuery (kind_name LOADS) in
  r ← pagedQuery engine query 5 cursor;
  mret (match r with
        | inl _ => NotListed handleServerError
        | inr (loads, info) =>
            match loadReprs loads (req_serverName req) with
            | Some items =>
                Listed 200
                  (LoadPage items (next_link (req_serverName req) "/loads" info) None)
            | None => NotListed Unanswered
            end
        end).

End Loads.

(** ** The loads router of the authenticated application (second part of
    src/unnamed/part_004) *)

Module AuthLoads.
Import Datastore Utils.

Definition getLoadProps (req : Request) : LoadProps :=
  {| lp_volume := prop (req_body req) "volume";
     lp_content := prop (req_body req) "content";
     lp_creation_date := prop (req_body req) "creation_date" |}.

Definition isBadRequest (loadBody : LoadProps) : bool :=
  negb (truthy (js_and (js_and (lp_volume loadBody) (lp_content loadBody))
                       (lp_creation_date loadBody))).

Definition BAD_REQUEST : string :=
  "The request object is missing at least one of the required attributes".
Definition NOT_FOUND : string := "No load with this load_id exists".

(** The end of POST, PUT and PATCH: the representation of the load that
    was written, if [loadRepr] returns. *)
Definition answer (statusCode : Z) (id : Z) (load : Load) (req : Request) : Outcome :=
  match loadRepr id load (req_serverName req) with
  | Some repr => Sent {| status := statusCode; body := LoadBody repr |}
  | None => Unanswered
  end.

(** [router.post('/')]. *)
Definition post (allocated : Z) (req : Request) : M Outcome :=
  use (isAcceptable req) (
    let props := getLoadProps req in
    if isBadRequest props then mret (handleClientError 400 BAD_REQUEST)
    else
      let load := {| load_volume := lp_volume props; load_content := lp_content props;
                     load_creation_date := JDate (lp_creation_date props);
                     load_carrier := None |} in
      r ← insert LOADS allocated load;
      mret (match r with
            | inl _ => handleServerError
            | inr _ => answer 201 allocated load req
            end)).

(** [router.delete('/:load_id')]. *)
Definition delete_load (load_id : string) (req : Request) : M Outcome :=
  use (isAcceptable req) (
    let id := parseInt load_id in
    r ← findEntity LOADS id;
    match r with
    | inl e =>
        mret (if code e =? 3 then handleClientError 404 NOT_FOUND
              else handleServerError)
    | inr None => mret (handleClientError 404 NOT_FOUND)
    | inr (Some (l, load)) =>
        match load_carrier load with
        | Some c =>
            found ← findEntity BOATS (Int (carrier_id c));
            match found with
            | inl _ => mret handleServerError
            | inr None => mret Unanswered
            | inr (Some (b, carrier)) =>
                let index := findIndex (is_ref l) (boat_loads carrier) in
                let carrier' :=
                  with_loads carrier (splice index 1 (boat_loads carrier)) in
                r ← Promise_all (Datastore.delete LOADS l) (update BOATS [(b, carrier')]);
                mret (match r with
                      | inr _ => Sent {| status := 204; body := NoContent |}
                      | inl _ => handleServerError
                      end)
            end
        | None =>
            _ ← Datastore.delete LOADS l;
            mret (Sent {| status := 204; body := NoContent |})
        end
    end).

(** [{carrier: stored.carrier, ...load}]. *)
Definition updated_load (stored : Load) (props : LoadProps) : Load :=
  {| load_volume := lp_volume props; load_content := lp_content props;
     load_creation_date := lp_creation_date props;
     load_carrier := load_carrier stored |}.

(** The [catch] around the update names an undefined variable, as in the
    boats router. *)
Definition store_and_answer (l : Z) (updated : Load) (req : Request) : M Outcome :=
  r ← update LOADS [(l, updated)];
  mret (match r with
        | inl _ => Unanswered
        | inr _ => answer 200 l updated req
        end).

Definition as_date (props : LoadProps) : LoadProps :=
  {| lp_volume := lp_volume props; lp_content := lp_content props;
     lp_creation_date := JDate (lp_creation_date props) |}.

(** [router.put('/:load_id')]. *)
Definition put_load (load_id : string) (req : Request) : M Outcome :=
  use (isAcceptable req) (
    let props := getLoadProps req in
    if isBadRequest props then mret (handleClientError 400 BAD_REQUEST)
    else
      let id := parseInt load_id in
      r ← findEntity LOADS id;
      match r with
      | inl e =>
          mret (if code e =? 3 then handleClientError 404 NOT_FOUND
                else handleServerError)
      | inr None => mret (handleClientError 404 NOT_FOUND)
      | inr (Some (l, stored)) =>
          store_and_answer l (updated_load stored (as_date props)) req
      end).

Definition missing_props (props : LoadProps) (stored : Load) : LoadProps :=
  {| lp_volume := or_stored (lp_volume props) (load_volume stored);
     lp_content := or_stored (lp_content props) (load_content stored);
     lp_creation_date :=
       or_stored (lp_creation_date props) (load_creation_date stored) |}.

(** [router.patch('/:load_id')]: a [creation_date] from the body is
    stored as it came. *)
Definition patch_load (load_id : string) (req : Request) : M Outcome :=
  use (isAcceptable req) (
    let props := getLoadProps req in
    let id := parseInt load_id in
    r ← findEntity LOADS id;
    match r with
    | inl e =>
        mret (if code e =? 3 then handleClientError 404 NOT_FOUND
              else handleServerError)
    | inr None => mret (handleClientError 404 NOT_FOUND)
    | inr (Some (l, stored)) =>
        store_and_answer l (updated_load stored (missing_props props stored)) req
    end).

(** [router.get('/:load_id')]. *)
Definition get_load (load_id : string) (req : Request) : M Outcome :=
  use (isAcceptable req) (
    let id := parseInt load_id in
    r ← findEntity LOADS id;
    mret (match r with
          | inl e =>
              if code e =? 3 then handleClientError 404 NOT_FOUND
              else handleServerError
          | inr None => handleClientError 404 NOT_FOUND
          | inr (Some (l, load)) => answer 200 l load req
          end)).

(** [router.get('/')]: a page of five loads and the number of all loads,
    from a second query without limit. *)
Definition get_loads (engine : Engine Load) (cursor : JsVal) (req : Request)
  : M ListOutcome :=
  o ← isAcceptable req;
  match o with
  | Some out => mret (NotListed out)
  | None =>
      let query := createQuery (kind_name LOADS) in
      let totalQuery := createQuery (kind_name LOADS) in
      r ← pagedQuery engine query 5 cursor;
      match r with
      | inl _ => mret (NotListed handleServerError)
      | inr (loads, info) =>
          t ← runQuery engine totalQuery;
          mret (match t with
                | inl _ => NotListed handleServerError
                | inr (total, _) =>
                    match loadReprs loads (req_serverName req) with
                    | Some items =>
                        Listed 200
                          (LoadPage items
                             (next_link (req_serverName req) "/loads" info)
                             (Some (Z.of_nat (length total))))
                    | None => NotListed Unanswered
                    end
                end)
      end
  end.

End AuthLoads.

(** ** The relationship operations and the bidirectional invariant *)

(** The routes that change which boat carries which load, in both boats
    routers and both loads routers. *)
Inductive Operation : Type :=
| Assign (boat_id load_id : string)
| Unassign (boat_id load_id : string)
| DeleteBoat (boat_id : string)
| AuthAssign (boat_id load_id : string)
| AuthUnassign (boat_id load_id : string)
| AuthDeleteBoat (boat_id : string)
| DeleteLoad (keyless : KeylessUpdate) (load_id : string)
| AuthDeleteLoad (load_id : string).

Definition handle (op : Operation) (req : Request) : M Outcome :=
  match op with
  | Assign boat_id load_id => Boats.put_boat_load boat_id load_id req
  | Unassign boat_id load_id => Boats.delete_boat_load boat_id load_id req
  | DeleteBoat boat_id => Boats.delete_boat boat_id req
  | AuthAssign boat_id load_id => AuthBoats.put_boat_load boat_id load_id req
  | AuthUnassign boat_id load_id => AuthBoats.delete_boat_load boat_id load_id req
  | AuthDeleteBoat boat_id => AuthBoats.delete_boat boat_id req
  | DeleteLoad keyless load_id => Loads.delete_load keyless load_id req
  | AuthDeleteLoad load_id => AuthLoads.delete_load load_id req
  end.

(** The response of a completed relationship operation. *)
Definition no_content : Outcome := Sent {| status := 204; body := NoContent |}.

(** Every load whose carrier is a stored boat is listed by that boat. *)
Definition carriers_list_loads (st : Store) : Prop :=
  ∀ (l : Z) (L : Load) (c : Carrier) (B : Boat),
    loads st !! l = Some L → load_carrier L = Some c →
    boats st !! carrier_id c = Some B →
    ∃ r, r ∈ boat_loads B ∧ ref_id r = l.

(** Every entry of a boat's [loads] names a stored load whose carrier is
    that boat. *)
Definition listed_loads_carried (st : Store) : Prop :=
  ∀ (b : Z) (B : Boat) (r : LoadRef),
    boats st !! b = Some B → r ∈ boat_loads B →
    ∃ L c, loads st !! ref_id r = Some L ∧ load_carrier L = Some c ∧ carrier_id c = b.

(** The bidirectional consistency invariant of the specification. *)
Definition consistent (st : Store) : Prop :=
  carriers_list_loads st ∧ listed_loads_carried st.

(** No boat lists the same load twice. *)
Definition no_duplicates (st : Store) : Prop :=
  ∀ (b : Z) (B : Boat), boats st !! b = Some B → NoDup (ref_id <$> boat_loads B).

(** The same predicates as checks that run on a given store. *)
Definition lists_load (B : Boat) (l : Z) : bool := existsb (is_ref l) (boat_loads B).

Definition carried_by (st : Store) (b l : Z) : bool :=
  match loads st !! l with
  | Some L =>
      match load_carrier L with
      | Some c => carrier_id c =? b
      | None => false
      end
  | None => false
  end.

Definition carriers_list_loadsb (st : Store) : bool :=
  forallb (λ e : Z * Load,
             match load_carrier e.2 with
             | Some c =>
                 match boats st !! carrier_id c with
                 | Some B => lists_load B e.1
                 | None => true
                 end
             | None => true
             end) (map_to_list (loads st)).

Definition listed_loads_carriedb (st : Store) : bool :=
  forallb (λ e : Z * Boat,
             forallb (λ r, carried_by st e.1 (ref_id r)) (boat_loads e.2))
          (map_to_list (boats st)).

Definition consistentb (st : Store) : bool :=
  carriers_list_loadsb st && listed_loads_carriedb st.

Definition no_duplicatesb (st : Store) : bool :=
  forallb (λ e : Z * Boat, bool_decide (NoDup (ref_id <$> boat_loads e.2)))
          (map_to_list (boats st)).

(** The array that [l.splice(l.findIndex(p), 1)] leaves when some element
    satisfies [p]: the first such element is gone. *)
Fixpoint remove_first {A : Type} (p : A → bool) (l : list A) : list A :=
  match l with
  | [] => []
  | x :: r => if p x then r else x :: remove_first p r
  end.

(** ** What a completed operation does to the store *)

(** After a successful assignment of load [l] to boat [b]. *)
Definition appended (l : Z) (B : Boat) : Boat :=
  with_loads B (boat_loads B ++ [{| ref_id := l; ref_self := None |}]).

(** After [boat.loads.splice(index, 1)] with the index of load [l]. *)
Definition spliced (l : Z) (B : Boat) : Boat :=
  with_loads B (splice (findIndex (is_ref l) (boat_loads B)) 1 (boat_loads B)).

Definition assigned (st st' : Store) : Prop :=
  ∃ b l B L name,
    boats st !! b = Some B ∧ loads st !! l = Some L ∧ load_carrier L = None ∧
    st' = {| boats := <[b := appended l B]> (boats st);
             loads := <[l := with_carrier L
                                (Some {| carrier_id := b; carrier_name := name |})]>
                        (loads st);
             users := users st |}.

Definition unassigned (st st' : Store) : Prop :=
  ∃ b l B L c,
    boats st !! b = Some B ∧ loads st !! l = Some L ∧
    load_carrier L = Some c ∧ carrier_id c = b ∧
    st' = {| boats := <[b := spliced l B]> (boats st);
             loads := <[l := with_carrier L None]> (loads st);
             users := users st |}.

(** The loads of the store once the loads named by [ids] were fetched,
    cleared and written back. *)
Definition cleared_loads (ids : list Z) (m : gmap Z Load) : gmap Z Load :=
  foldl (λ m e, <[e.1 := e.2]> m) m
        (Boats.clear_carriers (omap (λ z, (λ a, (z, a)) <$> m !! z) ids)).

Definition boat_deleted (st st' : Store) : Prop :=
  ∃ b B,
    boats st !! b = Some B ∧
    st' = {| boats := delete b (boats st);
             loads := cleared_loads (ref_id <$> boat_loads B) (loads st);
             users := users st |}.

Definition load_deleted (st st' : Store) : Prop :=
  ∃ l L,
    loads st !! l = Some L ∧
    match load_carrier L with
    | None =>
        st' = {| boats := boats st; loads := delete l (loads st); users := users st |}
    | Some c =>
        ∃ B, boats st !! carrier_id c = Some B ∧
             st' = {| boats := <[carrier_id c := spliced l B]> (boats st);
                      loads := delete l (loads st);
                      users := users st |}
    end.

(** The invariant that the operations keep: the two directions of the
    links, and no load listed twice. *)
Definition well_linked (st : Store) : Prop := consistent st ∧ no_duplicates st.

(** The request passes the three middlewares of the authenticated boats
    router as the subject [sub]. *)
Definition admitted (req : Request) (st : Store) (sub : string) : Prop :=
  req_user req = Some sub ∧ sub ∈ users st ∧ req_accepts_json req = true.

(** Assigning and then unassigning: both requests are answered 204, the
    load is carried by the boat in between, and afterwards the load has no
    carrier, the boat lists what it listed and the store is what it was. *)
Definition round_trip (assign unassign : M Outcome) (st : Store) (b l : Z) (B : Boat)
  : Prop :=
  let r1 := run assign st in
  let r2 := run unassign (store r1.2) in
  r1.1 = no_content ∧ r2.1 = no_content ∧
  (∃ L1 c, loads (store r1.2) !! l = Some L1 ∧ load_carrier L1 = Some c ∧ carrier_id c = b) ∧
  (∃ L2, loads (store r2.2) !! l = Some L2 ∧ load_carrier L2 = None) ∧
  (∃ B2, boats (store r2.2) !! b = Some B2 ∧ boat_loads B2 = boat_loads B) ∧
  store r2.2 = st.

Definition LOAD_ALREADY_ASSIGNED_403 : Outcome :=
  Sent {| status := 403; body := ErrorBody "The load is already assigned" |}.

Definition NOT_OWNER_403 : Outcome :=
  Sent {| status := 403;
          body := ErrorBody
            "The associated user does not own the boat with the requested boat_id" |}.


(** The calls of a successful DELETE /boats/:boat_id by the registered
    subject [sub]. *)
Definition delete_boat_calls (sub : string) (b : Z) (B : Boat) (st : Store) : list DsCall :=
  let ids := ref_id <$> boat_loads B in
  let fetched := omap (λ z, (λ a, (z, a)) <$> loads st !! z) ids in
  [DsGetNamed "Users" sub; DsGet "Boats" [Int b]]
    ++ (if 0 <? Z.of_nat (length ids) then [DsGet "Loads" (Int <$> ids)] else [])
    ++ [DsDelete "Boats" b; DsUpdate "Loads" (fst <$> Boats.clear_carriers fetched)].

(** How the first loads router answers once [datastore.update({})] did
    what [keyless] says. *)
Definition keyless_outcome (keyless : KeylessUpdate) : Outcome :=
  match keyless with
  | Resolves => no_content
  | Rejects => Utils.handleServerError
  | Throws => Unanswered
  end.

Definition status_of (o : Outcome) : option Z :=
  match o with
  | Sent r => Some (status r)
  | Unanswered => None
  end.

(** ** The users router (first part of src/routes/users.js) *)

Module Users.

(** What the page routes answer with: a redirect, after the session has
    recorded where to return to, or a rendered view. *)
Inductive PageOutcome : Type :=
| Redirected (location returnTo : string)
| Rendered (statusCode : Z) (view : string) (jwt : JsVal) (userId : string).

(** [router.get('/user')]: [user] is [req.user.id] of the session, if the
    session is authenticated.  The transaction reads the user's key and
    saves the user only if it is absent; the transaction's own calls are
    not calls on the client, the read is logged like a lookup. *)
Definition get_user (user : option string) (idToken : JsVal) (originalUrl : string)
  : M PageOutcome :=
  match user with
  | None => mret (Redirected "/auth/login" originalUrl)
  | Some id =>
      found ← Datastore.get_named USERS id;
      _ ← match found with
          | inr (Some _) => mret tt
          | _ => write (λ st, {| boats := boats st; loads := loads st;
                                 users := {[ id ]} ∪ users st |})
          end;
      mret (Rendered 200 "info" idToken id)
  end.

(** [router.get('/users')]: the ids of all users, as the query without
    filter or limit returns them. *)
Definition get_users : M ListOutcome :=
  st ← read;
  mret (Listed 200 (UserList (elements (users st)))).

End Users.

(** ** The applications (src/unnamed/part_000 and part_001) *)

(** A value inside a template literal: [undefined] prints as its name. *)
Definition template (v : option string) : string := default "undefined" v.

Module App.

(** [req.serverName()] of the authenticated application: [port] is
    [req.socket.localPort], [production] whether NODE_ENV is
    ["production"].  On the ports 80 and 443, and without a port, the
    function returns nothing. *)
Definition serverName (protocol hostname : string) (port : option Z) (production : bool)
  : option string :=
  let serverName := protocol +:+ "://" +:+ hostname in
  match port with
  | Some port =>
      if negb (port =? 80) && negb (port =? 443)
      then Some (if production then serverName
                 else serverName +:+ ":" +:+ show port)
      else None
  | None => None
  end.

(** The last middleware: no route matched. *)
Definition not_found : Outcome :=
  Sent {| status := 404; body := ErrorBody "Resource not found." |}.

End App.

Module FirstApp.

(** [req.serverName()] of the first application: [host] is the Host
    header. *)
Definition serverName (protocol host : string) : option string :=
  Some (protocol +:+ "://" +:+ host).

End FirstApp.

(** ** Every route *)

Inductive Call : Type :=
| Relate (op : Operation)
| PostBoat (allocated : Z)
| GetBoat (boat_id : string)
| GetBoatLoads (boat_id : string)
| GetBoats (engine : Engine Boat) (cursor : JsVal)
| AuthPostBoat (allocated : Z)
| AuthGetBoat (boat_id : string)
| AuthGetBoats (engine : Engine Boat) (cursor : JsVal)
| AuthPutBoat (boat_id : string)
| AuthPatchBoat (boat_id : string)
| PostLoad (allocated : Z)
| GetLoad (load_id : string)
| GetLoads (engine : Engine Load) (cursor : JsVal)
| AuthPostLoad (allocated : Z)
| AuthGetLoad (load_id : string)
| AuthGetLoads (engine : Engine Load) (cursor : JsVal)
| AuthPutLoad (load_id : string)
| AuthPatchLoad (load_id : string)
| GetUser (user : option string) (idToken : JsVal) (originalUrl : string)
| GetUsers.

Inductive Answer : Type :=
| Plain (o : Outcome)
| Listing (l : ListOutcome)
| Page (p : Users.PageOutcome).

Definition plain (h : M Outcome) : M Answer := o ← h; mret (Plain o).
Definition listing (h : M ListOutcome) : M Answer := l ← h; mret (Listing l).
Definition page (h : M Users.PageOutcome) : M Answer := p ← h; mret (Page p).

Definition serve (c : Call) (req : Request) : M Answer :=
  match c with
  | Relate op => plain (handle op req)
  | PostBoat allocated => plain (Boats.post allocated req)
  | GetBoat boat_id => plain (Boats.get_boat boat_id req)
  | GetBoatLoads boat_id => listing (Boats.get_boat_loads boat_id req)
  | GetBoats engine cursor => listing (Boats.get_boats engine cursor req)
  | AuthPostBoat allocated => plain (AuthBoats.post allocated req)
  | AuthGetBoat boat_id => plain (AuthBoats.get_boat boat_id req)
  | AuthGetBoats engine cursor => listing (AuthBoats.get_boats engine cursor req)
  | AuthPutBoat boat_id => plain (AuthBoats.put_boat boat_id req)
  | AuthPatchBoat boat_id => plain (AuthBoats.patch_boat boat_id req)
  | PostLoad allocated => plain (Loads.post allocated req)
  | GetLoad load_id => plain (Loads.get_load load_id req)
  | GetLoads engine cursor => listing (Loads.get_loads engine cursor req)
  | AuthPostLoad allocated => plain (AuthLoads.post allocated req)
  | AuthGetLoad load_id => plain (AuthLoads.get_load load_id req)
  | AuthGetLoads engine cursor => listing (AuthLoads.get_loads engine cursor req)
  | AuthPutLoad load_id => plain (AuthLoads.put_load load_id req)
  | AuthPatchLoad load_id => plain (AuthLoads.patch_load load_id req)
  | GetUser user idToken originalUrl => page (Users.get_user user idToken originalUrl)
  | GetUsers => listing Users.get_users
  end.

(** The store a request leaves. *)
Definition after (c : Call) (req : Request) (st : Store) : Store :=
  store (run (serve c req) st).2.

(** The store after a sequence of requests, served one after the other. *)
Fixpoint serve_all (rs : list (Call * Request)) (st : Store) : Store :=
  match rs with
  | [] => st
  | r :: rs => serve_all rs (after r.1 r.2 st)
  end.

Definition empty_store : Store := {| boats := ∅; loads := ∅; users := ∅ |}.

(** The routes that only read. *)
Definition is_get (c : Call) : bool :=
  match c with
  | GetBoat _ | GetBoatLoads _ | GetBoats _ _ | AuthGetBoat _ | AuthGetBoats _ _
  | GetLoad _ | GetLoads _ _ | AuthGetLoad _ | AuthGetLoads _ _ | GetUsers => true
  | _ => false
  end.

(** The routes of the authenticated boats router that name a boat. *)
Definition on_boat (c : Call) : option string :=
  match c with
  | Relate (AuthAssign boat_id _) | Relate (AuthUnassign boat_id _)
  | Relate (AuthDeleteBoat boat_id)
  | AuthGetBoat boat_id | AuthPutBoat boat_id | AuthPatchBoat boat_id => Some boat_id
  | _ => None
  end.

(** The routes of the authenticated boats router. *)
Definition behind_gate (c : Call) : bool :=
  match c with
  | Relate (AuthAssign _ _) | Relate (AuthUnassign _ _) | Relate (AuthDeleteBoat _)
  | AuthPostBoat _ | AuthGetBoat _ | AuthGetBoats _ _ | AuthPutBoat _ | AuthPatchBoat _ =>
      true
  | _ => false
  end.

Definition answer_status (a : Answer) : option Z :=
  match a with
  | Plain o => status_of o
  | Listing (Listed statusCode _) => Some statusCode
  | Listing (NotListed o) => status_of o
  | Page (Users.Redirected _ _) => Some 302
  | Page (Users.Rendered statusCode _ _ _) => Some statusCode
  end.

(** ** The changes a request can make *)

(** Every carrier is a stored boat. *)
Definition carriers_stored (st : Store) : Prop :=
  ∀ (l : Z) (L : Load) (c : Carrier),
    loads st !! l = Some L → load_carrier L = Some c →
    is_Some (boats st !! carrier_id c).

Definition carriers_storedb (st : Store) : bool :=
  forallb (λ e : Z * Load,
             match load_carrier e.2 with
             | Some c => is_stored BOATS st (carrier_id c)
             | None => true
             end) (map_to_list (loads st)).

(** No reference dangles, in either direction. *)
Definition sound (st : Store) : Prop := well_linked st ∧ carriers_stored st.

Definition boat_created (st st' : Store) : Prop :=
  ∃ b B,
    boats st !! b = None ∧ boat_loads B = [] ∧
    st' = {| boats := <[b := B]> (boats st); loads := loads st; users := users st |}.

Definition load_created (st st' : Store) : Prop :=
  ∃ l L,
    loads st !! l = None ∧ load_carrier L = None ∧
    st' = {| boats := boats st; loads := <[l := L]> (loads st); users := users st |}.

Definition boat_edited (st st' : Store) : Prop :=
  ∃ b B B',
    boats st !! b = Some B ∧ boat_loads B' = boat_loads B ∧
    boat_owner B' = boat_owner B ∧
    st' = {| boats := <[b := B']> (boats st); loads := loads st; users := users st |}.

Definition load_edited (st st' : Store) : Prop :=
  ∃ l L L',
    loads st !! l = Some L ∧ load_carrier L' = load_carrier L ∧
    st' = {| boats := boats st; loads := <[l := L']> (loads st); users := users st |}.

Definition user_registered (st st' : Store) : Prop :=
  ∃ id, st' = {| boats := boats st; loads := loads st; users := {[ id ]} ∪ users st |}.

(** One request changes the store in one of these ways, or not at all. *)
Inductive change (st : Store) : Store → Prop :=
| change_none : change st st
| change_assigned st' : assigned st st' → change st st'
| change_unassigned st' : unassigned st st' → change st st'
| change_boat_deleted st' : boat_deleted st st' → change st st'
| change_load_deleted st' : load_deleted st st' → change st st'
| change_boat_created st' : boat_created st st' → change st st'
| change_load_created st' : load_created st st' → change st st'
| change_boat_edited st' : boat_edited st st' → change st st'
| change_load_edited st' : load_edited st st' → change st st'
| change_user_registered st' : user_registered st st' → change st st'.

(** ** Further notions for the properties *)

(** The digits of [d] read after [acc]. *)
Fixpoint read_uint (acc : Z) (d : Decimal.uint) : Z :=
  match d with
  | Decimal.Nil => acc
  | Decimal.D0 d => read_uint (10 * acc + 0) d
  | Decimal.D1 d => read_uint (10 * acc + 1) d
  | Decimal.D2 d => read_uint (10 * acc + 2) d
  | Decimal.D3 d => read_uint (10 * acc + 3) d
  | Decimal.D4 d => read_uint (10 * acc + 4) d
  | Decimal.D5 d => read_uint (10 * acc + 5) d
  | Decimal.D6 d => read_uint (10 * acc + 6) d
  | Decimal.D7 d => read_uint (10 * acc + 7) d
  | Decimal.D8 d => read_uint (10 * acc + 8) d
  | Decimal.D9 d => read_uint (10 * acc + 9) d
  end.

(** The text starts with a decimal digit. *)
Definition starts_with_digit (s : string) : bool :=
  match s with
  | String a _ => bool_decide (is_Some (digit_of a))
  | EmptyString => false
  end.

(** A handler that leaves the store alone and makes no call that writes. *)
Definition reads_only {A : Type} (h : M A) : Prop :=
  ∀ st, store (run h st).2 = st ∧ existsb is_write (calls (run h st).2) = false.

(** The answer has a 4xx status. *)
Definition client_error (a : Answer) : bool :=
  match answer_status a with
  | Some code => (400 <=? code) && (code <? 500)
  | None => false
  end.

(** What a JSON body holds for a property: anything but [undefined] and a
    [Date]. *)
Definition from_json (v : JsVal) : bool :=
  match v with
  | JUndefined | JDate _ => false
  | _ => true
  end.

(** [creation_date] is a [Date]. *)
Definition dated_load (load : Load) : bool :=
  match load_creation_date load with
  | JDate _ => true
  | _ => false
  end.

(** The properties a stored boat would be validated on. *)
Definition stored_props (boat : Boat) : BoatProps :=
  {| bp_name := boat_name boat; bp_type := boat_type boat;
     bp_length := boat_length boat |}.

(** [v] is in the body and falsy. *)
Definition falsy_value (v : JsVal) : bool := from_json v && negb (truthy v).

(** The carrier of a representation is boat [b], with its link. *)
Definition carried_on (b : Z) (baseUrl : string) (repr : LoadRepr) : Prop :=
  ∃ name, lr_carrier repr =
            Some {| cr_id := b; cr_name := name;
                    cr_self := baseUrl +:+ "/boats/" +:+ show b |}.

(** The characters of a link that need no escaping. *)
Definition safe (a : Ascii.ascii) : bool := unreserved a || Ascii.eqb a "%".

(** [sound] as a check that runs on a given store. *)
Definition soundb (st : Store) : bool :=
  consistentb st && no_duplicatesb st && carriers_storedb st.

(** ** Sample data *)

Definition ann : string := "auth0|ann".
Definition bob : string := "auth0|bob".

(** Ann's boat, listing the loads [ls]. *)
Definition orca (ls : list Z) : Boat :=
  {| boat_name := JStr "Orca"; boat_type := JStr "sail"; boat_length := JNum 12;
     boat_owner := JStr ann;
     boat_loads := (λ l, {| ref_id := l; ref_self := None |}) <$> ls |}.

Definition lego (carrier : option Z) : Load :=
  {| load_volume := JNum 5; load_content := JStr "LEGO Blocks";
     load_creation_date := JDate (JStr "10/18/2020");
     load_carrier := (λ b, {| carrier_id := b; carrier_name := JStr "Orca" |}) <$> carrier |}.

(** Boat 1 carries load 7; load 8 is free. *)
Definition harbour : Store :=
  {| boats := {[ 1 := orca [7] ]};
     loads := {[ 7 := lego (Some 1); 8 := lego None ]};
     users := {[ ann; bob ]} |}.

(** Boat 1 lists only load 9, yet loads 7 and 9 both name it as carrier. *)
Definition stray : Store :=
  {| boats := {[ 1 := orca [9] ]};
     loads := {[ 7 := lego (Some 1); 9 := lego (Some 1) ]};
     users := {[ ann; bob ]} |}.

(** Boat 1 lists load 7 twice. *)
Definition doubled : Store :=
  {| boats := {[ 1 := orca [7; 7] ]};
     loads := {[ 7 := lego (Some 1) ]};
     users := {[ ann; bob ]} |}.

Definition request (sub : string) : Request :=
  {| req_user := Some sub; req_accept := "application/json";
     req_accepts_json := true; req_body := ∅;
     req_serverName := "https://api.example" |}.

(** A body with every property of a boat and of a load. *)
Definition replace : Request :=
  {| req_user := Some ann; req_accept := "application/json"; req_accepts_json := true;
     req_body := {[ "name" := JStr "Orca II"; "type" := JStr "yacht"; "length" := JNum 14;
                    "volume" := JNum 6; "content" := JStr "bricks";
                    "creation_date" := JStr "1/1/2021" ]};
     req_serverName := "https://api.example" |}.

(** A body with some of them. *)
Definition edit : Request :=
  {| req_user := Some ann; req_accept := "application/json"; req_accepts_json := true;
     req_body := {[ "name" := JStr "Orca II"; "length" := JNum 14;
                    "volume" := JNum 6; "creation_date" := JStr "1/1/2021" ]};
     req_serverName := "https://api.example" |}.

(** A new load whose [creation_date] is 0. *)
Definition dated : Request :=
  {| req_user := None; req_accept := "application/json"; req_accepts_json := true;
     req_body := {[ "volume" := JNum 5; "content" := JStr "LEGO Blocks";
                    "creation_date" := JNum 0 ]};
     req_serverName := "https://api.example" |}.

(** A new boat whose [length] is 0. *)
Definition adrift : Request :=
  {| req_user := Some ann; req_accept := "application/json"; req_accepts_json := true;
     req_body := {[ "name" := JStr "Orca"; "type" := JStr "sail"; "length" := JNum 0 ]};
     req_serverName := "https://api.example" |}.

(** Ann's boat 2 has no loads; load 8 is free. *)
Definition moored : Store :=
  {| boats := {[ 2 := orca [] ]};
     loads := {[ 8 := lego None ]};
     users := {[ ann; bob ]} |}.

(** A new load whose [creation_date] is a time in milliseconds. *)
Definition stamped : Request :=
  {| req_user := Some ann; req_accept := "application/json"; req_accepts_json := true;
     req_body := {[ "volume" := JNum 6; "content" := JStr "bricks";
                    "creation_date" := JNum 1603000000000 ]};
     req_serverName := "https://api.example" |}.

(** A datastore that answers every query with [page]. *)
Definition one_page (page : list (Z * Load)) (more : string) : Engine Load :=
  λ _ _, inr (page, {| moreResults := more; endCursor := "a/b" |}).

(** Ann registers, creates boat 1 and load 7 and puts the load on the
    boat. *)
Definition voyage : list (Call * Request) :=
  [(GetUser (Some ann) JNull "/user", request ann);
   (AuthPostBoat 1, replace);
   (AuthPostLoad 7, replace);
   (Relate (AuthAssign "1" "7"), request ann)].

(** ** Proof automation *)

Ltac run_monad :=
  unfold run, use, Promise_all, Datastore.findEntity, Datastore.findUser,
    Datastore.get, Datastore.get_all, Datastore.get_named, Datastore.insert,
    Datastore.update, Datastore.delete, call, read, write, mbind, M_bind, mret, M_ret;
  simpl.

(** A branch of a handler that leaves the store alone. *)
Ltac unchanged := simpl; try apply change_none.

(** The three middlewares in front of a handler of the authenticated boats
    router. *)
Ltac gate middlewares :=
  rewrite middlewares;
  destruct (req_user _) as [sub|]; unchanged;
  destruct (decide _); unchanged;
  destruct (req_accepts_json _); unchanged.

(** A branch of a handler that only reads. *)
Ltac settle := simpl; try (split; reflexivity).

(** * Properties *)

(** ** JavaScript helpers on sample inputs *)

Example parseInt_12 : parseInt "12" = Int 12.
Proof. reflexivity. Qed.
Example parseInt_12abc : parseInt " -12abc" = Int (-12).
Proof. reflexivity. Qed.
Example parseInt_abc : parseInt "abc" = NaN.
Proof. reflexivity. Qed.
Example parseInt_no_break_space :
  parseInt (String (ascii_of_N 194) (String (ascii_of_N 160) "1")) = Int 1.
Proof. reflexivity. Qed.
Example parseInt_byte_order_mark :
  parseInt (String (ascii_of_N 239) (String (ascii_of_N 187) (String (ascii_of_N 191) " -7")))
    = Int (-7).
Proof. reflexivity. Qed.
Example parseInt_line_separator :
  parseInt (String (ascii_of_N 226) (String (ascii_of_N 128) (String (ascii_of_N 168) "12")))
    = Int 12.
Proof. reflexivity. Qed.
Example parseInt_zero_width_space :
  parseInt (String (ascii_of_N 226) (String (ascii_of_N 128) (String (ascii_of_N 139) "12")))
    = NaN.
Proof. reflexivity. Qed.
Example show_42 : show 42 = "42".
Proof. reflexivity. Qed.
Example splice_minus_one : splice (-1) 1 [1; 2; 3] = [1; 2].
Proof. reflexivity. Qed.
Example splice_first : splice 0 1 [1; 2; 3] = [2; 3].
Proof. reflexivity. Qed.
Example splice_empty : splice (-1) 1 (@nil Z) = [].
Proof. reflexivity. Qed.

(** ** Arrays: [findIndex] and [splice] *)

Section arrays.
Context {A : Type} (p : A → bool).

Lemma findIndex_from_shift (l : list A) (i : Z) :
  findIndex_from p l i =
    if existsb p l then i + findIndex_from p l 0 else -1.
Proof.
  revert i. induction l as [|x r IH]; intros i; simpl; [done|].
  destruct (p x); simpl; [lia|].
  rewrite (IH (i + 1)), (IH (0 + 1)). destruct (existsb p r); lia.
Qed.


Lemma findIndex_cons (x : A) (r : list A) :
  findIndex p (x :: r) =
    if p x then 0 else if existsb p r then 1 + findIndex p r else -1.
Proof.
  unfold findIndex. simpl. destruct (p x); [done|].
  by rewrite findIndex_from_shift.
Qed.

Lemma findIndex_found (l : list A) :
  existsb p l = true →
  ∃ k : nat, findIndex p l = Z.of_nat k ∧ (k < length l)%nat ∧
             (take k l ++ drop (S k) l)%list = remove_first p l.
Proof.
  induction l as [|x r IH]; simpl; [done|].
  rewrite findIndex_cons. destruct (p x); simpl.
  - intros _. exists 0%nat. split_and!; [done|lia|]. by rewrite drop_0.
  - intros H. rewrite H. destruct (IH H) as (k & Hk & Hlt & Heq).
    exists (S k). split_and!; [lia|lia|]. simpl. by rewrite Heq.
Qed.

Lemma splice_one (l : list A) (k : nat) :
  (k < length l)%nat → splice (Z.of_nat k) 1 l = (take k l ++ drop (S k) l)%list.
Proof.
  intros Hk. unfold splice.
  replace (Z.of_nat k <? 0) with false by (symmetry; apply Z.ltb_ge; lia).
  rewrite Z.min_l by lia. rewrite Z.max_l by lia. rewrite Z.min_l by lia.
  rewrite Nat2Z.id. by replace (Z.to_nat (Z.of_nat k + 1)) with (S k) by lia.
Qed.

Lemma splice_findIndex (l : list A) :
  existsb p l = true → splice (findIndex p l) 1 l = remove_first p l.
Proof.
  intros H. destruct (findIndex_found l H) as (k & -> & Hlt & <-).
  by apply splice_one.
Qed.


Lemma elem_of_remove_first (l : list A) (x : A) :
  x ∈ remove_first p l → x ∈ l.
Proof.
  induction l as [|y r IH]; simpl; [done|].
  destruct (p y); rewrite ?elem_of_cons; [by right|].
  intros [->|Hx]; [by left|right; by apply IH].
Qed.

Lemma elem_of_remove_first_other (l : list A) (x : A) :
  x ∈ l → p x = false → x ∈ remove_first p l.
Proof.
  induction l as [|y r IH]; simpl; [done|].
  rewrite elem_of_cons. intros [->|Hin] Hx.
  - rewrite Hx. left.
  - destruct (p y); [done|]. right. by apply IH.
Qed.
End arrays.

(** ** Running the datastore calls of a handler *)

Lemma find_both (boatId loadId : JsNum) (w : World) :
  Promise_all (Datastore.findEntity BOATS boatId) (Datastore.findEntity LOADS loadId) w =
    (match boatId, loadId with
     | Int b, Int l =>
         inr ((λ a, (b, a)) <$> boats (store w) !! b,
              (λ a, (l, a)) <$> loads (store w) !! l)
     | _, _ => inl INVALID_ARGUMENT
     end,
     {| store := store w;
        calls := (calls w ++ [DsGet "Boats" [boatId]]) ++ [DsGet "Loads" [loadId]] |}).
Proof. destruct boatId, loadId; reflexivity. Qed.

Lemma update_one {A : Type} (K : Kind A) (z : Z) (a : A) (w : World) :
  is_Some (table K (store w) !! z) →
  Datastore.update K [(z, a)] w =
    (inr tt, {| store := set_table K (<[z := a]> (table K (store w))) (store w);
                calls := calls w ++ [DsUpdate (kind_name K) [z]] |}).
Proof.
  intros [a0 H]. run_monad. unfold is_stored. by rewrite H.
Qed.

Lemma update_both (l b : Z) (L' : Load) (B' : Boat) (w : World) :
  is_Some (loads (store w) !! l) → is_Some (boats (store w) !! b) →
  Promise_all (Datastore.update LOADS [(l, L')]) (Datastore.update BOATS [(b, B')]) w =
    (inr (tt, tt),
     {| store := {| boats := <[b := B']> (boats (store w));
                    loads := <[l := L']> (loads (store w));
                    users := users (store w) |};
        calls := (calls w ++ [DsUpdate "Loads" [l]]) ++ [DsUpdate "Boats" [b]] |}).
Proof.
  intros [L HL] [B HB]. run_monad. unfold is_stored. simpl. rewrite HL. simpl. by rewrite HB.
Qed.

Lemma authenticated_run (req : Request) (h : string → M Outcome) (w : World) :
  AuthBoats.authenticated req h w =
    match req_user req with
    | None =>
        (Sent {| status := 401; body := ErrorBody "Missing/invalid authorization" |}, w)
    | Some sub =>
        let w' := {| store := store w; calls := calls w ++ [DsGetNamed "Users" sub] |} in
        if decide (sub ∈ users (store w)) then
          if req_accepts_json req then h sub w'
          else (Utils.handleClientError 406
                  ("Unsupported 'Accept' header: '" +:+ req_accept req
                     +:+ "'. Must accept 'application/json'"), w')
        else (Utils.handleClientError 403 AuthBoats.NOT_REGISTERED, w')
    end.
Proof.
  unfold AuthBoats.authenticated, AuthBoats.checkRegistered, Utils.checkJwt, Utils.isAcceptable.
  destruct (req_user req) as [sub|]; [|done]. run_monad.
  destruct (decide (sub ∈ users (store w))); [|done].
  by destruct (req_accepts_json req).
Qed.

Lemma put_boat_load_204 boat_id load_id req st :
  (run (Boats.put_boat_load boat_id load_id req) st).1 = no_content →
  assigned st (store (run (Boats.put_boat_load boat_id load_id req) st).2).
Proof.
  unfold Boats.put_boat_load, run, mbind, M_bind. rewrite find_both.
  destruct (parseInt boat_id) as [|b], (parseInt load_id) as [|l]; try done.
  simpl.
  destruct (boats st !! b) as [B|] eqn:HB, (loads st !! l) as [L|] eqn:HL; try done.
  simpl. unfold has_carrier.
  destruct (load_carrier L) as [c|] eqn:HC; try done.
  rewrite update_both by (simpl; eauto). simpl. intros _.
  by exists b, l, B, L, (boat_name B).
Qed.

Lemma auth_put_boat_load_204 boat_id load_id req st :
  (run (AuthBoats.put_boat_load boat_id load_id req) st).1 = no_content →
  assigned st (store (run (AuthBoats.put_boat_load boat_id load_id req) st).2).
Proof.
  unfold AuthBoats.put_boat_load, run. rewrite authenticated_run.
  destruct (req_user req) as [sub|]; [|done]. simpl.
  destruct (decide _); [|done]. destruct (req_accepts_json req); [|done].
  unfold mbind, M_bind. rewrite find_both.
  destruct (parseInt boat_id) as [|b], (parseInt load_id) as [|l]; try done.
  simpl.
  destruct (boats st !! b) as [B|] eqn:HB, (loads st !! l) as [L|] eqn:HL; try done.
  simpl. destruct (AuthBoats.not_owner B sub); [done|]. unfold has_carrier.
  destruct (load_carrier L) as [c|] eqn:HC; try done.
  rewrite update_both by (simpl; eauto). simpl. intros _.
  by exists b, l, B, L, JUndefined.
Qed.

Lemma delete_boat_load_204 boat_id load_id req st :
  (run (Boats.delete_boat_load boat_id load_id req) st).1 = no_content →
  unassigned st (store (run (Boats.delete_boat_load boat_id load_id req) st).2).
Proof.
  unfold Boats.delete_boat_load, run, mbind, M_bind. rewrite find_both.
  destruct (parseInt boat_id) as [|b], (parseInt load_id) as [|l]; try done.
  simpl.
  destruct (boats st !! b) as [B|] eqn:HB, (loads st !! l) as [L|] eqn:HL; try done.
  simpl.
  destruct (load_carrier L) as [c|] eqn:HC; try done.
  destruct (carrier_id c =? b) eqn:Hc; try done. simpl.
  rewrite update_both by (simpl; eauto). simpl. intros _.
  exists b, l, B, L, c. split_and!; try done. lia.
Qed.

Lemma auth_delete_boat_load_204 boat_id load_id req st :
  (run (AuthBoats.delete_boat_load boat_id load_id req) st).1 = no_content →
  unassigned st (store (run (AuthBoats.delete_boat_load boat_id load_id req) st).2).
Proof.
  unfold AuthBoats.delete_boat_load, run. rewrite authenticated_run.
  destruct (req_user req) as [sub|]; [|done]. simpl.
  destruct (decide _); [|done]. destruct (req_accepts_json req); [|done].
  unfold mbind, M_bind. rewrite find_both.
  destruct (parseInt boat_id) as [|b], (parseInt load_id) as [|l]; try done.
  simpl.
  destruct (boats st !! b) as [B|] eqn:HB, (loads st !! l) as [L|] eqn:HL; try done.
  simpl. destruct (AuthBoats.not_owner B sub); [done|].
  destruct (load_carrier L) as [c|] eqn:HC; try done.
  destruct (carrier_id c =? b) eqn:Hc; try done. simpl.
  rewrite update_both by (simpl; eauto). simpl. intros _.
  exists b, l, B, L, c. split_and!; try done. lia.
Qed.

Lemma fetched_stored (m : gmap Z Load) (ids : list Z) (st : Store) :
  loads st = m →
  forallb (λ e, is_stored LOADS st e.1)
          (Boats.clear_carriers (omap (λ z, (λ a, (z, a)) <$> m !! z) ids)) = true.
Proof.
  intros <-. induction ids as [|z ids IH]; simpl; [done|].
  destruct (loads st !! z) as [L|] eqn:HL; simpl; [|done].
  unfold is_stored at 1. simpl. by rewrite HL.
Qed.

Lemma delete_and_update_run (b : Z) (ids : list Z) (st : Store) (cs : list DsCall) :
  let fetched := omap (λ z, (λ a, (z, a)) <$> loads st !! z) ids in
  Boats.delete_and_update b (Boats.clear_carriers fetched)
      {| store := st; calls := cs |} =
    (no_content,
     {| store := {| boats := base.delete b (boats st);
                    loads := cleared_loads ids (loads st);
                    users := users st |};
        calls := (cs ++ [DsDelete "Boats" b])
                   ++ [DsUpdate "Loads" (fst <$> Boats.clear_carriers fetched)] |}).
Proof.
  unfold Boats.delete_and_update. run_monad.
  by rewrite fetched_stored.
Qed.

Lemma registered_run (req : Request) (h : M Outcome) (w : World) :
  use (Utils.checkJwt req) (use (Boats.checkRegistered req) h) w =
    match req_user req with
    | None =>
        (Sent {| status := 401; body := ErrorBody "Missing/invalid authorization" |}, w)
    | Some sub =>
        let w' := {| store := store w; calls := calls w ++ [DsGetNamed "Users" sub] |} in
        if decide (sub ∈ users (store w)) then h w'
        else (Utils.handleClientError 403 "The associated user is not registered.", w')
    end.
Proof.
  unfold Boats.checkRegistered, Utils.checkJwt.
  destruct (req_user req) as [sub|]; [|done]. run_monad.
  by destruct (decide (sub ∈ users (store w))).
Qed.

Lemma find_one {A : Type} (K : Kind A) (id : JsNum) (w : World) :
  Datastore.findEntity K id w =
    (match id with
     | Int z => inr ((λ a, (z, a)) <$> table K (store w) !! z)
     | NaN => inl INVALID_ARGUMENT
     end,
     {| store := store w; calls := calls w ++ [DsGet (kind_name K) [id]] |}).
Proof. by destruct id. Qed.

Lemma get_all_run (ids : list Z) (w : World) :
  Datastore.get_all LOADS ids w =
    (inr (omap (λ z, (λ a, (z, a)) <$> loads (store w) !! z) ids),
     {| store := store w; calls := calls w ++ [DsGet "Loads" (Int <$> ids)] |}).
Proof. done. Qed.

Lemma delete_boat_204 boat_id req st :
  (run (Boats.delete_boat boat_id req) st).1 = no_content →
  boat_deleted st (store (run (Boats.delete_boat boat_id req) st).2).
Proof.
  unfold Boats.delete_boat, run. rewrite registered_run.
  destruct (req_user req) as [sub|]; [|done]. simpl.
  destruct (decide _); [|done].
  unfold mbind, M_bind. rewrite find_one.
  destruct (parseInt boat_id) as [|b]; [done|]. simpl.
  destruct (boats st !! b) as [B|] eqn:HB; [|done]. simpl.
  destruct (0 <? _) eqn:Hlen.
  - simpl.
    rewrite (delete_and_update_run b (ref_id <$> boat_loads B)). simpl.
    intros _. by exists b, B.
  - rewrite (delete_and_update_run b [] st). simpl.
    intros _. exists b, B. split; [done|].
    assert (boat_loads B = []) as Hnil
      by (destruct (boat_loads B); [done | apply Z.ltb_ge in Hlen; simpl in Hlen; lia]).
    by rewrite Hnil.
Qed.

Lemma auth_delete_boat_204 boat_id req st :
  (run (AuthBoats.delete_boat boat_id req) st).1 = no_content →
  boat_deleted st (store (run (AuthBoats.delete_boat boat_id req) st).2).
Proof.
  unfold AuthBoats.delete_boat, run. rewrite authenticated_run.
  destruct (req_user req) as [sub|]; [|done]. simpl.
  destruct (decide _); [|done]. destruct (req_accepts_json req); [|done].
  unfold mbind, M_bind. rewrite find_one.
  destruct (parseInt boat_id) as [|b]; [done|]. simpl.
  destruct (boats st !! b) as [B|] eqn:HB; [|done]. simpl.
  destruct (AuthBoats.not_owner B sub); [done|].
  destruct (0 <? _) eqn:Hlen.
  - simpl.
    rewrite (delete_and_update_run b (ref_id <$> boat_loads B)). simpl.
    intros _. by exists b, B.
  - rewrite (delete_and_update_run b [] st). simpl.
    intros _. exists b, B. split; [done|].
    assert (boat_loads B = []) as Hnil
      by (destruct (boat_loads B); [done | apply Z.ltb_ge in Hlen; simpl in Hlen; lia]).
    by rewrite Hnil.
Qed.

Lemma delete_then_update (l b : Z) (B' : Boat) (w : World) :
  is_Some (boats (store w) !! b) →
  Promise_all (Datastore.delete LOADS l) (Datastore.update BOATS [(b, B')]) w =
    (inr (tt, tt),
     {| store := {| boats := <[b := B']> (boats (store w));
                    loads := base.delete l (loads (store w));
                    users := users (store w) |};
        calls := (calls w ++ [DsDelete "Loads" l]) ++ [DsUpdate "Boats" [b]] |}).
Proof.
  intros [B HB]. run_monad. unfold is_stored. simpl. by rewrite HB.
Qed.

Lemma delete_load_204 keyless load_id req st :
  (run (Loads.delete_load keyless load_id req) st).1 = no_content →
  load_deleted st (store (run (Loads.delete_load keyless load_id req) st).2).
Proof.
  unfold Loads.delete_load, run, mbind, M_bind. rewrite find_one.
  destruct (parseInt load_id) as [|l]; [done|]. simpl.
  destruct (loads st !! l) as [L|] eqn:HL; [|done]. simpl.
  destruct (load_carrier L) as [c|] eqn:HC.
  - simpl.
    destruct (boats st !! carrier_id c) as [B|] eqn:HB; [|done]. simpl.
    rewrite delete_then_update by (simpl; eauto). simpl. intros _.
    exists l, L. rewrite HC. eauto.
  - simpl. intros _. exists l, L. by rewrite HC.
Qed.

Lemma auth_delete_load_204 load_id req st :
  (run (AuthLoads.delete_load load_id req) st).1 = no_content →
  load_deleted st (store (run (AuthLoads.delete_load load_id req) st).2).
Proof.
  unfold AuthLoads.delete_load, run, use, Utils.isAcceptable, mbind, M_bind, mret, M_ret.
  destruct (req_accepts_json req); [|done]. rewrite find_one.
  destruct (parseInt load_id) as [|l]; [done|]. simpl.
  destruct (loads st !! l) as [L|] eqn:HL; [|done]. simpl.
  destruct (load_carrier L) as [c|] eqn:HC.
  - simpl.
    destruct (boats st !! carrier_id c) as [B|] eqn:HB; [|done]. simpl.
    rewrite delete_then_update by (simpl; eauto). simpl. intros _.
    exists l, L. rewrite HC. eauto.
  - simpl. intros _. exists l, L. by rewrite HC.
Qed.

(** ** Each change of the store keeps the links *)

Lemma is_ref_true (l : Z) (r : LoadRef) : is_ref l r = true ↔ ref_id r = l.
Proof. unfold is_ref. apply Z.eqb_eq. Qed.

Lemma is_ref_false (l : Z) (r : LoadRef) : is_ref l r = false ↔ ref_id r ≠ l.
Proof. unfold is_ref. apply Z.eqb_neq. Qed.

Lemma lists_load_true (B : Boat) (l : Z) :
  lists_load B l = true ↔ ∃ r, r ∈ boat_loads B ∧ ref_id r = l.
Proof.
  unfold lists_load. rewrite existsb_exists. split.
  - intros (r & Hin & Hr). exists r. by rewrite list_elem_of_In, <- is_ref_true.
  - intros (r & Hin & Hr). exists r. by rewrite <- list_elem_of_In, is_ref_true.
Qed.

Lemma lists_load_elem (B : Boat) (l : Z) :
  lists_load B l = true ↔ l ∈ ref_id <$> boat_loads B.
Proof.
  rewrite lists_load_true, list_elem_of_fmap. split.
  - intros (r & Hr & <-). by exists r.
  - intros (r & -> & Hr). by exists r.
Qed.

Lemma remove_first_other_ids (ls : list LoadRef) (l : Z) (r : LoadRef) :
  NoDup (ref_id <$> ls) → r ∈ remove_first (is_ref l) ls → ref_id r ≠ l.
Proof.
  induction ls as [|x ls IH]; simpl; [by intros _ ?%elem_of_nil|].
  rewrite NoDup_cons. intros [Hx Hnd]. destruct (is_ref l x) eqn:Hl.
  - apply is_ref_true in Hl. intros Hin Heq. apply Hx. rewrite Hl, <- Heq.
    by apply list_elem_of_fmap_2.
  - rewrite elem_of_cons. intros [->|Hin]; [by apply is_ref_false|by apply IH].
Qed.

Lemma remove_first_NoDup (ls : list LoadRef) (l : Z) :
  NoDup (ref_id <$> ls) → NoDup (ref_id <$> remove_first (is_ref l) ls).
Proof.
  induction ls as [|x ls IH]; simpl; [done|].
  rewrite NoDup_cons. intros [Hx Hnd]. destruct (is_ref l x); [done|].
  simpl. apply NoDup_cons. split; [|by apply IH].
  intros (r & Hr & Hin)%list_elem_of_fmap. apply Hx. rewrite Hr.
  apply list_elem_of_fmap_2. by eapply elem_of_remove_first.
Qed.

Lemma cleared_loads_lookup (ids : list Z) (m : gmap Z Load) (k : Z) :
  cleared_loads ids m !! k =
    if decide (k ∈ ids) then (λ L, with_carrier L None) <$> m !! k else m !! k.
Proof.
  unfold cleared_loads. induction ids as [|z ids IH] using rev_ind; [done|].
  rewrite omap_app. unfold Boats.clear_carriers in *. rewrite fmap_app, foldl_app.
  assert (Hin : k ∈ (ids ++ [z])%list ↔ k ∈ ids ∨ k = z)
    by (by rewrite elem_of_app, list_elem_of_singleton).
  simpl. destruct (m !! z) as [L|] eqn:HL; simpl.
  - destruct (decide (k = z)) as [->|Hne].
    + rewrite lookup_insert_eq, HL. clear IH.
      destruct (decide (z ∈ (ids ++ [z])%list)); [done|tauto].
    + rewrite lookup_insert_ne by done. rewrite IH.
      destruct (decide (k ∈ ids)), (decide (k ∈ (ids ++ [z])%list)); tauto || done.
  - rewrite IH.
    destruct (decide (k ∈ ids)), (decide (k ∈ (ids ++ [z])%list)); try (tauto || done).
    assert (k = z) as -> by tauto. by rewrite HL.
Qed.

Lemma assigned_well_linked (st st' : Store) :
  well_linked st → assigned st st' → well_linked st'.
Proof.
  intros [[Hfw Hbw] Hnd] (b & l & B & L & name & HB & HL & HC & ->).
  assert (Hfresh : ∀ b0 B0 r, boats st !! b0 = Some B0 → r ∈ boat_loads B0 → ref_id r ≠ l).
  { intros b0 B0 r HB0 Hr Heq. destruct (Hbw b0 B0 r HB0 Hr) as (L0 & c & HL0 & Hc & _).
    rewrite Heq in HL0. congruence. }
  split; [split|].
  - intros l0 L0 c B0. simpl.
    destruct (decide (l0 = l)) as [->|Hl].
    + rewrite lookup_insert_eq. intros [= <-]. simpl. intros [= <-]. simpl.
      rewrite lookup_insert_eq. intros [= <-]. simpl.
      eexists. split; [apply elem_of_app; right; apply list_elem_of_singleton; done|done].
    + rewrite lookup_insert_ne by done. intros HL0 Hc.
      destruct (decide (carrier_id c = b)) as [Hb|Hb].
      * rewrite Hb, lookup_insert_eq. intros [= <-]. simpl.
        destruct (Hfw l0 L0 c B HL0 Hc) as (r & Hr & Hid); [by rewrite Hb|].
        exists r. split; [|done]. apply elem_of_app. by left.
      * rewrite lookup_insert_ne by done. intros HB0. by eapply Hfw.
  - intros b0 B0 r. simpl.
    destruct (decide (b0 = b)) as [->|Hb].
    + rewrite lookup_insert_eq. intros [= <-]. simpl.
      rewrite elem_of_app, list_elem_of_singleton. intros [Hr| ->].
      * rewrite lookup_insert_ne by (symmetry; by eapply Hfresh). by eapply Hbw.
      * simpl. rewrite lookup_insert_eq. by eexists _, _.
    + rewrite lookup_insert_ne by done. intros HB0 Hr.
      rewrite lookup_insert_ne by (symmetry; by eapply Hfresh). by eapply Hbw.
  - intros b0 B0. simpl.
    destruct (decide (b0 = b)) as [->|Hb].
    + rewrite lookup_insert_eq. intros [= <-]. simpl. rewrite fmap_app.
      apply NoDup_app. split_and!; [by eapply Hnd| |apply NoDup_singleton].
      simpl. intros x (r & Hx & Hr)%list_elem_of_fmap Hl%list_elem_of_singleton.
      subst x. by eapply Hfresh.
    + rewrite lookup_insert_ne by done. apply Hnd.
Qed.

Lemma splice_listed (B : Boat) (l : Z) :
  (∃ r, r ∈ boat_loads B ∧ ref_id r = l) →
  splice (findIndex (is_ref l) (boat_loads B)) 1 (boat_loads B) =
    remove_first (is_ref l) (boat_loads B).
Proof. intros H. apply splice_findIndex. by apply lists_load_true. Qed.

Lemma unassigned_well_linked (st st' : Store) :
  well_linked st → unassigned st st' → well_linked st'.
Proof.
  intros [[Hfw Hbw] Hnd] (b & l & B & L & c & HB & HL & HC & Hc & ->).
  unfold spliced.
  rewrite splice_listed by (eapply Hfw; [done..|by rewrite Hc]).
  pose proof (Hnd b B HB) as HndB.
  split; [split|].
  - intros l0 L0 c0 B0. simpl.
    destruct (decide (l0 = l)) as [->|Hl].
    { rewrite lookup_insert_eq. by intros [= <-]. }
    rewrite lookup_insert_ne by done. intros HL0 Hc0.
    destruct (decide (carrier_id c0 = b)) as [Hb|Hb].
    + rewrite Hb, lookup_insert_eq. intros [= <-]. simpl.
      destruct (Hfw l0 L0 c0 B HL0 Hc0) as (r & Hr & Hid); [by rewrite Hb|].
      exists r. split; [|done]. apply elem_of_remove_first_other; [done|].
      apply is_ref_false. congruence.
    + rewrite lookup_insert_ne by done. intros HB0. by eapply Hfw.
  - intros b0 B0 r. simpl.
    destruct (decide (b0 = b)) as [->|Hb].
    + rewrite lookup_insert_eq. intros [= <-]. simpl. intros Hr.
      rewrite lookup_insert_ne
        by (symmetry; by eapply remove_first_other_ids).
      eapply Hbw; [done|]. by eapply elem_of_remove_first.
    + rewrite lookup_insert_ne by done. intros HB0 Hr.
      destruct (Hbw b0 B0 r HB0 Hr) as (L0 & c0 & HL0 & HC0 & Hc0).
      rewrite lookup_insert_ne; [by eauto|].
      intros Heq. rewrite <- Heq in HL0. congruence.
  - intros b0 B0. simpl.
    destruct (decide (b0 = b)) as [->|Hb].
    + rewrite lookup_insert_eq. intros [= <-]. simpl. by apply remove_first_NoDup.
    + rewrite lookup_insert_ne by done. apply Hnd.
Qed.

Lemma boat_deleted_well_linked (st st' : Store) :
  well_linked st → boat_deleted st st' → well_linked st'.
Proof.
  intros [[Hfw Hbw] Hnd] (b & B & HB & ->).
  split; [split|].
  - intros l0 L0 c B0. simpl. rewrite cleared_loads_lookup.
    destruct (decide (l0 ∈ ref_id <$> boat_loads B)).
    { destruct (loads st !! l0); simpl; [|done]. by intros [= <-]. }
    intros HL0 Hc. destruct (decide (carrier_id c = b)) as [Hb|Hb].
    { by rewrite Hb, lookup_delete_eq. }
    rewrite lookup_delete_ne by done. intros HB0. by eapply Hfw.
  - intros b0 B0 r. simpl.
    destruct (decide (b0 = b)) as [->|Hb]; [by rewrite lookup_delete_eq|].
    rewrite lookup_delete_ne by done. intros HB0 Hr.
    destruct (Hbw b0 B0 r HB0 Hr) as (L0 & c0 & HL0 & HC0 & Hc0).
    rewrite cleared_loads_lookup.
    destruct (decide (ref_id r ∈ ref_id <$> boat_loads B)) as [Hin|Hin]; [|by eauto].
    apply list_elem_of_fmap in Hin as (r' & Hid & Hr').
    destruct (Hbw b B r' HB Hr') as (L1 & c1 & HL1 & HC1 & Hc1).
    rewrite <- Hid in HL1. congruence.
  - intros b0 B0. simpl.
    destruct (decide (b0 = b)) as [->|Hb]; [by rewrite lookup_delete_eq|].
    rewrite lookup_delete_ne by done. apply Hnd.
Qed.

Lemma load_deleted_well_linked (st st' : Store) :
  well_linked st → load_deleted st st' → well_linked st'.
Proof.
  intros [[Hfw Hbw] Hnd] (l & L & HL & Hst).
  assert (Hkept : ∀ b0 B0 r, boats st !! b0 = Some B0 → r ∈ boat_loads B0 →
                    (∀ c, load_carrier L = Some c → carrier_id c ≠ b0) →
                    ref_id r ≠ l).
  { intros b0 B0 r HB0 Hr Hne Heq.
    destruct (Hbw b0 B0 r HB0 Hr) as (L0 & c & HL0 & HC0 & Hc0).
    rewrite Heq in HL0. eapply (Hne c); congruence. }
  destruct (load_carrier L) as [c|] eqn:HC.
  - destruct Hst as (B & HB & ->).
    unfold spliced.
    rewrite splice_listed by (by eapply Hfw).
    pose proof (Hnd _ B HB) as HndB.
    split; [split|].
    + intros l0 L0 c0 B0. simpl.
      destruct (decide (l0 = l)) as [->|Hl]; [by rewrite lookup_delete_eq|].
      rewrite lookup_delete_ne by done. intros HL0 Hc0.
      destruct (decide (carrier_id c0 = carrier_id c)) as [Hb|Hb].
      * rewrite Hb, lookup_insert_eq. intros [= <-]. simpl.
        destruct (Hfw l0 L0 c0 B HL0 Hc0) as (r & Hr & Hid); [by rewrite Hb|].
        exists r. split; [|done]. apply elem_of_remove_first_other; [done|].
        apply is_ref_false. congruence.
      * rewrite lookup_insert_ne by done. intros HB0. by eapply Hfw.
    + intros b0 B0 r. simpl.
      destruct (decide (b0 = carrier_id c)) as [->|Hb].
      * rewrite lookup_insert_eq. intros [= <-]. simpl. intros Hr.
        rewrite lookup_delete_ne
          by (symmetry; by eapply remove_first_other_ids).
        eapply Hbw; [done|]. by eapply elem_of_remove_first.
      * rewrite lookup_insert_ne by done. intros HB0 Hr.
        rewrite lookup_delete_ne; [by eapply Hbw|].
        symmetry. eapply Hkept; [done..|]. intros c1 [= <-]. congruence.
    + intros b0 B0. simpl.
      destruct (decide (b0 = carrier_id c)) as [->|Hb].
      * rewrite lookup_insert_eq. intros [= <-]. simpl. by apply remove_first_NoDup.
      * rewrite lookup_insert_ne by done. apply Hnd.
  - subst st'. split; [split|].
    + intros l0 L0 c0 B0. simpl.
      destruct (decide (l0 = l)) as [->|Hl]; [by rewrite lookup_delete_eq|].
      rewrite lookup_delete_ne by done. apply Hfw.
    + intros b0 B0 r. simpl. intros HB0 Hr.
      rewrite lookup_delete_ne; [by eapply Hbw|].
      symmetry. by eapply Hkept.
    + intros b0 B0. simpl. apply Hnd.
Qed.

(** ** The checks decide the invariant *)

Lemma carried_by_true (st : Store) (b l : Z) :
  carried_by st b l = true ↔
  ∃ L c, loads st !! l = Some L ∧ load_carrier L = Some c ∧ carrier_id c = b.
Proof.
  unfold carried_by. split.
  - destruct (loads st !! l) as [L|]; [|done].
    destruct (load_carrier L) as [c|] eqn:HC; [|done].
    intros H%Z.eqb_eq. by exists L, c.
  - intros (L & c & -> & -> & <-). apply Z.eqb_refl.
Qed.

Lemma carriers_list_loadsb_true (st : Store) :
  carriers_list_loadsb st = true ↔ carriers_list_loads st.
Proof.
  unfold carriers_list_loadsb, carriers_list_loads. rewrite forallb_forall. split.
  - intros H l L c B HL HC HB. apply lists_load_true.
    specialize (H (l, L)). simpl in H. rewrite HC, HB in H. apply H.
    by apply list_elem_of_In, elem_of_map_to_list.
  - intros H [l L] HL%list_elem_of_In%elem_of_map_to_list. simpl.
    destruct (load_carrier L) as [c|] eqn:HC; [|done].
    destruct (boats st !! carrier_id c) as [B|] eqn:HB; [|done].
    apply lists_load_true. by eapply H.
Qed.

Lemma listed_loads_carriedb_true (st : Store) :
  listed_loads_carriedb st = true ↔ listed_loads_carried st.
Proof.
  unfold listed_loads_carriedb, listed_loads_carried. rewrite forallb_forall. split.
  - intros H b B r HB Hr. apply carried_by_true.
    specialize (H (b, B)). simpl in H. rewrite forallb_forall in H.
    apply H; [by apply list_elem_of_In, elem_of_map_to_list|by apply list_elem_of_In].
  - intros H [b B] HB%list_elem_of_In%elem_of_map_to_list. simpl.
    apply forallb_forall. intros r Hr%list_elem_of_In.
    apply carried_by_true. by eapply H.
Qed.

Lemma consistentb_true (st : Store) : consistentb st = true ↔ consistent st.
Proof.
  unfold consistentb, consistent.
  by rewrite andb_true_iff, carriers_list_loadsb_true, listed_loads_carriedb_true.
Qed.

Lemma no_duplicatesb_true (st : Store) : no_duplicatesb st = true ↔ no_duplicates st.
Proof.
  unfold no_duplicatesb, no_duplicates. rewrite forallb_forall. split.
  - intros H b B HB. specialize (H (b, B)). simpl in H.
    eapply bool_decide_eq_true_1, H. by apply list_elem_of_In, elem_of_map_to_list.
  - intros H [b B] HB%list_elem_of_In%elem_of_map_to_list. simpl.
    apply bool_decide_eq_true_2. by eapply H.
Qed.

(** ** Assign and unassign *)

Lemma authenticated_admitted (req : Request) (h : string → M Outcome)
    (st : Store) (cs : list DsCall) (sub : string) :
  admitted req st sub →
  AuthBoats.authenticated req h {| store := st; calls := cs |} =
    h sub {| store := st; calls := cs ++ [DsGetNamed "Users" sub] |}.
Proof.
  intros (Hu & Hin & Hacc). rewrite authenticated_run, Hu. simpl.
  by rewrite decide_True, Hacc.
Qed.

Section relationship.
Context (boat_id load_id : string) (b l : Z) (B : Boat) (L : Load).
Context (req : Request) (st : Store).
Hypothesis Hb : parseInt boat_id = Int b.
Hypothesis Hl : parseInt load_id = Int l.
Hypothesis HB : boats st !! b = Some B.
Hypothesis HL : loads st !! l = Some L.

Lemma put_boat_load_ok :
  load_carrier L = None →
  run (Boats.put_boat_load boat_id load_id req) st =
    (no_content,
     {| store := {| boats := <[b := appended l B]> (boats st);
                    loads := <[l := with_carrier L (Some {| carrier_id := b; carrier_name := boat_name B |})]> (loads st);
                    users := users st |};
        calls := [DsGet "Boats" [Int b]; DsGet "Loads" [Int l];
                  DsUpdate "Loads" [l]; DsUpdate "Boats" [b]] |}).
Proof.
  intros HC. unfold Boats.put_boat_load, run, mbind, M_bind.
  rewrite find_both, Hb, Hl. simpl. rewrite HB, HL. simpl.
  unfold has_carrier. rewrite HC.
  by rewrite update_both by (simpl; eauto).
Qed.

Lemma put_boat_load_refused (c : Carrier) :
  load_carrier L = Some c →
  run (Boats.put_boat_load boat_id load_id req) st =
    (Utils.handleClientError 403 Boats.LOAD_ALREADY_ASSIGNED,
     {| store := st; calls := [DsGet "Boats" [Int b]; DsGet "Loads" [Int l]] |}).
Proof.
  intros HC. unfold Boats.put_boat_load, run, mbind, M_bind.
  rewrite find_both, Hb, Hl. simpl. rewrite HB, HL. simpl.
  unfold has_carrier. by rewrite HC.
Qed.

Lemma delete_boat_load_ok (c : Carrier) :
  load_carrier L = Some c → carrier_id c = b →
  run (Boats.delete_boat_load boat_id load_id req) st =
    (no_content,
     {| store := {| boats := <[b := spliced l B]> (boats st);
                    loads := <[l := with_carrier L None]> (loads st);
                    users := users st |};
        calls := [DsGet "Boats" [Int b]; DsGet "Loads" [Int l];
                  DsUpdate "Loads" [l]; DsUpdate "Boats" [b]] |}).
Proof.
  intros HC Hc. unfold Boats.delete_boat_load, run, mbind, M_bind.
  rewrite find_both, Hb, Hl. simpl. rewrite HB, HL. simpl.
  rewrite HC, Hc, Z.eqb_refl. simpl.
  by rewrite update_both by (simpl; eauto).
Qed.

Context (sub : string).
Hypothesis Hreq : admitted req st sub.

Lemma auth_put_boat_load_ok :
  AuthBoats.not_owner B sub = false → load_carrier L = None →
  run (AuthBoats.put_boat_load boat_id load_id req) st =
    (no_content,
     {| store := {| boats := <[b := appended l B]> (boats st);
                    loads := <[l := with_carrier L (Some {| carrier_id := b; carrier_name := JUndefined |})]> (loads st);
                    users := users st |};
        calls := [DsGetNamed "Users" sub; DsGet "Boats" [Int b]; DsGet "Loads" [Int l];
                  DsUpdate "Loads" [l]; DsUpdate "Boats" [b]] |}).
Proof.
  intros Hown HC. unfold AuthBoats.put_boat_load, run.
  rewrite (authenticated_admitted _ _ _ _ sub) by done.
  unfold mbind, M_bind. rewrite find_both, Hb, Hl. simpl. rewrite HB, HL. simpl.
  rewrite Hown. unfold has_carrier. rewrite HC.
  by rewrite update_both by (simpl; eauto).
Qed.

Lemma auth_put_boat_load_refused (c : Carrier) :
  load_carrier L = Some c →
  run (AuthBoats.put_boat_load boat_id load_id req) st =
    (Utils.handleClientError 403
       (if AuthBoats.not_owner B sub then AuthBoats.NOT_OWNER
        else AuthBoats.LOAD_ALREADY_ASSIGNED),
     {| store := st;
        calls := [DsGetNamed "Users" sub; DsGet "Boats" [Int b]; DsGet "Loads" [Int l]] |}).
Proof.
  intros HC. unfold AuthBoats.put_boat_load, run.
  rewrite (authenticated_admitted _ _ _ _ sub) by done.
  unfold mbind, M_bind. rewrite find_both, Hb, Hl. simpl. rewrite HB, HL. simpl.
  destruct (AuthBoats.not_owner B sub); [done|].
  unfold has_carrier. by rewrite HC.
Qed.

Lemma auth_delete_boat_load_ok (c : Carrier) :
  AuthBoats.not_owner B sub = false →
  load_carrier L = Some c → carrier_id c = b →
  run (AuthBoats.delete_boat_load boat_id load_id req) st =
    (no_content,
     {| store := {| boats := <[b := spliced l B]> (boats st);
                    loads := <[l := with_carrier L None]> (loads st);
                    users := users st |};
        calls := [DsGetNamed "Users" sub; DsGet "Boats" [Int b]; DsGet "Loads" [Int l];
                  DsUpdate "Loads" [l]; DsUpdate "Boats" [b]] |}).
Proof.
  intros Hown HC Hc. unfold AuthBoats.delete_boat_load, run.
  rewrite (authenticated_admitted _ _ _ _ sub) by done.
  unfold mbind, M_bind. rewrite find_both, Hb, Hl. simpl. rewrite HB, HL. simpl.
  rewrite Hown, HC, Hc, Z.eqb_refl. simpl.
  by rewrite update_both by (simpl; eauto).
Qed.
End relationship.

Lemma existsb_is_ref_false (ls : list LoadRef) (l : Z) :
  (∀ r, r ∈ ls → ref_id r ≠ l) → existsb (is_ref l) ls = false.
Proof.
  intros H. apply not_true_iff_false. intros (r & Hr & Hid)%existsb_exists.
  apply (H r); [by apply list_elem_of_In|by apply is_ref_true].
Qed.

Lemma remove_first_last {A : Type} (p : A → bool) (ls : list A) (x : A) :
  existsb p ls = false → p x = true → remove_first p (ls ++ [x]) = ls.
Proof.
  intros Hls Hx. induction ls as [|y ls IH]; simpl in *; [by rewrite Hx|].
  apply orb_false_iff in Hls as [-> Hls]. by rewrite IH.
Qed.

Lemma splice_appended (ls : list LoadRef) (l : Z) :
  (∀ r, r ∈ ls → ref_id r ≠ l) →
  let ls' := (ls ++ [{| ref_id := l; ref_self := None |}])%list in
  splice (findIndex (is_ref l) ls') 1 ls' = ls.
Proof.
  intros H ls'. rewrite splice_findIndex.
  - apply remove_first_last; [by apply existsb_is_ref_false|by apply is_ref_true].
  - unfold ls'. rewrite existsb_app. simpl. unfold is_ref at 2. simpl.
    by rewrite Z.eqb_refl, orb_true_r.
Qed.

Lemma unlisted_when_free (st : Store) (b l : Z) (B : Boat) (L : Load) :
  consistent st → boats st !! b = Some B → loads st !! l = Some L →
  load_carrier L = None → ∀ r, r ∈ boat_loads B → ref_id r ≠ l.
Proof.
  intros [_ Hbw] HB HL HC r Hr Heq.
  destruct (Hbw b B r HB Hr) as (L0 & c & HL0 & Hc & _).
  rewrite Heq in HL0. congruence.
Qed.

(** C2.  When the boat and the load exist, the load has no carrier and the
    store is consistent, PUT and then DELETE on
    /boats/:boat_id/loads/:load_id are both answered 204 and give back the
    store they started from: the load's carrier is null again and the boat
    lists exactly what it listed.  On the authenticated router this is for
    a request admitted as the owner of the boat. *)
Theorem assign_then_unassign_restores
    (boat_id load_id : string) (b l : Z) (B : Boat) (L : Load)
    (req : Request) (st : Store) :
  parseInt boat_id = Int b → parseInt load_id = Int l →
  boats st !! b = Some B → loads st !! l = Some L →
  load_carrier L = None → consistent st →
  round_trip (Boats.put_boat_load boat_id load_id req)
             (Boats.delete_boat_load boat_id load_id req) st b l B ∧
  (∀ sub, admitted req st sub → AuthBoats.not_owner B sub = false →
     round_trip (AuthBoats.put_boat_load boat_id load_id req)
                (AuthBoats.delete_boat_load boat_id load_id req) st b l B).
Proof.
  intros Hb Hl HB HL HC Hst.
  pose proof (unlisted_when_free st b l B L Hst HB HL HC) as Hfree.
  assert (HB2 : spliced l (appended l B) = B).
  { unfold spliced, appended. simpl. rewrite splice_appended by done. by destruct B. }
  assert (HL2 : ∀ c, with_carrier (with_carrier L c) None = L).
  { intros c. destruct L. simpl in *. by subst. }
  split; [|intros sub Hreq Hown]; unfold round_trip.
  - rewrite (put_boat_load_ok boat_id load_id b l B L) by done. simpl.
    erewrite (delete_boat_load_ok boat_id load_id b l (appended l B));
      [|done|done|apply lookup_insert_eq|apply lookup_insert_eq|done|done].
    simpl. rewrite HB2, HL2.
    rewrite !insert_insert_eq, !lookup_insert_eq.
    split_and!; try done; eauto.
    rewrite !insert_id by done. by destruct st.
  - rewrite (auth_put_boat_load_ok boat_id load_id b l B L _ _ Hb Hl HB HL sub) by done.
    simpl.
    erewrite (auth_delete_boat_load_ok boat_id load_id b l (appended l B));
      [|done|done|apply lookup_insert_eq|apply lookup_insert_eq|done|done|done|done].
    simpl. rewrite HB2, HL2.
    rewrite !insert_insert_eq, !lookup_insert_eq.
    split_and!; try done; eauto.
    rewrite !insert_id by done. by destruct st.
Qed.

Lemma assign_then_unassign_restores_witness :
  round_trip (Boats.put_boat_load "1" "8" (request bob))
             (Boats.delete_boat_load "1" "8" (request bob)) harbour 1 8 (orca [7]).
Proof.
  apply (assign_then_unassign_restores "1" "8" 1 8 (orca [7]) (lego None)
           (request bob) harbour); try reflexivity.
  apply consistentb_true. vm_compute. reflexivity.
Defined.

(** C3 (as amended).  Assigning a load that has a carrier is answered 403
    "The load is already assigned" by the router of boats.js, whoever
    asks, and by the authenticated router when the admitted subject owns
    the boat; there a subject that does not own it is told so instead.
    The authenticated router leaves the store as it was for every
    request, and neither router makes a call that writes. *)
Theorem assigned_load_is_refused
    (boat_id load_id : string) (b l : Z) (B : Boat) (L : Load) (c : Carrier)
    (req : Request) (st : Store) :
  parseInt boat_id = Int b → parseInt load_id = Int l →
  boats st !! b = Some B → loads st !! l = Some L → load_carrier L = Some c →
  run (Boats.put_boat_load boat_id load_id req) st =
    (LOAD_ALREADY_ASSIGNED_403,
     {| store := st; calls := [DsGet "Boats" [Int b]; DsGet "Loads" [Int l]] |}) ∧
  (∀ sub, admitted req st sub →
     run (AuthBoats.put_boat_load boat_id load_id req) st =
       (if AuthBoats.not_owner B sub then NOT_OWNER_403
        else LOAD_ALREADY_ASSIGNED_403,
        {| store := st;
           calls := [DsGetNamed "Users" sub; DsGet "Boats" [Int b]; DsGet "Loads" [Int l]] |})) ∧
  store (run (AuthBoats.put_boat_load boat_id load_id req) st).2 = st.
Proof.
  intros Hb Hl HB HL HC. split_and!.
  - by apply (put_boat_load_refused boat_id load_id b l B L req st Hb Hl HB HL c).
  - intros sub Hreq.
    rewrite (auth_put_boat_load_refused boat_id load_id b l B L req st Hb Hl HB HL sub Hreq c HC).
    by destruct (AuthBoats.not_owner B sub).
  - unfold AuthBoats.put_boat_load, run. rewrite authenticated_run.
    destruct (req_user req) as [sub|]; [|done]. simpl.
    destruct (decide _); [|done]. destruct (req_accepts_json req); [|done].
    unfold mbind, M_bind. rewrite find_both, Hb, Hl. simpl. rewrite HB, HL. simpl.
    destruct (AuthBoats.not_owner B sub); [done|]. unfold has_carrier. by rewrite HC.
Qed.

Lemma assigned_load_is_refused_witness :
  run (Boats.put_boat_load "1" "7" (request bob)) harbour =
    (LOAD_ALREADY_ASSIGNED_403,
     {| store := harbour; calls := [DsGet "Boats" [Int 1]; DsGet "Loads" [Int 7]] |}).
Proof.
  eapply (assigned_load_is_refused "1" "7" 1 7 (orca [7]) (lego (Some 1)));
    reflexivity.
Defined.

(** C3, counterexample.  Bob is registered and authenticated, boat 1 and
    load 7 exist and load 7 has a carrier, yet the authenticated router
    does not answer "The load is already assigned": boat 1 is Ann's. *)
Lemma non_owner_is_told_not_owner :
  admitted (request bob) harbour bob ∧
  boats harbour !! 1 = Some (orca [7]) ∧
  loads harbour !! 7 = Some (lego (Some 1)) ∧
  (run (AuthBoats.put_boat_load "1" "7" (request bob)) harbour).1 = NOT_OWNER_403 ∧
  (run (AuthBoats.put_boat_load "1" "7" (request bob)) harbour).1
    ≠ LOAD_ALREADY_ASSIGNED_403.
Proof.
  split_and!; [split_and!; [done|by vm_compute|done]|done|done|by vm_compute|].
  vm_compute. discriminate.
Qed.





(** ** Deleting a boat *)

Lemma delete_boat_deleted (op : Operation) (boat_id : string) (b : Z) (B : Boat)
    (req : Request) (st : Store) :
  op = DeleteBoat boat_id ∨ op = AuthDeleteBoat boat_id →
  parseInt boat_id = Int b → boats st !! b = Some B →
  (run (handle op req) st).1 = no_content →
  ∃ sub, req_user req = Some sub ∧
    (run (handle op req) st).2 =
      {| store := {| boats := delete b (boats st);
                     loads := cleared_loads (ref_id <$> boat_loads B) (loads st);
                     users := users st |};
         calls := delete_boat_calls sub b B st |}.
Proof.
  intros Hop Hb HB. unfold delete_boat_calls.
  destruct Hop as [-> | ->]; simpl.
  - unfold Boats.delete_boat, run. rewrite registered_run.
    destruct (req_user req) as [sub|]; [|done]. simpl.
    destruct (decide _); [|done].
    unfold mbind, M_bind. rewrite find_one, Hb. simpl. rewrite HB. simpl.
    destruct (0 <? _) eqn:Hlen.
    + simpl. rewrite (delete_and_update_run b (ref_id <$> boat_loads B)). simpl.
      intros _. by exists sub.
    + rewrite (delete_and_update_run b [] st). simpl. intros _. exists sub.
      assert (boat_loads B = []) as Hnil
        by (destruct (boat_loads B); [done | apply Z.ltb_ge in Hlen; simpl in Hlen; lia]).
      by rewrite Hnil.
  - unfold AuthBoats.delete_boat, run. rewrite authenticated_run.
    destruct (req_user req) as [sub|]; [|done]. simpl.
    destruct (decide _); [|done]. destruct (req_accepts_json req); [|done].
    unfold mbind, M_bind. rewrite find_one, Hb. simpl. rewrite HB. simpl.
    destruct (AuthBoats.not_owner B sub); [done|].
    destruct (0 <? _) eqn:Hlen.
    + simpl. rewrite (delete_and_update_run b (ref_id <$> boat_loads B)). simpl.
      intros _. by exists sub.
    + rewrite (delete_and_update_run b [] st). simpl. intros _. exists sub.
      assert (boat_loads B = []) as Hnil
        by (destruct (boat_loads B); [done | apply Z.ltb_ge in Hlen; simpl in Hlen; lia]).
      by rewrite Hnil.
Qed.

Lemma delete_boat_run (op : Operation) (boat_id : string) (b : Z) (B : Boat)
    (sub : string) (req : Request) (st : Store) :
  (op = DeleteBoat boat_id ∧ req_user req = Some sub ∧ sub ∈ users st) ∨
  (op = AuthDeleteBoat boat_id ∧ admitted req st sub ∧ AuthBoats.not_owner B sub = false) →
  parseInt boat_id = Int b → boats st !! b = Some B →
  run (handle op req) st =
    (no_content,
     {| store := {| boats := delete b (boats st);
                    loads := cleared_loads (ref_id <$> boat_loads B) (loads st);
                    users := users st |};
        calls := delete_boat_calls sub b B st |}).
Proof.
  intros Hop Hb HB. unfold delete_boat_calls.
  assert (Hnil : (0 <? Z.of_nat (length (ref_id <$> boat_loads B))) = false →
                 boat_loads B = []).
  { intros Hlen. destruct (boat_loads B); [done|].
    apply Z.ltb_ge in Hlen. simpl in Hlen. lia. }
  destruct Hop as [(-> & Hu & Hin) | (-> & (Hu & Hin & Hj) & Hown)]; simpl.
  - unfold Boats.delete_boat, run. rewrite registered_run, Hu. simpl.
    rewrite decide_True by done.
    unfold mbind, M_bind. rewrite find_one, Hb. simpl. rewrite HB. simpl.
    destruct (0 <? _) eqn:Hlen.
    + simpl. by rewrite (delete_and_update_run b (ref_id <$> boat_loads B)).
    + rewrite (delete_and_update_run b [] st). simpl. by rewrite (Hnil eq_refl).
  - unfold AuthBoats.delete_boat, run. rewrite authenticated_run, Hu. simpl.
    rewrite decide_True by done. rewrite Hj.
    unfold mbind, M_bind. rewrite find_one, Hb. simpl. rewrite HB. simpl. rewrite Hown.
    destruct (0 <? _) eqn:Hlen.
    + simpl. by rewrite (delete_and_update_run b (ref_id <$> boat_loads B)).
    + rewrite (delete_and_update_run b [] st). simpl. by rewrite (Hnil eq_refl).
Qed.

(** C4 (as amended).  DELETE /boats/:boat_id of a stored boat, by a
    registered requester on the first boats router and by the boat's
    owner, admitted by the middlewares, on the authenticated router, is
    answered 204.  It leaves the boat absent and every other boat as it
    was, every stored load that [boat.loads] references with a null
    carrier, and every other load as it was.  When [boat.loads] is empty
    no load is fetched and the only change to the store is that the boat
    is gone; [datastore.update] is not skipped: it is called, with no
    entity at all. *)
Theorem delete_boat_clears_carriers
    (op : Operation) (boat_id : string) (b : Z) (B : Boat) (sub : string)
    (req : Request) (st : Store) :
  (op = DeleteBoat boat_id ∧ req_user req = Some sub ∧ sub ∈ users st) ∨
  (op = AuthDeleteBoat boat_id ∧ admitted req st sub ∧ AuthBoats.not_owner B sub = false) →
  parseInt boat_id = Int b → boats st !! b = Some B →
  let r := run (handle op req) st in
  r.1 = no_content ∧
  boats (store r.2) !! b = None ∧
  (∀ b', b' ≠ b → boats (store r.2) !! b' = boats st !! b') ∧
  (∀ k L, lists_load B k = true → loads st !! k = Some L →
          loads (store r.2) !! k = Some (with_carrier L None)) ∧
  (∀ k L', lists_load B k = true → loads (store r.2) !! k = Some L' →
           load_carrier L' = None) ∧
  (∀ k, lists_load B k = false → loads (store r.2) !! k = loads st !! k) ∧
  (boat_loads B = [] →
     store r.2 = {| boats := delete b (boats st); loads := loads st; users := users st |} ∧
     calls r.2 = [DsGetNamed "Users" sub; DsGet "Boats" [Int b];
                  DsDelete "Boats" b; DsUpdate "Loads" []]).
Proof.
  intros Hop Hb HB r. subst r.
  rewrite (delete_boat_run op boat_id b B sub req st Hop Hb HB). simpl. split_and!.
  - done.
  - apply lookup_delete_eq.
  - intros b' Hne. by apply lookup_delete_ne.
  - intros k L Hk%lists_load_elem HL. rewrite cleared_loads_lookup, HL.
    by rewrite decide_True.
  - intros k L' Hk%lists_load_elem. rewrite cleared_loads_lookup.
    rewrite decide_True by done.
    destruct (loads st !! k); simpl; [|done]. by intros [= <-].
  - intros k Hk. rewrite cleared_loads_lookup. rewrite decide_False; [done|].
    intros Hin%lists_load_elem. congruence.
  - intros Hnil. unfold delete_boat_calls. rewrite Hnil. simpl. done.
Qed.

Lemma delete_boat_clears_carriers_witness :
  ((run (handle (DeleteBoat "1") (request bob)) harbour).1 = no_content ∧
   boats (store (run (handle (DeleteBoat "1") (request bob)) harbour).2) !! 1 = None) ∧
  ((run (handle (AuthDeleteBoat "1") (request ann)) harbour).1 = no_content ∧
   loads (store (run (handle (AuthDeleteBoat "1") (request ann)) harbour).2) !! 7
     = Some (with_carrier (lego (Some 1)) None)).
Proof.
  split.
  - pose proof (delete_boat_clears_carriers (DeleteBoat "1") "1" 1 (orca [7]) bob
                  (request bob) harbour) as H.
    destruct H as (H1 & H2 & _).
    + left. split_and!; [reflexivity|reflexivity|by vm_compute].
    + reflexivity.
    + reflexivity.
    + split; [exact H1|exact H2].
  - pose proof (delete_boat_clears_carriers (AuthDeleteBoat "1") "1" 1 (orca [7]) ann
                  (request ann) harbour) as H.
    destruct H as (H1 & _ & _ & H4 & _).
    + right. unfold admitted. split_and!; try reflexivity.
    + reflexivity.
    + reflexivity.
    + split; [exact H1|]. apply H4; reflexivity.
Defined.

(** C4, counterexample.  Boat 2 of [moored] has no loads.  On both boats
    routers its DELETE is answered 204 and fetches no load, and the
    update of loads is not skipped: [datastore.update] is the last call,
    with an empty list. *)
Lemma delete_of_an_empty_boat_still_updates :
  boat_loads <$> boats moored !! 2 = Some [] ∧
  run (handle (DeleteBoat "2") (request ann)) moored =
    (no_content,
     {| store := {| boats := ∅; loads := loads moored; users := users moored |};
        calls := [DsGetNamed "Users" ann; DsGet "Boats" [Int 2];
                  DsDelete "Boats" 2; DsUpdate "Loads" []] |}) ∧
  run (handle (AuthDeleteBoat "2") (request ann)) moored =
    (no_content,
     {| store := {| boats := ∅; loads := loads moored; users := users moored |};
        calls := [DsGetNamed "Users" ann; DsGet "Boats" [Int 2];
                  DsDelete "Boats" 2; DsUpdate "Loads" []] |}) ∧
  is_write (DsUpdate "Loads" []) = true.
Proof. split_and!; by vm_compute. Qed.

(** ** Deleting a load *)

Lemma remove_first_split {A : Type} (p : A → bool) (ls : list A) :
  existsb p ls = true →
  ∃ pre x post, ls = (pre ++ x :: post)%list ∧ p x = true ∧
                (∀ y, y ∈ pre → p y = false) ∧
                remove_first p ls = (pre ++ post)%list.
Proof.
  induction ls as [|y ls IH]; simpl; [done|].
  destruct (p y) eqn:Hy; simpl.
  - intros _. exists [], y, ls. split_and!; try done. by intros ? ?%elem_of_nil.
  - intros (pre & x & post & -> & Hx & Hpre & Hrm)%IH.
    exists (y :: pre), x, post. split_and!; try done.
    + intros z [->|Hz]%elem_of_cons; [done|by apply Hpre].
    + simpl. by rewrite Hrm.
Qed.

(** C5 (as amended).  DELETE /loads/:load_id on a load whose carrier is a
    stored boat that lists the load removes the first entry for the load
    from that boat's [loads], keeps every other entry in place, writes the
    boat, deletes the load and answers 204.  On a load without carrier
    only the load is deleted and no boat is read or written; the
    authenticated router answers 204, the first router as its
    [datastore.update({})] call turns out. *)
Theorem delete_load_removes_its_entry
    (keyless : KeylessUpdate) (load_id : string) (l : Z) (L : Load)
    (req : Request) (st : Store) :
  parseInt load_id = Int l → loads st !! l = Some L →
  req_accepts_json req = true →
  match load_carrier L with
  | Some c =>
      ∀ B, boats st !! carrier_id c = Some B → lists_load B l = true →
        let kept := remove_first (is_ref l) (boat_loads B) in
        let w := {| store := {| boats := <[carrier_id c := with_loads B kept]> (boats st);
                                loads := delete l (loads st);
                                users := users st |};
                    calls := [DsGet "Loads" [Int l]; DsGet "Boats" [Int (carrier_id c)];
                              DsDelete "Loads" l; DsUpdate "Boats" [carrier_id c]] |} in
        run (Loads.delete_load keyless load_id req) st = (no_content, w) ∧
        run (AuthLoads.delete_load load_id req) st = (no_content, w) ∧
        ∃ pre r post,
          boat_loads B = (pre ++ r :: post)%list ∧ ref_id r = l ∧
          (∀ x, x ∈ pre → ref_id x ≠ l) ∧ kept = (pre ++ post)%list
  | None =>
      let after := {| boats := boats st; loads := delete l (loads st);
                      users := users st |} in
      run (Loads.delete_load keyless load_id req) st =
        (keyless_outcome keyless,
         {| store := after;
            calls := [DsGet "Loads" [Int l]; DsDelete "Loads" l; DsUpdateKeyless] |}) ∧
      run (AuthLoads.delete_load load_id req) st =
        (no_content,
         {| store := after; calls := [DsGet "Loads" [Int l]; DsDelete "Loads" l] |})
  end.
Proof.
  intros Hl HL Hacc. destruct (load_carrier L) as [c|] eqn:HC.
  - intros B HB Hlisted kept w. unfold lists_load in Hlisted.
    subst w kept. rewrite <- (splice_findIndex _ _ Hlisted). split_and!.
    + unfold Loads.delete_load, run, mbind, M_bind. rewrite find_one, Hl. simpl.
      rewrite HL. simpl. rewrite HC. simpl. rewrite HB. simpl.
      by rewrite delete_then_update by (simpl; eauto).
    + unfold AuthLoads.delete_load, run, use, Utils.isAcceptable, mbind, M_bind, mret, M_ret.
      rewrite Hacc, find_one, Hl. simpl.
      rewrite HL. simpl. rewrite HC. simpl. rewrite HB. simpl.
      by rewrite delete_then_update by (simpl; eauto).
    + destruct (remove_first_split _ _ Hlisted)
        as (pre & r & post & Hls & Hr & Hpre & Hrm).
      exists pre, r, post. rewrite (splice_findIndex _ _ Hlisted).
      split_and!; [done|by apply is_ref_true| |done].
      intros x Hx. by apply is_ref_false, Hpre.
  - split.
    + unfold Loads.delete_load, run, mbind, M_bind. rewrite find_one, Hl. simpl.
      rewrite HL. simpl. rewrite HC. by destruct keyless.
    + unfold AuthLoads.delete_load, run, use, Utils.isAcceptable, mbind, M_bind, mret, M_ret.
      rewrite Hacc, find_one, Hl. simpl.
      rewrite HL. simpl. by rewrite HC.
Qed.

Lemma delete_load_removes_its_entry_witness :
  run (AuthLoads.delete_load "7" (request ann)) harbour =
    (no_content,
     {| store := {| boats := <[1 := orca []]> (boats harbour);
                    loads := delete 7 (loads harbour);
                    users := users harbour |};
        calls := [DsGet "Loads" [Int 7]; DsGet "Boats" [Int 1];
                  DsDelete "Loads" 7; DsUpdate "Boats" [1]] |}) ∧
  run (AuthLoads.delete_load "8" (request ann)) harbour =
    (no_content,
     {| store := {| boats := boats harbour; loads := delete 8 (loads harbour);
                    users := users harbour |};
        calls := [DsGet "Loads" [Int 8]; DsDelete "Loads" 8] |}).
Proof.
  split.
  - apply (delete_load_removes_its_entry Resolves "7" 7 (lego (Some 1)) (request ann)
             harbour eq_refl eq_refl eq_refl (orca [7])); reflexivity.
  - apply (delete_load_removes_its_entry Resolves "8" 8 (lego None) (request ann)
             harbour); reflexivity.
Defined.

(** C5, counterexample.  In [stray] load 7 names boat 1 as its carrier but
    boat 1 lists only load 9.  Deleting load 7 is answered 204 and removes
    the entry of load 9 from the boat. *)
Lemma delete_load_removes_unrelated_entry :
  loads stray !! 7 = Some (lego (Some 1)) ∧
  boats stray !! 1 = Some (orca [9]) ∧
  lists_load (orca [9]) 7 = false ∧
  (run (Loads.delete_load Resolves "7" (request ann)) stray).1 = no_content ∧
  boats (store (run (Loads.delete_load Resolves "7" (request ann)) stray).2) !! 1
    = Some (orca []) ∧
  (run (AuthLoads.delete_load "7" (request ann)) stray).1 = no_content ∧
  boats (store (run (AuthLoads.delete_load "7" (request ann)) stray).2) !! 1
    = Some (orca []).
Proof. split_and!; reflexivity. Qed.

(** ** PUT and PATCH *)

Lemma update_alone {A : Type} (K : Kind A) (z : Z) (a : A) (st : Store) (cs : list DsCall) :
  is_Some (table K st !! z) →
  Datastore.update K [(z, a)] {| store := st; calls := cs |} =
    (inr tt, {| store := set_table K (<[z := a]> (table K st)) st;
                calls := cs ++ [DsUpdate (kind_name K) [z]] |}).
Proof. intros H. by rewrite update_one. Qed.

Lemma boat_store_and_answer (b : Z) (updated : Boat) (req : Request)
    (st : Store) (cs : list DsCall) :
  is_Some (boats st !! b) →
  (AuthBoats.store_and_answer b updated req {| store := st; calls := cs |}).2 =
    {| store := {| boats := <[b := updated]> (boats st); loads := loads st;
                   users := users st |};
       calls := cs ++ [DsUpdate "Boats" [b]] |}.
Proof.
  intros H. unfold AuthBoats.store_and_answer, mbind, M_bind.
  by rewrite (update_alone BOATS).
Qed.

Lemma load_store_and_answer (l : Z) (updated : Load) (req : Request)
    (st : Store) (cs : list DsCall) :
  is_Some (loads st !! l) →
  (AuthLoads.store_and_answer l updated req {| store := st; calls := cs |}).2 =
    {| store := {| boats := boats st; loads := <[l := updated]> (loads st);
                   users := users st |};
       calls := cs ++ [DsUpdate "Loads" [l]] |}.
Proof.
  intros H. unfold AuthLoads.store_and_answer, mbind, M_bind.
  by rewrite (update_alone LOADS).
Qed.



Lemma patch_with_date_text_is_unanswered :
  (run (AuthLoads.patch_load "7" edit) harbour).1 = Unanswered.
Proof. reflexivity. Qed.

(** ** Representations *)

(** C8 (as amended).  [boatRepr] and [Utils.loadRepr] make no datastore call.
    In a list view [boatRepr] leaves the boat as it was and the
    representation has no loads.  In a singleton view it writes the
    [self] link into every entry of the boat's own [loads] array, which is
    also the array of the representation, and calling it again on the
    boat it left gives the same result.  [Utils.loadRepr] returns the
    representation of every load whose [creation_date] is a [Date]. *)
Theorem representations_are_computed_from_the_entity
    (id : Z) (boat : Boat) (load : Load) (baseUrl : string) (d : JsVal) :
  load_creation_date load = JDate d →
  let linked := with_loads boat (set_self baseUrl <$> boat_loads boat) in
  (* list views *)
  (Boats.boatRepr id boat baseUrl false).2 = boat ∧
  (AuthBoats.boatRepr id boat baseUrl false).2 = boat ∧
  br_loads (Boats.boatRepr id boat baseUrl false).1 = None ∧
  br_loads (AuthBoats.boatRepr id boat baseUrl false).1 = None ∧
  (* singleton views *)
  (Boats.boatRepr id boat baseUrl true).2 = linked ∧
  (AuthBoats.boatRepr id boat baseUrl true).2 = linked ∧
  br_loads (Boats.boatRepr id boat baseUrl true).1 = Some (boat_loads linked) ∧
  br_loads (AuthBoats.boatRepr id boat baseUrl true).1 = Some (boat_loads linked) ∧
  (* a second call, on the boat the first one left *)
  Boats.boatRepr id linked baseUrl true = Boats.boatRepr id boat baseUrl true ∧
  AuthBoats.boatRepr id linked baseUrl true = AuthBoats.boatRepr id boat baseUrl true ∧
  (* loads *)
  Utils.loadRepr id load baseUrl =
    Some {| lr_id := id;
            lr_volume := load_volume load;
            lr_carrier :=
              (λ c, {| cr_id := carrier_id c; cr_name := carrier_name c;
                       cr_self := baseUrl +:+ "/boats/" +:+ show (carrier_id c) |})
                <$> load_carrier load;
            lr_content := load_content load;
            lr_creation_date := LocaleDateString d;
            lr_self := baseUrl +:+ "/loads/" +:+ show id |}.
Proof.
  intros Hd linked.
  assert (Hidem : set_self baseUrl <$> (set_self baseUrl <$> boat_loads boat)
                  = set_self baseUrl <$> boat_loads boat).
  { rewrite <- list_fmap_compose. by apply list_fmap_ext. }
  split_and!; try done.
  - unfold Boats.boatRepr. simpl. by rewrite Hidem.
  - unfold AuthBoats.boatRepr. simpl. by rewrite Hidem.
  - unfold Utils.loadRepr. rewrite Hd. by destruct (load_carrier load).
Qed.

Lemma representations_are_computed_from_the_entity_witness :
  Utils.loadRepr 7 (lego (Some 1)) "https://api.example" =
    Some {| lr_id := 7; lr_volume := JNum 5;
            lr_carrier := Some {| cr_id := 1; cr_name := JStr "Orca";
                                  cr_self := "https://api.example/boats/1" |};
            lr_content := JStr "LEGO Blocks";
            lr_creation_date := LocaleDateString (JStr "10/18/2020");
            lr_self := "https://api.example/loads/7" |}.
Proof.
  apply (representations_are_computed_from_the_entity 7 (orca [7]) (lego (Some 1))
           "https://api.example" (JStr "10/18/2020")).
  reflexivity.
Defined.

(** C8, counterexample.  After a singleton [boatRepr] the boat is not the
    boat that was passed in: its entry for load 7 now has a [self] link.
    And the load that PATCH /loads/7 stores from a body with a
    [creation_date] has a string there, on which [Utils.loadRepr] throws. *)
Lemma boatRepr_writes_self_links :
  (Boats.boatRepr 1 (orca [7]) "https://api.example" true).2 ≠ orca [7] ∧
  boat_loads (AuthBoats.boatRepr 1 (orca [7]) "https://api.example" true).2
    = [{| ref_id := 7; ref_self := Some "https://api.example/loads/7" |}] ∧
  ∃ L, loads (store (run (AuthLoads.patch_load "7" edit) harbour).2) !! 7 = Some L ∧
       Utils.loadRepr 7 L "https://api.example" = None.
Proof.
  split_and!; [discriminate|reflexivity|].
  eexists. split; reflexivity.
Qed.

(** ** Validation of new boats and loads *)

(** C10, at the failing input.  POST /loads on the first loads router
    with [creation_date: 0]: the property is falsy, but [getLoadProps] has
    already wrapped it in a [Date], so [isBadRequest] is false, the load is
    inserted and the answer is 201.  The authenticated loads router
    answers the same request 400. *)
Theorem first_loads_router_accepts_falsy_creation_date :
  truthy (prop (req_body dated) "creation_date") = false ∧
  Loads.isBadRequest (Loads.getLoadProps dated) = false ∧
  status_of (run (Loads.post 9 dated) harbour).1 = Some 201 ∧
  loads (store (run (Loads.post 9 dated) harbour).2) !! 9 =
    Some {| load_volume := JNum 5; load_content := JStr "LEGO Blocks";
            load_creation_date := JDate (JNum 0); load_carrier := None |} ∧
  run (AuthLoads.post 9 dated) harbour =
    (Utils.handleClientError 400 AuthLoads.BAD_REQUEST, {| store := harbour; calls := [] |}).
Proof. split_and!; reflexivity. Qed.

Lemma falsy_and (a b c : JsVal) :
  truthy (js_and (js_and a b) c) = truthy a && truthy b && truthy c.
Proof. unfold js_and. destruct (truthy a) eqn:Ha; simpl; [|by rewrite Ha]. by destruct (truthy b) eqn:Hb; simpl; [|rewrite Hb]. Qed.

Lemma boats_isBadRequest_falsy (props : BoatProps) :
  Boats.isBadRequest props = true ↔
  truthy (bp_name props) = false ∨ truthy (bp_type props) = false
  ∨ truthy (bp_length props) = false.
Proof.
  unfold Boats.isBadRequest. rewrite falsy_and.
  destruct (truthy (bp_name props)), (truthy (bp_type props)),
    (truthy (bp_length props)); simpl; intuition congruence.
Qed.

Lemma first_loads_isBadRequest (req : Request) :
  Loads.isBadRequest (Loads.getLoadProps req) = true ↔
  truthy (prop (req_body req) "volume") = false
  ∨ truthy (prop (req_body req) "content") = false.
Proof.
  unfold Loads.isBadRequest, Loads.getLoadProps. simpl. rewrite falsy_and. simpl.
  destruct (truthy (prop (req_body req) "volume")),
    (truthy (prop (req_body req) "content")); simpl; intuition congruence.
Qed.

Lemma boats_post_bad_request (allocated : Z) (req : Request) (st : Store) (sub : string) :
  req_user req = Some sub → sub ∈ users st →
  Boats.isBadRequest (Boats.getBoatProps req) = true →
  run (Boats.post allocated req) st =
    (Utils.handleClientError 400 Boats.BAD_REQUEST,
     {| store := st; calls := [DsGetNamed "Users" sub] |}).
Proof.
  intros Hu Hin Hbad. unfold Boats.post, run. rewrite registered_run, Hu. simpl.
  rewrite decide_True by done. by rewrite Hbad.
Qed.

Lemma auth_loads_post_bad_request (allocated : Z) (req : Request) (st : Store) :
  req_accepts_json req = true →
  AuthLoads.isBadRequest (AuthLoads.getLoadProps req) = true →
  run (AuthLoads.post allocated req) st =
    (Utils.handleClientError 400 AuthLoads.BAD_REQUEST, {| store := st; calls := [] |}).
Proof.
  intros Hacc Hbad. unfold AuthLoads.post, run, use, Utils.isAcceptable.
  unfold mbind at 1, M_bind, mret, M_ret. by rewrite Hacc, Hbad.
Qed.

Lemma auth_boats_post_bad_request (allocated : Z) (req : Request) (st : Store)
    (sub : string) :
  admitted req st sub →
  AuthBoats.isBadRequest (AuthBoats.getBoatProps req) = true →
  run (AuthBoats.post allocated req) st =
    (Utils.handleClientError 400 AuthBoats.BAD_REQUEST,
     {| store := st; calls := [DsGetNamed "Users" sub] |}).
Proof.
  intros Hreq Hbad. unfold AuthBoats.post, run.
  rewrite (authenticated_admitted _ _ _ _ sub) by done. by rewrite Hbad.
Qed.

Example boats_post_length_zero :
  run (Boats.post 5 adrift) harbour =
    (Utils.handleClientError 400 Boats.BAD_REQUEST,
     {| store := harbour; calls := [DsGetNamed "Users" ann] |}).
Proof. reflexivity. Qed.

(** ** The operations keep the links *)

(** C1 (as amended).  Every relationship operation of the four routers
    that is answered 204 leads from a store in which the links hold in
    both directions and no boat lists a load twice to a store with the
    same two properties. *)
Theorem relationship_operations_keep_links
    (op : Operation) (req : Request) (st : Store) :
  consistent st → no_duplicates st →
  (run (handle op req) st).1 = no_content →
  consistent (store (run (handle op req) st).2) ∧
  no_duplicates (store (run (handle op req) st).2).
Proof.
  intros Hc Hnd Hok.
  assert (Hst : well_linked st) by done.
  destruct op; simpl in *.
  - eapply assigned_well_linked, put_boat_load_204; done.
  - eapply unassigned_well_linked, delete_boat_load_204; done.
  - eapply boat_deleted_well_linked, delete_boat_204; done.
  - eapply assigned_well_linked, auth_put_boat_load_204; done.
  - eapply unassigned_well_linked, auth_delete_boat_load_204; done.
  - eapply boat_deleted_well_linked, auth_delete_boat_204; done.
  - eapply load_deleted_well_linked, delete_load_204; done.
  - eapply load_deleted_well_linked, auth_delete_load_204; done.
Qed.

Lemma relationship_operations_keep_links_witness :
  consistent (store (run (handle (AuthAssign "1" "8") (request ann)) harbour).2) ∧
  no_duplicates (store (run (handle (AuthAssign "1" "8") (request ann)) harbour).2).
Proof.
  apply (relationship_operations_keep_links (AuthAssign "1" "8") (request ann) harbour).
  - apply consistentb_true. vm_compute. reflexivity.
  - apply no_duplicatesb_true. vm_compute. reflexivity.
  - vm_compute. reflexivity.
Defined.

(** C1, counterexample.  In [doubled] the links hold in both directions
    but boat 1 lists load 7 twice.  Unassigning the load is answered 204
    and removes the first of the two entries: the boat still lists a load
    that no longer has a carrier. *)
Lemma duplicate_entry_breaks_consistency :
  consistent doubled ∧
  (run (handle (Unassign "1" "7") (request ann)) doubled).1 = no_content ∧
  ¬ consistent (store (run (handle (Unassign "1" "7") (request ann)) doubled).2).
Proof.
  split_and!.
  - apply consistentb_true. vm_compute. reflexivity.
  - vm_compute. reflexivity.
  - intros H%consistentb_true. vm_compute in H. discriminate.
Qed.

(** ** [parseInt] reads back what a template literal prints *)

Lemma digits_string_of_uint (d : Decimal.uint) (acc : Z) (rest : string) :
  starts_with_digit rest = false →
  digits (Int acc) (NilEmpty.string_of_uint d +:+ rest) = Int (read_uint acc d).
Proof.
  intros Hrest. revert acc.
  induction d; intros acc; simpl; try (by rewrite IHd).
  destruct rest as [|a r]; [done|]. simpl in *.
  destruct (digit_of a); [|done]. by rewrite bool_decide_eq_true_2 in Hrest.
Qed.

Lemma read_uint_acc (d : Decimal.uint) (acc : positive) :
  Z.pos (Pos.of_uint_acc d acc) = read_uint (Z.pos acc) d.
Proof.
  revert acc. induction d; intros acc; simpl; [done|..]; rewrite IHd; f_equal; lia.
Qed.

Lemma read_uint_of_uint (d : Decimal.uint) :
  read_uint 0 d = Z.of_N (Pos.of_uint d).
Proof.
  induction d; simpl; try done; by rewrite ?read_uint_acc.
Qed.

Lemma digits_first (d : Decimal.uint) (rest : string) :
  d ≠ Decimal.Nil → starts_with_digit rest = false →
  digits NaN (NilEmpty.string_of_uint d +:+ rest) = Int (read_uint 0 d).
Proof.
  intros Hd Hrest. destruct d; [done|..]; simpl; by rewrite digits_string_of_uint.
Qed.

Lemma skip_space_plain (a : Ascii.ascii) (r : string) :
  is_space a = false → (N_of_ascii a <? 128)%N = true →
  skip_space (String a r) = String a r.
Proof.
  destruct a as [[] [] [] [] [] [] [] []]; intros Hs Ha;
    try (vm_compute in Hs; discriminate Hs); try (vm_compute in Ha; discriminate Ha);
    by destruct r as [|b [|c r'']].
Qed.

Lemma parseInt_digit (s : string) :
  starts_with_digit s = true → parseInt s = digits NaN s.
Proof.
  destruct s as [|a r]; [done|]. intros H.
  destruct a as [[] [] [] [] [] [] [] []]; try (vm_compute in H; discriminate H);
    unfold parseInt; by rewrite skip_space_plain.
Qed.

Lemma parseInt_minus (r : string) : parseInt (String "-" r) = negate (digits NaN r).
Proof. unfold parseInt. by rewrite skip_space_plain. Qed.

Lemma parseInt_unsigned (d : Decimal.uint) (rest : string) :
  d ≠ Decimal.Nil → starts_with_digit rest = false →
  parseInt (NilEmpty.string_of_uint d +:+ rest) = Int (read_uint 0 d).
Proof.
  intros Hd Hrest. rewrite <- (digits_first d rest Hd Hrest).
  apply parseInt_digit. by destruct d.
Qed.

Lemma parseInt_show_rest (z : Z) (rest : string) :
  starts_with_digit rest = false → parseInt (show z +:+ rest) = Int z.
Proof.
  intros Hrest. unfold show. destruct z as [|p|p]; simpl.
  - by rewrite (parseInt_unsigned (Decimal.D0 Decimal.Nil)).
  - pose proof (Unsigned.to_uint_nonnil p) as Hnil.
    pose proof (Unsigned.of_to p) as Hp.
    unfold NilZero.string_of_uint.
    destruct (Pos.to_uint p) eqn:Hd; [done|..];
      rewrite parseInt_unsigned by done; rewrite read_uint_of_uint, Hp; done.
  - pose proof (Unsigned.to_uint_nonnil p) as Hnil.
    pose proof (Unsigned.of_to p) as Hp.
    change (String "-" (NilZero.string_of_uint (Pos.to_uint p)) +:+ rest)
      with (String "-" (NilZero.string_of_uint (Pos.to_uint p) +:+ rest)).
    rewrite parseInt_minus. unfold NilZero.string_of_uint.
    destruct (Pos.to_uint p) eqn:Hd; [done|..];
      rewrite digits_first by done; rewrite read_uint_of_uint, Hp; done.
Qed.

Lemma append_empty (s : string) : s +:+ EmptyString = s.
Proof.
  induction s as [|a s IH]; [done|].
  change (String a (s +:+ EmptyString) = String a s). by rewrite IH.
Qed.

Lemma parseInt_show_id (z : Z) : parseInt (show z) = Int z.
Proof. rewrite <- (append_empty (show z)). by apply parseInt_show_rest. Qed.

(** X1.  [parseInt] reads an id back from the decimal text that a template
    literal prints for it, and ignores what follows the digits: for every
    safe integer [z], of magnitude below 2^53 as the ids of the store
    are, [parseInt (show z)] is [z], and so is [parseInt] of [show z]
    followed by any text that does not start with a digit. *)
Theorem parseInt_reads_back_an_id (z : Z) (rest : string) :
  safe_integer z = true → starts_with_digit rest = false →
  parseInt (show z) = Int z ∧ parseInt (show z +:+ rest) = Int z.
Proof. intros _ Hrest. split; [apply parseInt_show_id|by apply parseInt_show_rest]. Qed.

Lemma parseInt_reads_back_an_id_witness :
  parseInt (show (-42)) = Int (-42) ∧ parseInt (show (-42) +:+ "abc") = Int (-42).
Proof. apply (parseInt_reads_back_an_id (-42) "abc"); reflexivity. Defined.

(** ** What one request does to the store *)

Lemma put_boat_load_change boat_id load_id req st :
  change st (store (run (Boats.put_boat_load boat_id load_id req) st).2).
Proof.
  unfold Boats.put_boat_load, run, mbind, M_bind. rewrite find_both.
  destruct (parseInt boat_id) as [|b], (parseInt load_id) as [|l]; unchanged.
  simpl.
  destruct (boats st !! b) as [B|] eqn:HB, (loads st !! l) as [L|] eqn:HL; unchanged.
  unfold has_carrier.
  destruct (load_carrier L) as [c|] eqn:HC; unchanged.
  rewrite update_both by (simpl; eauto). simpl.
  apply change_assigned. by exists b, l, B, L, (boat_name B).
Qed.

Lemma delete_boat_load_change boat_id load_id req st :
  change st (store (run (Boats.delete_boat_load boat_id load_id req) st).2).
Proof.
  unfold Boats.delete_boat_load, run, mbind, M_bind. rewrite find_both.
  destruct (parseInt boat_id) as [|b], (parseInt load_id) as [|l]; unchanged.
  simpl.
  destruct (boats st !! b) as [B|] eqn:HB, (loads st !! l) as [L|] eqn:HL; unchanged.
  destruct (load_carrier L) as [c|] eqn:HC; unchanged.
  destruct (carrier_id c =? b) eqn:Hc; unchanged. simpl.
  rewrite update_both by (simpl; eauto). simpl.
  apply change_unassigned. exists b, l, B, L, c. split_and!; try done. lia.
Qed.

Lemma delete_boat_change boat_id req st :
  change st (store (run (Boats.delete_boat boat_id req) st).2).
Proof.
  unfold Boats.delete_boat, run. rewrite registered_run.
  destruct (req_user req) as [sub|]; unchanged.
  destruct (decide _); unchanged.
  unfold mbind, M_bind. rewrite find_one.
  destruct (parseInt boat_id) as [|b]; unchanged. simpl.
  destruct (boats st !! b) as [B|] eqn:HB; unchanged.
  destruct (0 <? _) eqn:Hlen.
  - simpl. rewrite (delete_and_update_run b (ref_id <$> boat_loads B)). simpl.
    apply change_boat_deleted. by exists b, B.
  - rewrite (delete_and_update_run b [] st). simpl.
    apply change_boat_deleted. exists b, B. split; [done|].
    assert (boat_loads B = []) as Hnil
      by (destruct (boat_loads B); [done | apply Z.ltb_ge in Hlen; simpl in Hlen; lia]).
    by rewrite Hnil.
Qed.

Lemma auth_put_boat_load_change boat_id load_id req st :
  change st (store (run (AuthBoats.put_boat_load boat_id load_id req) st).2).
Proof.
  unfold AuthBoats.put_boat_load, run. gate authenticated_run.
  unfold mbind, M_bind. rewrite find_both.
  destruct (parseInt boat_id) as [|b], (parseInt load_id) as [|l]; unchanged.
  simpl.
  destruct (boats st !! b) as [B|] eqn:HB, (loads st !! l) as [L|] eqn:HL; unchanged.
  destruct (AuthBoats.not_owner B sub); unchanged. unfold has_carrier.
  destruct (load_carrier L) as [c|] eqn:HC; unchanged.
  rewrite update_both by (simpl; eauto). simpl.
  apply change_assigned. by exists b, l, B, L, JUndefined.
Qed.

Lemma auth_delete_boat_load_change boat_id load_id req st :
  change st (store (run (AuthBoats.delete_boat_load boat_id load_id req) st).2).
Proof.
  unfold AuthBoats.delete_boat_load, run. gate authenticated_run.
  unfold mbind, M_bind. rewrite find_both.
  destruct (parseInt boat_id) as [|b], (parseInt load_id) as [|l]; unchanged.
  simpl.
  destruct (boats st !! b) as [B|] eqn:HB, (loads st !! l) as [L|] eqn:HL; unchanged.
  destruct (AuthBoats.not_owner B sub); unchanged.
  destruct (load_carrier L) as [c|] eqn:HC; unchanged.
  destruct (carrier_id c =? b) eqn:Hc; unchanged. simpl.
  rewrite update_both by (simpl; eauto). simpl.
  apply change_unassigned. exists b, l, B, L, c. split_and!; try done. lia.
Qed.

Lemma auth_delete_boat_change boat_id req st :
  change st (store (run (AuthBoats.delete_boat boat_id req) st).2).
Proof.
  unfold AuthBoats.delete_boat, run. gate authenticated_run.
  unfold mbind, M_bind. rewrite find_one.
  destruct (parseInt boat_id) as [|b]; unchanged. simpl.
  destruct (boats st !! b) as [B|] eqn:HB; unchanged.
  destruct (AuthBoats.not_owner B sub); unchanged.
  destruct (0 <? _) eqn:Hlen.
  - simpl. rewrite (delete_and_update_run b (ref_id <$> boat_loads B)). simpl.
    apply change_boat_deleted. by exists b, B.
  - rewrite (delete_and_update_run b [] st). simpl.
    apply change_boat_deleted. exists b, B. split; [done|].
    assert (boat_loads B = []) as Hnil
      by (destruct (boat_loads B); [done | apply Z.ltb_ge in Hlen; simpl in Hlen; lia]).
    by rewrite Hnil.
Qed.

Lemma delete_load_change keyless load_id req st :
  change st (store (run (Loads.delete_load keyless load_id req) st).2).
Proof.
  unfold Loads.delete_load, run, mbind, M_bind. rewrite find_one.
  destruct (parseInt load_id) as [|l]; unchanged. simpl.
  destruct (loads st !! l) as [L|] eqn:HL; unchanged.
  destruct (load_carrier L) as [c|] eqn:HC.
  - simpl. destruct (boats st !! carrier_id c) as [B|] eqn:HB; unchanged.
    rewrite delete_then_update by (simpl; eauto). simpl.
    apply change_load_deleted. exists l, L. rewrite HC. eauto.
  - simpl. apply change_load_deleted. exists l, L. by rewrite HC.
Qed.

Lemma auth_delete_load_change load_id req st :
  change st (store (run (AuthLoads.delete_load load_id req) st).2).
Proof.
  unfold AuthLoads.delete_load, run, use, Utils.isAcceptable, mbind, M_bind, mret, M_ret.
  destruct (req_accepts_json req); unchanged. rewrite find_one.
  destruct (parseInt load_id) as [|l]; unchanged. simpl.
  destruct (loads st !! l) as [L|] eqn:HL; unchanged.
  destruct (load_carrier L) as [c|] eqn:HC.
  - simpl. destruct (boats st !! carrier_id c) as [B|] eqn:HB; unchanged.
    rewrite delete_then_update by (simpl; eauto). simpl.
    apply change_load_deleted. exists l, L. rewrite HC. eauto.
  - simpl. apply change_load_deleted. exists l, L. by rewrite HC.
Qed.

Lemma handle_change op req st : change st (store (run (handle op req) st).2).
Proof.
  destruct op; simpl;
    auto using put_boat_load_change, delete_boat_load_change, delete_boat_change,
      auth_put_boat_load_change, auth_delete_boat_load_change, auth_delete_boat_change,
      delete_load_change, auth_delete_load_change.
Qed.

Lemma insert_run {A : Type} (K : Kind A) (id : Z) (data : A) (st : Store) (cs : list DsCall) :
  Datastore.insert K id data {| store := st; calls := cs |} =
    match table K st !! id with
    | Some _ => (inl ALREADY_EXISTS,
                 {| store := st; calls := cs ++ [DsInsert (kind_name K) id] |})
    | None => (inr tt,
               {| store := set_table K (<[id := data]> (table K st)) st;
                  calls := cs ++ [DsInsert (kind_name K) id] |})
    end.
Proof. run_monad. by destruct (table K st !! id). Qed.

Lemma boats_post_change allocated req st :
  change st (store (run (Boats.post allocated req) st).2).
Proof.
  unfold Boats.post, run. rewrite registered_run.
  destruct (req_user req) as [sub|]; unchanged.
  destruct (decide _); unchanged.
  destruct (Boats.isBadRequest _); unchanged.
  unfold mbind, M_bind. rewrite insert_run. simpl.
  destruct (boats st !! allocated) eqn:Hfree; unchanged.
  apply change_boat_created.
  eexists allocated, _; split; [done|]; split; [|reflexivity]; done.
Qed.

Lemma auth_boats_post_change allocated req st :
  change st (store (run (AuthBoats.post allocated req) st).2).
Proof.
  unfold AuthBoats.post, run. gate authenticated_run.
  destruct (AuthBoats.isBadRequest _); unchanged.
  unfold mbind, M_bind. rewrite insert_run. simpl.
  destruct (boats st !! allocated) eqn:Hfree; unchanged.
  apply change_boat_created.
  eexists allocated, _; split; [done|]; split; [|reflexivity]; done.
Qed.

Lemma loads_post_change allocated req st :
  change st (store (run (Loads.post allocated req) st).2).
Proof.
  unfold Loads.post, run.
  destruct (Loads.isBadRequest _); unchanged.
  unfold mbind, M_bind. rewrite insert_run. simpl.
  destruct (loads st !! allocated) eqn:Hfree; unchanged.
  apply change_load_created.
  eexists allocated, _; split; [done|]; split; [|reflexivity]; done.
Qed.

Lemma auth_loads_post_change allocated req st :
  change st (store (run (AuthLoads.post allocated req) st).2).
Proof.
  unfold AuthLoads.post, run, use, Utils.isAcceptable. unfold mbind at 1, M_bind, mret, M_ret.
  destruct (req_accepts_json req); unchanged.
  destruct (AuthLoads.isBadRequest _); unchanged.
  unfold mbind, M_bind. rewrite insert_run. simpl.
  destruct (loads st !! allocated) eqn:Hfree; unchanged.
  apply change_load_created.
  eexists allocated, _; split; [done|]; split; [|reflexivity]; done.
Qed.

Lemma put_boat_change boat_id req st :
  change st (store (run (AuthBoats.put_boat boat_id req) st).2).
Proof.
  unfold AuthBoats.put_boat, run. gate authenticated_run.
  destruct (AuthBoats.isBadRequest _); unchanged.
  unfold mbind, M_bind. rewrite find_one.
  destruct (parseInt boat_id) as [|b]; unchanged. simpl.
  destruct (boats st !! b) as [B|] eqn:HB; unchanged.
  destruct (AuthBoats.not_owner B sub); unchanged.
  rewrite boat_store_and_answer by eauto. simpl.
  apply change_boat_edited.
  eexists b, B, _; split; [done|]; split; [|split; [|reflexivity]]; done.
Qed.

Lemma patch_boat_change boat_id req st :
  change st (store (run (AuthBoats.patch_boat boat_id req) st).2).
Proof.
  unfold AuthBoats.patch_boat, run. gate authenticated_run.
  unfold mbind, M_bind. rewrite find_one.
  destruct (parseInt boat_id) as [|b]; unchanged. simpl.
  destruct (boats st !! b) as [B|] eqn:HB; unchanged.
  destruct (AuthBoats.not_owner B sub); unchanged.
  rewrite boat_store_and_answer by eauto. simpl.
  apply change_boat_edited.
  eexists b, B, _; split; [done|]; split; [|split; [|reflexivity]]; done.
Qed.

Lemma put_load_change load_id req st :
  change st (store (run (AuthLoads.put_load load_id req) st).2).
Proof.
  unfold AuthLoads.put_load, run, use, Utils.isAcceptable. unfold mbind at 1, M_bind, mret, M_ret.
  destruct (req_accepts_json req); unchanged.
  destruct (AuthLoads.isBadRequest _); unchanged.
  unfold mbind, M_bind. rewrite find_one.
  destruct (parseInt load_id) as [|l]; unchanged. simpl.
  destruct (loads st !! l) as [L|] eqn:HL; unchanged.
  rewrite load_store_and_answer by eauto. simpl.
  apply change_load_edited.
  eexists l, L, _; split; [done|]; split; [|reflexivity]; done.
Qed.

Lemma patch_load_change load_id req st :
  change st (store (run (AuthLoads.patch_load load_id req) st).2).
Proof.
  unfold AuthLoads.patch_load, run, use, Utils.isAcceptable. unfold mbind at 1, M_bind, mret, M_ret.
  destruct (req_accepts_json req); unchanged.
  unfold mbind, M_bind. rewrite find_one.
  destruct (parseInt load_id) as [|l]; unchanged. simpl.
  destruct (loads st !! l) as [L|] eqn:HL; unchanged.
  rewrite load_store_and_answer by eauto. simpl.
  apply change_load_edited.
  eexists l, L, _; split; [done|]; split; [|reflexivity]; done.
Qed.

(** ** The routes that read *)

Lemma boats_get_boat_reads boat_id req : reads_only (Boats.get_boat boat_id req).
Proof.
  intros st. unfold Boats.get_boat, run. rewrite registered_run.
  destruct (req_user req) as [sub|]; settle.
  destruct (decide _); settle.
  unfold mbind, M_bind. rewrite find_one. settle.
Qed.

Lemma boats_get_boat_loads_reads boat_id req :
  reads_only (Boats.get_boat_loads boat_id req).
Proof.
  intros st. unfold Boats.get_boat_loads, run, Utils.checkJwt, Boats.checkRegistered.
  destruct (req_user req) as [sub|]; settle.
  unfold mbind, M_bind, mret, M_ret. simpl.
  destruct (decide _); settle.
  destruct (parseInt boat_id) as [|b]; settle.
  destruct (boats st !! b) as [B|]; settle.
  destruct (0 <? _); settle.
Qed.

Lemma paged_reads {A : Type} (engine : Engine A) query limit cursor st cs :
  pagedQuery engine query limit cursor {| store := st; calls := cs |} =
    ((pagedQuery engine query limit cursor {| store := st; calls := cs |}).1,
     {| store := st; calls := cs |}).
Proof. unfold pagedQuery, runQuery, mbind, M_bind, read, mret, M_ret. done. Qed.

Lemma boats_get_boats_reads engine cursor req :
  reads_only (Boats.get_boats engine cursor req).
Proof.
  intros st. unfold Boats.get_boats, run, Utils.checkJwt, Boats.checkRegistered.
  destruct (req_user req) as [sub|]; settle.
  unfold mbind, M_bind, mret, M_ret. simpl.
  destruct (decide _); settle.
  all: try (rewrite paged_reads; settle).
Qed.

Lemma auth_get_boat_reads boat_id req : reads_only (AuthBoats.get_boat boat_id req).
Proof.
  intros st. unfold AuthBoats.get_boat, run. rewrite authenticated_run.
  destruct (req_user req) as [sub|]; settle.
  destruct (decide _); settle. destruct (req_accepts_json req); settle.
  unfold mbind, M_bind. rewrite find_one. settle.
Qed.

Lemma auth_get_boats_reads engine cursor req :
  reads_only (AuthBoats.get_boats engine cursor req).
Proof.
  intros st. unfold AuthBoats.get_boats, run, Utils.checkJwt, AuthBoats.checkRegistered,
    Utils.isAcceptable.
  destruct (req_user req) as [sub|]; settle.
  unfold mbind, M_bind, mret, M_ret. simpl.
  destruct (decide _); settle. destruct (req_accepts_json req); settle.
  all: try (rewrite paged_reads; settle).
Qed.

Lemma loads_get_load_reads load_id req : reads_only (Loads.get_load load_id req).
Proof.
  intros st. unfold Loads.get_load, run, mbind, M_bind. rewrite find_one. settle.
Qed.

Lemma loads_get_loads_reads engine cursor req :
  reads_only (Loads.get_loads engine cursor req).
Proof.
  intros st. unfold Loads.get_loads, run, mbind, M_bind. rewrite paged_reads. settle.
Qed.

Lemma auth_get_load_reads load_id req : reads_only (AuthLoads.get_load load_id req).
Proof.
  intros st. unfold AuthLoads.get_load, run, use, Utils.isAcceptable.
  unfold mbind at 1, M_bind, mret, M_ret.
  destruct (req_accepts_json req); settle.
  unfold mbind, M_bind. rewrite find_one. settle.
Qed.

Lemma auth_get_loads_reads engine cursor req :
  reads_only (AuthLoads.get_loads engine cursor req).
Proof.
  intros st. unfold AuthLoads.get_loads, run, Utils.isAcceptable.
  unfold mbind at 1, M_bind, mret, M_ret.
  destruct (req_accepts_json req); settle.
  unfold pagedQuery, runQuery, mbind, M_bind, read, mret, M_ret. simpl.
  repeat match goal with
         | |- context [match ?x with _ => _ end] => destruct x
         end; settle.
Qed.

Lemma get_users_reads : reads_only Users.get_users.
Proof. intros st. split; reflexivity. Qed.

Lemma plain_world (h : M Outcome) (st : Store) : (run (plain h) st).2 = (run h st).2.
Proof. unfold run, plain, mbind, M_bind. by destruct (h _). Qed.

Lemma listing_world (h : M ListOutcome) (st : Store) :
  (run (listing h) st).2 = (run h st).2.
Proof. unfold run, listing, mbind, M_bind. by destruct (h _). Qed.

Lemma page_world (h : M Users.PageOutcome) (st : Store) :
  (run (page h) st).2 = (run h st).2.
Proof. unfold run, page, mbind, M_bind. by destruct (h _). Qed.

(** X2.  The GET routes of the boats and loads routers and GET /users only
    read: whatever the request and the store, the store is afterwards
    what it was, and no insert, update or delete was called. *)
Theorem get_routes_only_read (c : Call) (req : Request) (st : Store) :
  is_get c = true →
  after c req st = st ∧
  existsb is_write (calls (run (serve c req) st).2) = false.
Proof.
  intros Hget. unfold after.
  destruct c; try discriminate; unfold serve; rewrite ?plain_world, ?listing_world.
  - apply boats_get_boat_reads.
  - apply boats_get_boat_loads_reads.
  - apply boats_get_boats_reads.
  - apply auth_get_boat_reads.
  - apply auth_get_boats_reads.
  - apply loads_get_load_reads.
  - apply loads_get_loads_reads.
  - apply auth_get_load_reads.
  - apply auth_get_loads_reads.
  - apply get_users_reads.
Qed.

Lemma get_user_change user idToken originalUrl st :
  change st (store (run (Users.get_user user idToken originalUrl) st).2).
Proof.
  unfold Users.get_user, run. destruct user as [id|]; unchanged.
  run_monad. destruct (decide (id ∈ users st)); unchanged.
  apply change_user_registered. by exists id.
Qed.

Lemma reads_change {A : Type} (h : M A) (st : Store) :
  reads_only h → change st (store (run h st).2).
Proof. intros H. destruct (H st) as [Heq _]. rewrite Heq. constructor. Qed.

(** Whatever the request, the store changes in one of the listed ways. *)
Lemma serve_change (c : Call) (req : Request) (st : Store) : change st (after c req st).
Proof.
  unfold after.
  destruct c; unfold serve; rewrite ?plain_world, ?listing_world, ?page_world.
  - apply handle_change.
  - apply boats_post_change.
  - apply reads_change, boats_get_boat_reads.
  - apply reads_change, boats_get_boat_loads_reads.
  - apply reads_change, boats_get_boats_reads.
  - apply auth_boats_post_change.
  - apply reads_change, auth_get_boat_reads.
  - apply reads_change, auth_get_boats_reads.
  - apply put_boat_change.
  - apply patch_boat_change.
  - apply loads_post_change.
  - apply reads_change, loads_get_load_reads.
  - apply reads_change, loads_get_loads_reads.
  - apply auth_loads_post_change.
  - apply reads_change, auth_get_load_reads.
  - apply reads_change, auth_get_loads_reads.
  - apply put_load_change.
  - apply patch_load_change.
  - apply get_user_change.
  - apply reads_change, get_users_reads.
Qed.

(** ** No request leaves a dangling reference *)

Lemma carriers_storedb_true (st : Store) :
  carriers_storedb st = true ↔ carriers_stored st.
Proof.
  unfold carriers_storedb, carriers_stored, is_stored. rewrite forallb_forall. split.
  - intros H l L c HL HC. specialize (H (l, L)). simpl in H. rewrite HC in H.
    destruct (boats st !! carrier_id c); [by eauto|].
    discriminate H. by apply list_elem_of_In, elem_of_map_to_list.
  - intros H [l L] HL%list_elem_of_In%elem_of_map_to_list. simpl.
    destruct (load_carrier L) as [c|] eqn:HC; [|done].
    by destruct (H l L c HL HC) as [B ->].
Qed.

Lemma is_Some_insert_keeps {A : Type} (m : gmap Z A) (i j : Z) (x : A) :
  is_Some (m !! j) → is_Some (<[i := x]> m !! j).
Proof.
  intros H. destruct (decide (i = j)) as [->|Hne].
  - rewrite lookup_insert_eq. eauto.
  - by rewrite lookup_insert_ne.
Qed.

Lemma assigned_carriers (st st' : Store) :
  carriers_stored st → assigned st st' → carriers_stored st'.
Proof.
  intros Hcs (b & l & B & L & name & HB & HL & HC & ->) l0 L0 c. simpl.
  destruct (decide (l0 = l)) as [->|Hl].
  - rewrite lookup_insert_eq. intros [= <-]. simpl. intros [= <-]. simpl.
    rewrite lookup_insert_eq. eauto.
  - rewrite lookup_insert_ne by done. intros HL0 Hc.
    apply is_Some_insert_keeps. by eapply Hcs.
Qed.

Lemma unassigned_carriers (st st' : Store) :
  carriers_stored st → unassigned st st' → carriers_stored st'.
Proof.
  intros Hcs (b & l & B & L & c0 & HB & HL & HC & Hc & ->) l0 L0 c. simpl.
  destruct (decide (l0 = l)) as [->|Hl].
  - rewrite lookup_insert_eq. by intros [= <-].
  - rewrite lookup_insert_ne by done. intros HL0 Hc'.
    apply is_Some_insert_keeps. by eapply Hcs.
Qed.

Lemma boat_deleted_carriers (st st' : Store) :
  consistent st → carriers_stored st → boat_deleted st st' → carriers_stored st'.
Proof.
  intros [Hfw _] Hcs (b & B & HB & ->) l0 L0 c. simpl.
  rewrite cleared_loads_lookup.
  destruct (decide (l0 ∈ ref_id <$> boat_loads B)) as [Hin|Hin].
  { destruct (loads st !! l0); simpl; [|done]. by intros [= <-]. }
  intros HL0 Hc. destruct (decide (carrier_id c = b)) as [Hb|Hb].
  - exfalso. apply Hin. destruct (Hfw l0 L0 c B HL0 Hc) as (r & Hr & <-).
    { by rewrite Hb. }
    by apply list_elem_of_fmap_2.
  - rewrite lookup_delete_ne by done. by eapply Hcs.
Qed.

Lemma load_deleted_carriers (st st' : Store) :
  carriers_stored st → load_deleted st st' → carriers_stored st'.
Proof.
  intros Hcs (l & L & HL & Hst) l0 L0 c.
  destruct (load_carrier L) as [c0|] eqn:HC.
  - destruct Hst as (B & HB & ->). simpl.
    destruct (decide (l0 = l)) as [->|Hl]; [by rewrite lookup_delete_eq|].
    rewrite lookup_delete_ne by done. intros HL0 Hc.
    apply is_Some_insert_keeps. by eapply Hcs.
  - subst st'. simpl.
    destruct (decide (l0 = l)) as [->|Hl]; [by rewrite lookup_delete_eq|].
    rewrite lookup_delete_ne by done. apply Hcs.
Qed.

Lemma boat_created_sound (st st' : Store) :
  sound st → boat_created st st' → sound st'.
Proof.
  intros [[[Hfw Hbw] Hnd] Hcs] (b & B & Hfree & Hnil & ->).
  split; [split; [split|]|].
  - intros l0 L0 c B0 HL0 Hc. simpl in *.
    destruct (decide (carrier_id c = b)) as [Hb|Hb].
    + destruct (Hcs l0 L0 c HL0 Hc) as [B1 HB1]. congruence.
    + rewrite lookup_insert_ne by done. by eapply Hfw.
  - intros b0 B0 r. simpl.
    destruct (decide (b0 = b)) as [->|Hb].
    + rewrite lookup_insert_eq. intros [= <-]. rewrite Hnil. by intros ?%elem_of_nil.
    + rewrite lookup_insert_ne by done. apply Hbw.
  - intros b0 B0. simpl.
    destruct (decide (b0 = b)) as [->|Hb].
    + rewrite lookup_insert_eq. intros [= <-]. rewrite Hnil. apply NoDup_nil_2.
    + rewrite lookup_insert_ne by done. apply Hnd.
  - intros l0 L0 c HL0 Hc. simpl in *. apply is_Some_insert_keeps. by eapply Hcs.
Qed.

Lemma load_created_sound (st st' : Store) :
  sound st → load_created st st' → sound st'.
Proof.
  intros [[[Hfw Hbw] Hnd] Hcs] (l & L & Hfree & HC & ->).
  split; [split; [split|]|].
  - intros l0 L0 c B0. simpl.
    destruct (decide (l0 = l)) as [->|Hl].
    + rewrite lookup_insert_eq. intros [= <-]. congruence.
    + rewrite lookup_insert_ne by done. apply Hfw.
  - intros b0 B0 r HB0 Hr. simpl in *.
    destruct (Hbw b0 B0 r HB0 Hr) as (L0 & c & HL0 & Hc & Hid).
    rewrite lookup_insert_ne by congruence. eauto.
  - intros b0 B0. simpl. apply Hnd.
  - intros l0 L0 c. simpl.
    destruct (decide (l0 = l)) as [->|Hl].
    + rewrite lookup_insert_eq. intros [= <-]. congruence.
    + rewrite lookup_insert_ne by done. apply Hcs.
Qed.

Lemma boat_edited_sound (st st' : Store) :
  sound st → boat_edited st st' → sound st'.
Proof.
  intros [[[Hfw Hbw] Hnd] Hcs] (b & B & B' & HB & Hloads & Hown & ->).
  split; [split; [split|]|].
  - intros l0 L0 c B0 HL0 Hc. simpl in *.
    destruct (decide (carrier_id c = b)) as [Hb|Hb].
    + rewrite Hb, lookup_insert_eq. intros [= <-]. rewrite Hloads.
      eapply Hfw; [done..|]. by rewrite Hb.
    + rewrite lookup_insert_ne by done. by eapply Hfw.
  - intros b0 B0 r. simpl.
    destruct (decide (b0 = b)) as [->|Hb].
    + rewrite lookup_insert_eq. intros [= <-]. rewrite Hloads. intros. by eapply Hbw.
    + rewrite lookup_insert_ne by done. apply Hbw.
  - intros b0 B0. simpl.
    destruct (decide (b0 = b)) as [->|Hb].
    + rewrite lookup_insert_eq. intros [= <-]. rewrite Hloads. by eapply Hnd.
    + rewrite lookup_insert_ne by done. apply Hnd.
  - intros l0 L0 c HL0 Hc. simpl in *. apply is_Some_insert_keeps. by eapply Hcs.
Qed.

Lemma load_edited_sound (st st' : Store) :
  sound st → load_edited st st' → sound st'.
Proof.
  intros [[[Hfw Hbw] Hnd] Hcs] (l & L & L' & HL & Hcar & ->).
  split; [split; [split|]|].
  - intros l0 L0 c B0. simpl.
    destruct (decide (l0 = l)) as [->|Hl].
    + rewrite lookup_insert_eq. intros [= <-]. rewrite Hcar. intros. by eapply Hfw.
    + rewrite lookup_insert_ne by done. apply Hfw.
  - intros b0 B0 r HB0 Hr. simpl in *.
    destruct (Hbw b0 B0 r HB0 Hr) as (L0 & c & HL0 & Hc & Hid).
    destruct (decide (ref_id r = l)) as [Heq|Hne].
    + rewrite Heq, lookup_insert_eq. exists L', c. rewrite Hcar.
      rewrite Heq in HL0. split_and!; congruence.
    + rewrite lookup_insert_ne by done. eauto.
  - intros b0 B0. simpl. apply Hnd.
  - intros l0 L0 c. simpl.
    destruct (decide (l0 = l)) as [->|Hl].
    + rewrite lookup_insert_eq. intros [= <-]. rewrite Hcar. intros. by eapply Hcs.
    + rewrite lookup_insert_ne by done. apply Hcs.
Qed.

Lemma change_sound (st st' : Store) : sound st → change st st' → sound st'.
Proof.
  intros Hs Hch. pose proof Hs as [Hwl Hcs]. pose proof Hwl as [Hc Hnd].
  destruct Hch as [|st' H|st' H|st' H|st' H|st' H|st' H|st' H|st' H|st' H].
  - done.
  - split; [by eapply assigned_well_linked|by eapply assigned_carriers].
  - split; [by eapply unassigned_well_linked|by eapply unassigned_carriers].
  - split; [by eapply boat_deleted_well_linked|by eapply boat_deleted_carriers].
  - split; [by eapply load_deleted_well_linked|by eapply load_deleted_carriers].
  - by eapply boat_created_sound.
  - by eapply load_created_sound.
  - by eapply boat_edited_sound.
  - by eapply load_edited_sound.
  - destruct H as (id & ->). done.
Qed.

Lemma sound_empty : sound empty_store.
Proof.
  split; [split; [split|]|]; intros ?; intros; simpl in *;
    by rewrite lookup_empty in *.
Qed.

Lemma serve_all_sound (rs : list (Call * Request)) (st : Store) :
  sound st → sound (serve_all rs st).
Proof.
  revert st. induction rs as [|[c req] rs IH]; intros st Hs; simpl; [done|].
  apply IH. eapply change_sound; [done|]. apply serve_change.
Qed.

(** X3.  Every store that is reached from the empty store by a sequence of
    requests, to any routes of the routers in any order, is sound: the
    links between boats and loads hold in both directions, no boat lists
    a load twice and every carrier is a stored boat. *)
Theorem reachable_stores_are_sound (rs : list (Call * Request)) :
  sound (serve_all rs empty_store).
Proof. apply serve_all_sound, sound_empty. Qed.

Lemma sound_after (c : Call) (req : Request) (st : Store) :
  sound st → sound (after c req st).
Proof. intros Hs. eapply change_sound; [done|]. apply serve_change. Qed.

Lemma unlisted_when_absent (st : Store) (l : Z) :
  sound st → loads st !! l = None →
  ∀ b B, boats st !! b = Some B → lists_load B l = false.
Proof.
  intros [[[_ Hbw] _] _] Hl b B HB. apply not_true_iff_false.
  intros (r & Hr & Hid)%lists_load_true.
  destruct (Hbw b B r HB Hr) as (L & c & HL & _). congruence.
Qed.

(** X4.  In a sound store, DELETE /loads/:load_id of a stored load is
    answered 204 by the authenticated loads router; the first loads router
    answers 204 when the load has a carrier, and otherwise as its update
    without a key turns out.  Both leave the same store, in which the
    load is gone and no boat lists it. *)
Theorem delete_load_is_answered_and_unlisted
    (keyless : KeylessUpdate) (load_id : string) (l : Z) (L : Load)
    (req : Request) (st : Store) :
  sound st → parseInt load_id = Int l → loads st !! l = Some L →
  req_accepts_json req = true →
  let st1 := after (Relate (AuthDeleteLoad load_id)) req st in
  let st2 := after (Relate (DeleteLoad keyless load_id)) req st in
  (run (AuthLoads.delete_load load_id req) st).1 = no_content ∧
  (run (Loads.delete_load keyless load_id req) st).1 =
    (if has_carrier L then no_content else keyless_outcome keyless) ∧
  st1 = st2 ∧ loads st1 !! l = None ∧
  (∀ b B, boats st1 !! b = Some B → lists_load B l = false).
Proof.
  intros Hs Hl HL Hacc st1 st2.
  assert (Hst1 : sound st1) by by apply sound_after.
  assert (Hrun : ∃ w1 w2,
    run (AuthLoads.delete_load load_id req) st = (no_content, w1) ∧
    run (Loads.delete_load keyless load_id req) st =
      (if has_carrier L then no_content else keyless_outcome keyless, w2) ∧
    store w1 = store w2 ∧ loads (store w1) !! l = None).
  { unfold AuthLoads.delete_load, Loads.delete_load, run, use, Utils.isAcceptable,
      has_carrier.
    unfold mbind at 1, M_bind, mret, M_ret. rewrite Hacc.
    unfold mbind, M_bind. rewrite !find_one, Hl. simpl. rewrite HL. simpl.
    destruct (load_carrier L) as [c|] eqn:HC.
    - destruct Hs as [_ Hcs]. destruct (Hcs l L c HL HC) as [B HB].
      simpl. rewrite HB. simpl.
      rewrite !delete_then_update by (simpl; eauto). simpl.
      eexists _, _. split_and!; try reflexivity. apply lookup_delete_eq.
    - simpl. eexists _, _. split_and!; try reflexivity. apply lookup_delete_eq. }
  destruct Hrun as (w1 & w2 & Hr1 & Hr2 & Heq & Hgone).
  assert (Hst1' : st1 = store w1).
  { unfold st1, after. simpl. rewrite plain_world. simpl. by rewrite Hr1. }
  assert (Hst2' : st2 = store w2).
  { unfold st2, after. simpl. rewrite plain_world. simpl. by rewrite Hr2. }
  rewrite Hr1, Hr2. split_and!; try done.
  - congruence.
  - by rewrite Hst1'.
  - apply unlisted_when_absent; [done|]. by rewrite Hst1'.
Qed.

(** X5.  In a sound store, a DELETE /boats/:boat_id that is answered 204
    leaves a sound store without the boat, in which no load names the
    boat as its carrier. *)
Theorem deleted_boat_carries_nothing
    (op : Operation) (boat_id : string) (b : Z) (B : Boat)
    (req : Request) (st : Store) :
  sound st →
  op = DeleteBoat boat_id ∨ op = AuthDeleteBoat boat_id →
  parseInt boat_id = Int b → boats st !! b = Some B →
  (run (handle op req) st).1 = no_content →
  let st' := after (Relate op) req st in
  sound st' ∧ boats st' !! b = None ∧
  (∀ l L c, loads st' !! l = Some L → load_carrier L = Some c → carrier_id c ≠ b).
Proof.
  intros Hs Hop Hb HB Hok st'.
  assert (Hs' : sound st') by by apply sound_after.
  destruct (delete_boat_deleted op boat_id b B req st Hop Hb HB Hok) as (sub & _ & Hw).
  assert (Hgone : boats st' !! b = None).
  { unfold st', after. simpl. rewrite plain_world, Hw. simpl. apply lookup_delete_eq. }
  split_and!; [done|done|].
  intros l L c HL HC Hc. destruct Hs' as [_ Hcs].
  destruct (Hcs l L c HL HC) as [B' HB']. congruence.
Qed.

Lemma change_keeps_owner (st st' : Store) (b : Z) (B B' : Boat) :
  change st st' → boats st !! b = Some B → boats st' !! b = Some B' →
  boat_owner B' = boat_owner B.
Proof.
  intros Hch HB. destruct Hch as [|st' H|st' H|st' H|st' H|st' H|st' H|st' H|st' H|st' H].
  - congruence.
  - destruct H as (b0 & l & B0 & L & name & HB0 & _ & _ & ->). simpl.
    destruct (decide (b0 = b)) as [->|Hne].
    + rewrite lookup_insert_eq. intros [= <-]. simpl. congruence.
    + rewrite lookup_insert_ne by done. congruence.
  - destruct H as (b0 & l & B0 & L & c & HB0 & _ & _ & _ & ->). simpl.
    destruct (decide (b0 = b)) as [->|Hne].
    + rewrite lookup_insert_eq. intros [= <-]. simpl. congruence.
    + rewrite lookup_insert_ne by done. congruence.
  - destruct H as (b0 & B0 & HB0 & ->). simpl.
    destruct (decide (b0 = b)) as [->|Hne].
    + by rewrite lookup_delete_eq.
    + rewrite lookup_delete_ne by done. congruence.
  - destruct H as (l & L & HL & H). destruct (load_carrier L) as [c|].
    + destruct H as (B0 & HB0 & ->). simpl.
      destruct (decide (carrier_id c = b)) as [Heq|Hne].
      * rewrite Heq, lookup_insert_eq. intros [= <-]. simpl. congruence.
      * rewrite lookup_insert_ne by done. congruence.
    + subst st'. simpl. congruence.
  - destruct H as (b0 & B0 & Hfree & _ & ->). simpl.
    destruct (decide (b0 = b)) as [->|Hne]; [congruence|].
    rewrite lookup_insert_ne by done. congruence.
  - destruct H as (l & L & _ & _ & ->). simpl. congruence.
  - destruct H as (b0 & B0 & B1 & HB0 & _ & Hown & ->). simpl.
    destruct (decide (b0 = b)) as [->|Hne].
    + rewrite lookup_insert_eq. intros [= <-]. congruence.
    + rewrite lookup_insert_ne by done. congruence.
  - destruct H as (l & L & L' & _ & _ & ->). simpl. congruence.
  - destruct H as (id & ->). simpl. congruence.
Qed.

(** X6.  No request changes the owner of a boat: a boat that is stored
    before and after a request, to any route, has the owner it had. *)
Theorem owner_never_changes
    (c : Call) (req : Request) (st : Store) (b : Z) (B B' : Boat) :
  boats st !! b = Some B → boats (after c req st) !! b = Some B' →
  boat_owner B' = boat_owner B.
Proof. intros HB HB'. eapply change_keeps_owner; [apply serve_change|done..]. Qed.

(** ** The gate of the authenticated boats router *)

Lemma plain_answer (h : M Outcome) (st : Store) :
  (run (plain h) st).1 = Plain (run h st).1.
Proof. unfold run, plain, mbind, M_bind. by destruct (h _). Qed.

Lemma listing_answer (h : M ListOutcome) (st : Store) :
  (run (listing h) st).1 = Listing (run h st).1.
Proof. unfold run, listing, mbind, M_bind. by destruct (h _). Qed.

(** X7.  On the authenticated boats router, a request that names a stored
    boat whose owner is not the requester (GET, PUT, PATCH and DELETE of
    the boat, putting a load on it and taking one off) is answered with a
    4xx status, calls nothing that writes and leaves the store as it
    was. *)
Theorem only_the_owner_reaches_a_boat
    (c : Call) (boat_id : string) (b : Z) (B : Boat) (sub : string)
    (req : Request) (st : Store) :
  on_boat c = Some boat_id → parseInt boat_id = Int b → boats st !! b = Some B →
  req_user req = Some sub → AuthBoats.not_owner B sub = true →
  after c req st = st ∧
  existsb is_write (calls (run (serve c req) st).2) = false ∧
  client_error (run (serve c req) st).1 = true.
Proof.
  intros Hc Hb HB Hu Hown. unfold after.
  destruct c as [[]| | | | | | | | | | | | | | | | | | |]; try discriminate;
    injection Hc as ->; unfold serve, handle;
    rewrite plain_world, plain_answer; unfold client_error; simpl.
  - unfold AuthBoats.put_boat_load, run. rewrite authenticated_run, Hu. simpl.
    destruct (decide _); [|done]. destruct (req_accepts_json req); [|done].
    unfold mbind, M_bind. rewrite find_both, Hb.
    destruct (parseInt load_id) as [|l]; simpl; [done|]. rewrite HB. simpl.
    destruct (loads st !! l) as [L|]; simpl; [|done]. by rewrite Hown.
  - unfold AuthBoats.delete_boat_load, run. rewrite authenticated_run, Hu. simpl.
    destruct (decide _); [|done]. destruct (req_accepts_json req); [|done].
    unfold mbind, M_bind. rewrite find_both, Hb.
    destruct (parseInt load_id) as [|l]; simpl; [done|]. rewrite HB. simpl.
    destruct (loads st !! l) as [L|]; simpl; [|done]. by rewrite Hown.
  - unfold AuthBoats.delete_boat, run. rewrite authenticated_run, Hu. simpl.
    destruct (decide _); [|done]. destruct (req_accepts_json req); [|done].
    unfold mbind, M_bind. rewrite find_one, Hb. simpl. rewrite HB. simpl.
    by rewrite Hown.
  - unfold AuthBoats.get_boat, run. rewrite authenticated_run, Hu. simpl.
    destruct (decide _); [|done]. destruct (req_accepts_json req); [|done].
    unfold mbind, M_bind. rewrite find_one, Hb. simpl. rewrite HB. simpl.
    by rewrite Hown.
  - unfold AuthBoats.put_boat, run. rewrite authenticated_run, Hu. simpl.
    destruct (decide _); [|done]. destruct (req_accepts_json req); [|done].
    destruct (AuthBoats.isBadRequest _); [done|].
    unfold mbind, M_bind. rewrite find_one, Hb. simpl. rewrite HB. simpl.
    by rewrite Hown.
  - unfold AuthBoats.patch_boat, run. rewrite authenticated_run, Hu. simpl.
    destruct (decide _); [|done]. destruct (req_accepts_json req); [|done].
    unfold mbind, M_bind. rewrite find_one, Hb. simpl. rewrite HB. simpl.
    by rewrite Hown.
Qed.

Lemma only_the_owner_reaches_a_boat_witness :
  after (AuthPatchBoat "1") (request bob) harbour = harbour ∧
  existsb is_write (calls (run (serve (AuthPatchBoat "1") (request bob)) harbour).2) = false ∧
  client_error (run (serve (AuthPatchBoat "1") (request bob)) harbour).1 = true.
Proof.
  apply (only_the_owner_reaches_a_boat (AuthPatchBoat "1") "1" 1 (orca [7]) bob);
    reflexivity.
Defined.

Lemma auth_get_boats_run (engine : Engine Boat) (cursor : JsVal) (req : Request) (w : World) :
  req_accepts_json req = false ∨ ¬ (∃ sub, req_user req = Some sub ∧ sub ∈ users (store w)) →
  AuthBoats.get_boats engine cursor req w =
    match req_user req with
    | None =>
        (NotListed (Sent {| status := 401; body := ErrorBody "Missing/invalid authorization" |}), w)
    | Some sub =>
        let w' := {| store := store w; calls := calls w ++ [DsGetNamed "Users" sub] |} in
        if decide (sub ∈ users (store w)) then
          (NotListed (Utils.handleClientError 406
                  ("Unsupported 'Accept' header: '" +:+ req_accept req
                     +:+ "'. Must accept 'application/json'")), w')
        else (NotListed (Utils.handleClientError 403 AuthBoats.NOT_REGISTERED), w')
    end.
Proof.
  intros H.
  unfold AuthBoats.get_boats, AuthBoats.checkRegistered, Utils.checkJwt, Utils.isAcceptable.
  destruct (req_user req) as [sub|] eqn:Hu; [|done]. run_monad.
  destruct (decide (sub ∈ users (store w))) as [Hin|]; [|done].
  destruct H as [->|H]; [done|]. destruct H. by exists sub.
Qed.

(** X8.  Every route of the authenticated boats router turns away a
    request that does not pass the three middlewares: with 401 and no
    datastore call when there is no valid token, with 403 when the
    subject is not registered and with 406 when the subject is registered
    but the Accept header does not admit JSON, in both cases after the one
    lookup of the user.  The store is unchanged. *)
Theorem gate_turns_requests_away (c : Call) (req : Request) (st : Store) :
  behind_gate c = true →
  (∀ sub, ¬ admitted req st sub) →
  answer_status (run (serve c req) st).1 =
    Some (match req_user req with
          | None => 401
          | Some sub => if decide (sub ∈ users st) then 406 else 403
          end) ∧
  (run (serve c req) st).2 =
    {| store := st;
       calls := match req_user req with
                | None => []
                | Some sub => [DsGetNamed "Users" sub]
                end |}.
Proof.
  intros Hc Hno.
  assert (Hgate : ∀ h : string → M Outcome,
             status_of (run (AuthBoats.authenticated req h) st).1 =
               Some (match req_user req with
                     | None => 401
                     | Some sub => if decide (sub ∈ users st) then 406 else 403
                     end) ∧
             (run (AuthBoats.authenticated req h) st).2 =
               {| store := st;
                  calls := match req_user req with
                           | None => []
                           | Some sub => [DsGetNamed "Users" sub]
                           end |}).
  { intros h. unfold run. rewrite authenticated_run.
    destruct (req_user req) as [sub|] eqn:Hu; [|done]. simpl.
    destruct (decide _) as [Hin|]; [|done].
    destruct (req_accepts_json req) eqn:Hj; [|done].
    by destruct (Hno sub). }
  destruct c as [[]| | | | | | | | | | | | | | | | | | |]; try discriminate;
    unfold serve, handle; rewrite ?plain_world, ?plain_answer,
      ?listing_world, ?listing_answer; simpl answer_status; try apply Hgate.
  unfold run. rewrite auth_get_boats_run.
  - destruct (req_user req) as [sub|]; [|done]. simpl.
    by destruct (decide _).
  - simpl. destruct (req_accepts_json req) eqn:Hj; [right|by left].
    intros (sub & ? & ?). by destruct (Hno sub).
Qed.

Lemma gate_turns_requests_away_witness :
  answer_status (run (serve (AuthPostBoat 3) (request "auth0|eve")) harbour).1 = Some 403 ∧
  (run (serve (AuthPostBoat 3) (request "auth0|eve")) harbour).2 =
    {| store := harbour; calls := [DsGetNamed "Users" "auth0|eve"] |}.
Proof.
  apply (gate_turns_requests_away (AuthPostBoat 3) (request "auth0|eve") harbour).
  - reflexivity.
  - intros sub (Hsub & Hin & _). injection Hsub as <-. revert Hin. by vm_compute.
Defined.

(** X9.  POST /boats on the authenticated router, by an admitted requester
    and with a free id, with a valid body whose name, type and length are
    values that the store gives back as they were written (safe integers,
    short ASCII texts, booleans), is answered 201 with a representation
    that has the new id, the requester as owner and no loads.
    GET /boats/:boat_id with that id printed in decimal then answers 200
    with the same representation to the owner, and 403 to every other
    admitted requester. *)
Theorem created_boat_is_read_back
    (allocated : Z) (req : Request) (st : Store) (sub : string) :
  admitted req st sub → short_text sub = true →
  AuthBoats.isBadRequest (AuthBoats.getBoatProps req) = false →
  kept (prop (req_body req) "name") = true →
  kept (prop (req_body req) "type") = true →
  kept (prop (req_body req) "length") = true →
  allocated_id allocated = true →
  boats st !! allocated = None →
  let created := run (AuthBoats.post allocated req) st in
  ∃ repr : BoatRepr,
    created.1 = Sent {| status := 201; body := BoatBody repr |} ∧
    br_id repr = allocated ∧ br_owner repr = JStr sub ∧ br_loads repr = Some [] ∧
    ∀ (req' : Request) (sub' : string),
      admitted req' (store created.2) sub' →
      req_serverName req' = req_serverName req →
      (run (AuthBoats.get_boat (show allocated) req') (store created.2)).1 =
        if String.eqb sub sub' then Sent {| status := 200; body := BoatBody repr |}
        else NOT_OWNER_403.
Proof.
  intros Hadm _ Hok _ _ _ _ Hfree created. subst created.
  unfold AuthBoats.post, run. rewrite (authenticated_admitted _ _ _ _ sub) by done.
  rewrite Hok.
  unfold mbind, M_bind. rewrite insert_run. simpl. rewrite Hfree. simpl.
  eexists. split_and!; try reflexivity.
  intros req' sub' Hadm' Hname.
  unfold AuthBoats.get_boat. rewrite (authenticated_admitted _ _ _ _ sub') by done.
  unfold mbind, M_bind. rewrite find_one, parseInt_show_id. simpl.
  rewrite lookup_insert_eq. simpl. unfold AuthBoats.not_owner. simpl.
  destruct (String.eqb sub sub'); simpl; [|done]. by rewrite Hname.
Qed.

Lemma created_boat_is_read_back_witness :
  ∃ repr : BoatRepr,
    (run (AuthBoats.post 2 replace) harbour).1 =
      Sent {| status := 201; body := BoatBody repr |} ∧
    br_id repr = 2 ∧ br_owner repr = JStr ann ∧ br_loads repr = Some [] ∧
    ∀ (req' : Request) (sub' : string),
      admitted req' (store (run (AuthBoats.post 2 replace) harbour).2) sub' →
      req_serverName req' = req_serverName replace →
      (run (AuthBoats.get_boat (show 2) req')
           (store (run (AuthBoats.post 2 replace) harbour).2)).1 =
        if String.eqb ann sub' then Sent {| status := 200; body := BoatBody repr |}
        else NOT_OWNER_403.
Proof.
  apply (created_boat_is_read_back 2 replace harbour ann); try reflexivity.
  split_and!; [reflexivity|by vm_compute|reflexivity].
Defined.

Lemma acceptable_run (req : Request) (h : M Outcome) (w : World) :
  use (Utils.isAcceptable req) h w =
    if req_accepts_json req then h w
    else (Utils.handleClientError 406
            ("Unsupported 'Accept' header: '" +:+ req_accept req
               +:+ "'. Must accept 'application/json'"), w).
Proof. unfold use, Utils.isAcceptable. run_monad. by destruct (req_accepts_json req). Qed.

(** X10.  POST /loads with a free id and a valid body, whose volume and
    content are values that the store gives back as they were written and
    whose creation_date is a time in milliseconds inside the range of the
    store's timestamps, is answered 201 by the authenticated loads router,
    with a representation that has the new id, no carrier and the
    creation date as a date.  The first loads router gives the same
    answer and the same store, and GET /loads/:load_id on either router
    then answers 200 with the same representation. *)
Theorem created_load_is_read_back (allocated : Z) (req : Request) (st : Store) :
  req_accepts_json req = true →
  AuthLoads.isBadRequest (AuthLoads.getLoadProps req) = false →
  kept (prop (req_body req) "volume") = true →
  kept (prop (req_body req) "content") = true →
  timestamp (prop (req_body req) "creation_date") = true →
  allocated_id allocated = true →
  loads st !! allocated = None →
  let created := run (AuthLoads.post allocated req) st in
  ∃ repr : LoadRepr,
    created.1 = Sent {| status := 201; body := LoadBody repr |} ∧
    lr_id repr = allocated ∧ lr_carrier repr = None ∧
    lr_creation_date repr = LocaleDateString (prop (req_body req) "creation_date") ∧
    (run (Loads.post allocated req) st).1 = created.1 ∧
    store (run (Loads.post allocated req) st).2 = store created.2 ∧
    ∀ req' : Request,
      req_serverName req' = req_serverName req →
      (run (Loads.get_load (show allocated) req') (store created.2)).1 =
        Sent {| status := 200; body := LoadBody repr |} ∧
      (req_accepts_json req' = true →
       (run (AuthLoads.get_load (show allocated) req') (store created.2)).1 =
         Sent {| status := 200; body := LoadBody repr |}).
Proof.
  intros Hj Hok _ _ _ _ Hfree created. subst created.
  assert (Hok' : Loads.isBadRequest (Loads.getLoadProps req) = false).
  { revert Hok. unfold AuthLoads.isBadRequest, Loads.isBadRequest. simpl.
    rewrite !falsy_and. simpl.
    by destruct (truthy (prop (req_body req) "volume")),
      (truthy (prop (req_body req) "content")),
      (truthy (prop (req_body req) "creation_date")). }
  unfold AuthLoads.post, Loads.post, run. rewrite acceptable_run, Hj, Hok, Hok'.
  unfold mbind, M_bind. rewrite !insert_run. simpl. rewrite Hfree. simpl.
  eexists. split_and!; try reflexivity.
  intros req' Hname. split.
  - unfold Loads.get_load, mbind, M_bind. rewrite find_one, parseInt_show_id. simpl.
    rewrite lookup_insert_eq. simpl. by rewrite Hname.
  - intros Hj'. unfold AuthLoads.get_load. rewrite acceptable_run, Hj'.
    unfold mbind, M_bind. rewrite find_one, parseInt_show_id. simpl.
    rewrite lookup_insert_eq. simpl. unfold AuthLoads.answer. simpl. by rewrite Hname.
Qed.

Lemma created_load_is_read_back_witness :
  ∃ repr : LoadRepr,
    (run (AuthLoads.post 9 stamped) harbour).1 =
      Sent {| status := 201; body := LoadBody repr |} ∧
    lr_id repr = 9 ∧ lr_carrier repr = None ∧
    lr_creation_date repr = LocaleDateString (prop (req_body stamped) "creation_date") ∧
    (run (Loads.post 9 stamped) harbour).1 = (run (AuthLoads.post 9 stamped) harbour).1 ∧
    store (run (Loads.post 9 stamped) harbour).2 =
      store (run (AuthLoads.post 9 stamped) harbour).2 ∧
    ∀ req' : Request,
      req_serverName req' = req_serverName stamped →
      (run (Loads.get_load (show 9) req') (store (run (AuthLoads.post 9 stamped) harbour).2)).1 =
        Sent {| status := 200; body := LoadBody repr |} ∧
      (req_accepts_json req' = true →
       (run (AuthLoads.get_load (show 9) req')
            (store (run (AuthLoads.post 9 stamped) harbour).2)).1 =
         Sent {| status := 200; body := LoadBody repr |}).
Proof.
  apply (created_load_is_read_back 9 stamped harbour); reflexivity.
Defined.

(** X11.  After the owner has put a free load that has a [Date] on a boat
    through the authenticated router, GET /boats/:boat_id lists the loads
    the boat had, followed by the new load with the load's own self link,
    and GET /loads/:load_id shows a carrier with the boat's id, no name
    and the boat's own self link. *)
Theorem assigned_links_resolve
    (boat_id load_id : string) (b l : Z) (B : Boat) (L : Load) (d : JsVal)
    (req : Request) (st : Store) (sub : string) :
  parseInt boat_id = Int b → parseInt load_id = Int l →
  boats st !! b = Some B → loads st !! l = Some L →
  admitted req st sub → AuthBoats.not_owner B sub = false →
  load_carrier L = None → load_creation_date L = JDate d →
  let st' := after (Relate (AuthAssign boat_id load_id)) req st in
  let base := req_serverName req in
  ∃ (boat : BoatRepr) (load : LoadRepr),
    (run (AuthBoats.get_boat boat_id req) st').1 =
      Sent {| status := 200; body := BoatBody boat |} ∧
    (run (AuthLoads.get_load load_id req) st').1 =
      Sent {| status := 200; body := LoadBody load |} ∧
    br_loads boat =
      Some ((set_self base <$> boat_loads B)
              ++ [{| ref_id := l; ref_self := Some (lr_self load) |}])%list ∧
    lr_carrier load =
      Some {| cr_id := b; cr_name := JUndefined; cr_self := br_self boat |}.
Proof.
  intros Hb Hl HB HL Hadm Hown HC Hd st' base. subst st' base.
  unfold after, serve, handle. rewrite plain_world.
  rewrite (auth_put_boat_load_ok boat_id load_id b l B L req st Hb Hl HB HL sub Hadm Hown HC).
  simpl. destruct Hadm as (Hu & Hin & Hj).
  unfold AuthBoats.get_boat, AuthLoads.get_load, run.
  rewrite authenticated_run, acceptable_run, Hu, Hj. simpl.
  rewrite decide_True by done.
  unfold mbind, M_bind. rewrite !find_one, Hb, Hl. simpl.
  rewrite !lookup_insert_eq. simpl.
  unfold AuthBoats.not_owner in *. simpl. rewrite Hown.
  unfold AuthLoads.answer, Utils.loadRepr. simpl. rewrite Hd.
  eexists _, _. split_and!; try reflexivity.
  simpl. by rewrite fmap_app.
Qed.

Lemma assigned_links_resolve_witness :
  ∃ (boat : BoatRepr) (load : LoadRepr),
    (run (AuthBoats.get_boat "1" (request ann))
         (after (Relate (AuthAssign "1" "8")) (request ann) harbour)).1 =
      Sent {| status := 200; body := BoatBody boat |} ∧
    (run (AuthLoads.get_load "8" (request ann))
         (after (Relate (AuthAssign "1" "8")) (request ann) harbour)).1 =
      Sent {| status := 200; body := LoadBody load |} ∧
    br_loads boat =
      Some ((set_self (req_serverName (request ann)) <$> boat_loads (orca [7]))
              ++ [{| ref_id := 8; ref_self := Some (lr_self load) |}])%list ∧
    lr_carrier load =
      Some {| cr_id := 1; cr_name := JUndefined; cr_self := br_self boat |}.
Proof.
  apply (assigned_links_resolve "1" "8" 1 8 (orca [7]) (lego None) (JStr "10/18/2020")
           (request ann) harbour ann); try reflexivity.
  split_and!; [reflexivity|by vm_compute|reflexivity].
Defined.

Lemma store_eta (st : Store) :
  {| boats := boats st; loads := loads st; users := users st |} = st.
Proof. by destruct st. Qed.

(** X12.  PATCH /boats/:boat_id without name, type and length in the body
    leaves the store as it was and is answered as GET /boats/:boat_id is,
    whatever the request and the store. *)
Theorem patch_boat_without_properties_is_a_get
    (boat_id : string) (req : Request) (st : Store) :
  prop (req_body req) "name" = JUndefined →
  prop (req_body req) "type" = JUndefined →
  prop (req_body req) "length" = JUndefined →
  after (AuthPatchBoat boat_id) req st = st ∧
  (run (AuthBoats.patch_boat boat_id req) st).1 =
    (run (AuthBoats.get_boat boat_id req) st).1.
Proof.
  intros Hn Ht Hl. unfold after, serve. rewrite plain_world.
  unfold AuthBoats.patch_boat, AuthBoats.get_boat, run. rewrite !authenticated_run.
  destruct (req_user req) as [sub|]; [|done]. simpl.
  destruct (decide _); [|done]. destruct (req_accepts_json req); [|done].
  unfold mbind, M_bind. rewrite !find_one.
  destruct (parseInt boat_id) as [|b]; simpl; [done|].
  destruct (boats st !! b) as [B|] eqn:HB; simpl; [|done].
  destruct (AuthBoats.not_owner B sub); [done|].
  unfold AuthBoats.store_and_answer, mbind, M_bind.
  rewrite (update_alone BOATS) by (simpl; eauto). simpl.
  unfold AuthBoats.getBoatProps, AuthBoats.missing_props, AuthBoats.updated_boat. simpl.
  rewrite Hn, Ht, Hl. simpl.
  assert (HBB : {| boat_name := boat_name B; boat_type := boat_type B;
                   boat_length := boat_length B; boat_owner := boat_owner B;
                   boat_loads := boat_loads B |} = B) by by destruct B.
  rewrite HBB. rewrite insert_id by done. split; [apply store_eta|done].
Qed.

Lemma patch_boat_without_properties_is_a_get_witness :
  after (AuthPatchBoat "1") (request ann) harbour = harbour ∧
  (run (AuthBoats.patch_boat "1" (request ann)) harbour).1 =
    (run (AuthBoats.get_boat "1" (request ann)) harbour).1.
Proof.
  apply (patch_boat_without_properties_is_a_get "1" (request ann) harbour); reflexivity.
Defined.

(** X13.  PATCH /loads/:load_id without volume, content and creation_date
    in the body leaves the store as it was and is answered as
    GET /loads/:load_id is, whatever the request and the store. *)
Theorem patch_load_without_properties_is_a_get
    (load_id : string) (req : Request) (st : Store) :
  prop (req_body req) "volume" = JUndefined →
  prop (req_body req) "content" = JUndefined →
  prop (req_body req) "creation_date" = JUndefined →
  after (AuthPatchLoad load_id) req st = st ∧
  (run (AuthLoads.patch_load load_id req) st).1 =
    (run (AuthLoads.get_load load_id req) st).1.
Proof.
  intros Hv Hc Hd. unfold after, serve. rewrite plain_world.
  unfold AuthLoads.patch_load, AuthLoads.get_load, run. rewrite !acceptable_run.
  destruct (req_accepts_json req); [|done].
  unfold mbind, M_bind. rewrite !find_one.
  destruct (parseInt load_id) as [|l]; simpl; [done|].
  destruct (loads st !! l) as [L|] eqn:HL; simpl; [|done].
  unfold AuthLoads.store_and_answer, mbind, M_bind.
  rewrite (update_alone LOADS) by (simpl; eauto). simpl.
  unfold AuthLoads.getLoadProps, AuthLoads.missing_props, AuthLoads.updated_load. simpl.
  rewrite Hv, Hc, Hd. simpl.
  assert (HLL : {| load_volume := load_volume L; load_content := load_content L;
                   load_creation_date := load_creation_date L;
                   load_carrier := load_carrier L |} = L) by by destruct L.
  rewrite HLL. rewrite insert_id by done. split; [apply store_eta|done].
Qed.

Lemma patch_load_without_properties_is_a_get_witness :
  after (AuthPatchLoad "7") (request ann) harbour = harbour ∧
  (run (AuthLoads.patch_load "7" (request ann)) harbour).1 =
    (run (AuthLoads.get_load "7" (request ann)) harbour).1.
Proof.
  apply (patch_load_without_properties_is_a_get "7" (request ann) harbour); reflexivity.
Defined.

Lemma loadRepr_undated (id : Z) (load : Load) (baseUrl : string) :
  dated_load load = false → Utils.loadRepr id load baseUrl = None.
Proof. unfold dated_load, Utils.loadRepr. by destruct (load_creation_date load). Qed.

Lemma loadRepr_dated (id : Z) (load : Load) (baseUrl : string) :
  dated_load load = true →
  ∃ repr, Utils.loadRepr id load baseUrl = Some repr ∧ lr_id repr = id ∧
          lr_carrier repr =
            (λ c, {| cr_id := carrier_id c; cr_name := carrier_name c;
                     cr_self := baseUrl +:+ "/boats/" +:+ show (carrier_id c) |})
              <$> load_carrier load.
Proof.
  unfold dated_load, Utils.loadRepr. destruct (load_creation_date load); try done.
  all: intros _; eexists; split_and!; try reflexivity; simpl; by destruct (load_carrier load).
Qed.

Lemma loadReprs_undated (page : list (Z * Load)) (baseUrl : string) (e : Z * Load) :
  e ∈ page → dated_load e.2 = false → loadReprs page baseUrl = None.
Proof.
  intros He Hd. unfold loadReprs.
  destruct (mapM _ page) as [items|] eqn:Hm; [|done].
  apply mapM_Some_1 in Hm.
  apply list_elem_of_lookup in He as [i Hi].
  destruct (Forall2_lookup_l _ _ _ _ _ Hm Hi) as (r & _ & Hr).
  by rewrite loadRepr_undated in Hr.
Qed.

(** X14.  PATCH /loads/:load_id with a creation_date in the body stores
    that value as it came, not as a [Date], and is not answered.
    Afterwards GET /loads/:load_id is not answered on either loads router,
    and neither is GET /loads of the first loads router for a page that
    holds the load. *)
Theorem patched_date_makes_load_unreadable
    (load_id : string) (l : Z) (L : Load) (req : Request) (st : Store) :
  req_accepts_json req = true →
  parseInt load_id = Int l → loads st !! l = Some L →
  from_json (prop (req_body req) "creation_date") = true →
  let patched := run (AuthLoads.patch_load load_id req) st in
  patched.1 = Unanswered ∧
  (load_creation_date <$> loads (store patched.2) !! l) =
    Some (prop (req_body req) "creation_date") ∧
  (∀ req' : Request,
     (run (Loads.get_load load_id req') (store patched.2)).1 = Unanswered ∧
     (req_accepts_json req' = true →
      (run (AuthLoads.get_load load_id req') (store patched.2)).1 = Unanswered)) ∧
  (∀ (engine : Engine Load) (cursor : JsVal) (req' : Request)
     (page : list (Z * Load)) (info : QueryInfo) (L' : Load),
     (run (pagedQuery engine (createQuery (kind_name LOADS)) 5 cursor) (store patched.2)).1
       = inr (page, info) →
     loads (store patched.2) !! l = Some L' → (l, L') ∈ page →
     (run (Loads.get_loads engine cursor req') (store patched.2)).1 = NotListed Unanswered).
Proof.
  intros Hj Hl HL Hv patched. subst patched.
  unfold AuthLoads.patch_load, run. rewrite acceptable_run, Hj.
  unfold mbind, M_bind. rewrite find_one, Hl. simpl. rewrite HL. simpl.
  unfold AuthLoads.store_and_answer, mbind, M_bind.
  rewrite (update_alone LOADS) by (simpl; eauto). simpl.
  set (L1 := AuthLoads.updated_load L _).
  assert (Hd : load_creation_date L1 = prop (req_body req) "creation_date").
  { subst L1. simpl. by destruct (prop (req_body req) "creation_date"). }
  assert (Hu : dated_load L1 = false).
  { unfold dated_load. rewrite Hd. by destruct (prop (req_body req) "creation_date"). }
  split_and!.
  - unfold AuthLoads.answer. by rewrite loadRepr_undated.
  - by rewrite lookup_insert_eq, <- Hd.
  - intros req'. split.
    + unfold Loads.get_load, mbind, M_bind. rewrite find_one, Hl. simpl.
      rewrite lookup_insert_eq. simpl. by rewrite loadRepr_undated.
    + intros Hj'. unfold AuthLoads.get_load. rewrite acceptable_run, Hj'.
      unfold mbind, M_bind. rewrite find_one, Hl. simpl.
      rewrite lookup_insert_eq. simpl. unfold AuthLoads.answer.
      by rewrite loadRepr_undated.
  - intros engine cursor req' page info L' Hpage HL' Hin.
    rewrite lookup_insert_eq in HL'. injection HL' as <-.
    unfold run in *. unfold Loads.get_loads, mbind, M_bind. rewrite Hpage.
    by rewrite (loadReprs_undated page _ (l, L1)).
Qed.

Lemma patched_date_makes_load_unreadable_witness :
  (run (AuthLoads.patch_load "7" edit) harbour).1 = Unanswered ∧
  (load_creation_date <$> loads (store (run (AuthLoads.patch_load "7" edit) harbour).2) !! 7) =
    Some (JStr "1/1/2021").
Proof.
  pose proof (patched_date_makes_load_unreadable "7" 7 (lego (Some 1)) edit harbour
                eq_refl eq_refl eq_refl eq_refl) as (H1 & H2 & _).
  split; [exact H1|exact H2].
Defined.

Lemma or_stored_from_json (v stored : JsVal) : from_json v = true → or_stored v stored = v.
Proof. by destruct v. Qed.

Lemma auth_isBadRequest_falsy (props : BoatProps) :
  AuthBoats.isBadRequest props =
    negb (truthy (bp_name props) && truthy (bp_type props) && truthy (bp_length props)).
Proof. unfold AuthBoats.isBadRequest. by rewrite falsy_and. Qed.

(** X15.  PATCH does not validate.  When the body has a falsy name, type or
    length, the owner's PUT /boats/:boat_id is answered 400 and changes
    nothing, while the owner's PATCH is answered 200 and stores a boat
    that the validation of POST and PUT rejects. *)
Theorem patch_boat_skips_validation
    (boat_id : string) (b : Z) (B : Boat) (req : Request) (st : Store) (sub : string) :
  parseInt boat_id = Int b → boats st !! b = Some B →
  admitted req st sub → AuthBoats.not_owner B sub = false →
  falsy_value (prop (req_body req) "name") || falsy_value (prop (req_body req) "type")
    || falsy_value (prop (req_body req) "length") = true →
  run (AuthBoats.put_boat boat_id req) st =
    (Utils.handleClientError 400 AuthBoats.BAD_REQUEST,
     {| store := st; calls := [DsGetNamed "Users" sub] |}) ∧
  status_of (run (AuthBoats.patch_boat boat_id req) st).1 = Some 200 ∧
  ∃ B' : Boat,
    boats (after (AuthPatchBoat boat_id) req st) !! b = Some B' ∧
    AuthBoats.isBadRequest (stored_props B') = true.
Proof.
  intros Hb HB Hadm Hown Hfalsy.
  assert (Hbad : AuthBoats.isBadRequest (AuthBoats.getBoatProps req) = true).
  { rewrite auth_isBadRequest_falsy. simpl. unfold falsy_value in Hfalsy.
    destruct (truthy (prop (req_body req) "name")),
      (truthy (prop (req_body req) "type")),
      (truthy (prop (req_body req) "length")); try done.
    by rewrite !andb_false_r in Hfalsy. }
  split_and!.
  - unfold AuthBoats.put_boat, run.
    rewrite (authenticated_admitted _ _ _ _ sub) by done. by rewrite Hbad.
  - unfold AuthBoats.patch_boat, run.
    rewrite (authenticated_admitted _ _ _ _ sub) by done.
    unfold mbind, M_bind. rewrite find_one, Hb. simpl. rewrite HB. simpl. rewrite Hown.
    unfold AuthBoats.store_and_answer, mbind, M_bind.
    by rewrite (update_alone BOATS) by (simpl; eauto).
  - unfold after, serve. rewrite plain_world.
    unfold AuthBoats.patch_boat, run.
    rewrite (authenticated_admitted _ _ _ _ sub) by done.
    unfold mbind, M_bind. rewrite find_one, Hb. simpl. rewrite HB. simpl. rewrite Hown.
    rewrite boat_store_and_answer by eauto. simpl. rewrite lookup_insert_eq.
    eexists. split; [done|]. rewrite auth_isBadRequest_falsy. simpl.
    unfold falsy_value in Hfalsy.
    apply orb_true_iff in Hfalsy as [[H|H]%orb_true_iff|H];
      apply andb_true_iff in H as [Hj Ht]; rewrite (or_stored_from_json _ _ Hj);
      apply negb_true_iff in Ht; rewrite Ht; by rewrite ?andb_false_r.
Qed.

Lemma patch_boat_skips_validation_witness :
  run (AuthBoats.put_boat "1" adrift) harbour =
    (Utils.handleClientError 400 AuthBoats.BAD_REQUEST,
     {| store := harbour; calls := [DsGetNamed "Users" ann] |}) ∧
  status_of (run (AuthBoats.patch_boat "1" adrift) harbour).1 = Some 200 ∧
  ∃ B' : Boat,
    boats (after (AuthPatchBoat "1") adrift harbour) !! 1 = Some B' ∧
    AuthBoats.isBadRequest (stored_props B') = true.
Proof.
  apply (patch_boat_skips_validation "1" 1 (orca [7]) adrift harbour ann);
    try reflexivity.
  split_and!; [reflexivity|by vm_compute|reflexivity].
Defined.

Lemma fetched_reprs (st : Store) (b : Z) (baseUrl : string) (rs : list LoadRef) :
  (∀ r, r ∈ rs →
     ∃ L c, loads st !! ref_id r = Some L ∧ load_carrier L = Some c ∧ carrier_id c = b ∧
            dated_load L = true) →
  ∃ items,
    loadReprs (omap (λ z, (λ a, (z, a)) <$> loads st !! z) (ref_id <$> rs)) baseUrl
      = Some items ∧
    lr_id <$> items = ref_id <$> rs ∧ Forall (carried_on b baseUrl) items.
Proof.
  induction rs as [|r rs IH]; intros H.
  - by exists [].
  - destruct (H r) as (L & c & HL & HC & Hc & Hd); [left|].
    destruct IH as (items & Hitems & Hids & Hcar).
    { intros r' Hr'. apply H. by right. }
    destruct (loadRepr_dated (ref_id r) L baseUrl Hd) as (repr & Hrepr & Hid & Hcarrier).
    exists (repr :: items). unfold loadReprs in *. split_and!.
    + apply mapM_Some_2. rewrite fmap_cons. cbn [omap list_omap]. rewrite HL.
      constructor; [done|]. by apply mapM_Some_1.
    + by rewrite !fmap_cons, Hid, Hids.
    +     constructor; [|done]. exists (carrier_name c). rewrite Hcarrier, HC. simpl.
      by rewrite Hc.
Qed.

(** X16.  GET /boats/:boat_id/loads by a registered requester, in a store
    where every entry of a boat's loads names a stored load carried by
    that boat, and where the loads of this boat have a [Date]: the answer
    is 200 with one representation per entry of the boat's loads, each
    with the boat as its carrier and the boat's link. *)
Theorem boat_loads_are_all_listed
    (boat_id : string) (b : Z) (B : Boat) (req : Request) (st : Store) (sub : string) :
  listed_loads_carried st →
  req_user req = Some sub → sub ∈ users st →
  parseInt boat_id = Int b → boats st !! b = Some B →
  (∀ r L, r ∈ boat_loads B → loads st !! ref_id r = Some L → dated_load L = true) →
  ∃ items : list LoadRepr,
    (run (Boats.get_boat_loads boat_id req) st).1 = Listed 200 (LoadList items) ∧
    lr_id <$> items ≡ₚ ref_id <$> boat_loads B ∧
    Forall (carried_on b (req_serverName req)) items.
Proof.
  intros Hlinks Hu Hin Hb HB Hdated.
  destruct (fetched_reprs st b (req_serverName req) (boat_loads B))
    as (items & Hitems & Hids & Hcar).
  { intros r Hr. destruct (Hlinks b B r HB Hr) as (L & c & HL & HC & Hc).
    exists L, c. split_and!; try done. by eapply Hdated. }
  unfold Boats.get_boat_loads, run, Utils.checkJwt, Boats.checkRegistered.
  rewrite Hu. run_monad. rewrite decide_True by done. rewrite Hb. simpl. rewrite HB. simpl.
  destruct (boat_loads B) as [|r rs] eqn:Hrs.
  - exists []. simpl. split_and!; [done|done|constructor].
  - exists items. split_and!; [|by rewrite Hids|done].
    simpl in Hitems |- *. by rewrite Hitems.
Qed.

Lemma boat_loads_are_all_listed_witness :
  ∃ items : list LoadRepr,
    (run (Boats.get_boat_loads "1" (request ann)) harbour).1 = Listed 200 (LoadList items) ∧
    lr_id <$> items ≡ₚ ref_id <$> boat_loads (orca [7]) ∧
    Forall (carried_on 1 (req_serverName (request ann))) items.
Proof.
  apply (boat_loads_are_all_listed "1" 1 (orca [7]) (request ann) harbour ann).
  - apply listed_loads_carriedb_true. vm_compute. reflexivity.
  - reflexivity.
  - by vm_compute.
  - reflexivity.
  - reflexivity.
  - intros r L [->|[]%elem_of_nil]%elem_of_cons. simpl.
    intros HL. vm_compute in HL. by injection HL as <-.
Defined.

Lemma get_user_run (id : string) (idToken : JsVal) (originalUrl : string) (st : Store) :
  run (Users.get_user (Some id) idToken originalUrl) st =
    (Users.Rendered 200 "info" idToken id,
     {| store := {| boats := boats st; loads := loads st; users := {[ id ]} ∪ users st |};
        calls := [DsGetNamed "Users" id] |}).
Proof.
  unfold Users.get_user. run_monad.
  destruct (decide (id ∈ users st)) as [Hin|]; simpl; [|done].
  assert (Hsame : {[ id ]} ∪ users st = users st).
  { by apply subseteq_union_1_L, singleton_subseteq_l. }
  rewrite Hsame. by rewrite store_eta.
Qed.

(** X17.  GET /user of an authenticated session renders the info view with
    200 and registers the user: boats and loads are untouched, the user is
    among the users, a second GET /user changes nothing more, every
    request whose token has that user id as subject and that accepts JSON
    is then admitted by the authenticated boats router, and GET /users
    lists the user, each id once.  Without a session user the request is redirected to
    /auth/login with the original URL kept, and nothing is read or
    written. *)
Theorem get_user_registers_once
    (id : string) (idToken : JsVal) (originalUrl : string) (req : Request) (st : Store) :
  let st' := after (GetUser (Some id) idToken originalUrl) req st in
  (run (Users.get_user (Some id) idToken originalUrl) st).1 =
    Users.Rendered 200 "info" idToken id ∧
  boats st' = boats st ∧ loads st' = loads st ∧ users st' = {[ id ]} ∪ users st ∧
  after (GetUser (Some id) idToken originalUrl) req st' = st' ∧
  (∀ req' : Request,
     req_user req' = Some id → req_accepts_json req' = true → admitted req' st' id) ∧
  (∃ ids, (run Users.get_users st').1 = Listed 200 (UserList ids) ∧ id ∈ ids ∧ NoDup ids) ∧
  run (Users.get_user None idToken originalUrl) st =
    (Users.Redirected "/auth/login" originalUrl, {| store := st; calls := [] |}).
Proof.
  intros st'.
  assert (Hst' : st' = {| boats := boats st; loads := loads st;
                          users := {[ id ]} ∪ users st |}).
  { subst st'. unfold after, serve. by rewrite page_world, get_user_run. }
  split_and!.
  - by rewrite get_user_run.
  - by rewrite Hst'.
  - by rewrite Hst'.
  - by rewrite Hst'.
  - unfold after, serve. rewrite page_world, get_user_run. simpl.
    rewrite Hst' at 4. rewrite Hst'. simpl. f_equal.
    rewrite (assoc_L (∪)). by rewrite (idemp_L (∪)).
  - intros req' Hu Hj. split_and!; [done| |done]. rewrite Hst'. simpl.
    apply elem_of_union_l. by apply elem_of_singleton.
  - exists (elements (users st')). split_and!; [done| |apply NoDup_elements].
    apply elem_of_elements. rewrite Hst'. simpl.
    apply elem_of_union_l. by apply elem_of_singleton.
  - done.
Qed.

Lemma loadReprs_dated (page : list (Z * Load)) (baseUrl : string) :
  forallb (λ e : Z * Load, dated_load e.2) page = true →
  ∃ items, loadReprs page baseUrl = Some items ∧ lr_id <$> items = page.*1.
Proof.
  induction page as [|[l L] page IH]; intros H.
  - by exists [].
  - apply andb_true_iff in H as [Hd H]. destruct (IH H) as (items & Hitems & Hids).
    destruct (loadRepr_dated l L baseUrl Hd) as (repr & Hrepr & Hid & _).
    exists (repr :: items). unfold loadReprs in *. split.
    + apply mapM_Some_2. constructor; [done|]. by apply mapM_Some_1.
    + by rewrite !fmap_cons, Hid, Hids.
Qed.

Lemma loadReprs_some_undated (page : list (Z * Load)) (baseUrl : string) :
  forallb (λ e : Z * Load, dated_load e.2) page = false → loadReprs page baseUrl = None.
Proof.
  induction page as [|e page IH]; [done|].
  intros [Hd|H]%andb_false_iff.
  - eapply (loadReprs_undated _ _ e); [left|done].
  - unfold loadReprs in *. simpl. rewrite (IH H). by destruct (Utils.loadRepr _ _ _).
Qed.

(** X18.  GET /loads, given the page and the list of all loads that the
    datastore returns.  When every load of the page has a [Date], both
    loads routers answer 200 with the representations of the page in its
    order, and with a next link exactly when the datastore reports more
    results after the limit; the authenticated router adds the number of
    all loads as total.  When a load of the page has no [Date], neither
    router answers. *)
Theorem loads_page_is_listed_or_unanswered
    (engine : Engine Load) (cursor : JsVal) (req : Request) (st : Store)
    (page every : list (Z * Load)) (info info' : QueryInfo) :
  req_accepts_json req = true →
  (run (pagedQuery engine (createQuery (kind_name LOADS)) 5 cursor) st).1 = inr (page, info) →
  (run (runQuery engine (createQuery (kind_name LOADS))) st).1 = inr (every, info') →
  let first := (run (Loads.get_loads engine cursor req) st).1 in
  let second := (run (AuthLoads.get_loads engine cursor req) st).1 in
  if forallb (λ e : Z * Load, dated_load e.2) page then
    ∃ (items : list LoadRepr) (next : option string),
      first = Listed 200 (LoadPage items next None) ∧
      second = Listed 200 (LoadPage items next (Some (Z.of_nat (length every)))) ∧
      lr_id <$> items = page.*1 ∧
      (is_Some next ↔ moreResults info = MORE_RESULTS_AFTER_LIMIT)
  else first = NotListed Unanswered ∧ second = NotListed Unanswered.
Proof.
  intros Hj Hpage Hevery first second. subst first second.
  unfold run in *. unfold Loads.get_loads, AuthLoads.get_loads, Utils.isAcceptable.
  rewrite Hj. unfold mbind, M_bind, mret, M_ret.
  rewrite (paged_reads engine). rewrite Hpage.
  unfold runQuery, mbind, M_bind, read, mret, M_ret in *. simpl in Hevery. simpl.
  rewrite Hevery.
  destruct (forallb _ page) eqn:Hd.
  - destruct (loadReprs_dated page (req_serverName req) Hd) as (items & -> & Hids).
    eexists items, _. split_and!; try done.
    unfold next_link. destruct (String.eqb_spec (moreResults info) MORE_RESULTS_AFTER_LIMIT).
    + split; [done|by eauto].
    + split; [by intros []|done].
  - by rewrite (loadReprs_some_undated _ _ Hd).
Qed.

Lemma loads_page_is_listed_or_unanswered_witness :
  ∃ (items : list LoadRepr) (next : option string),
    (run (Loads.get_loads (one_page [(7, lego (Some 1))] MORE_RESULTS_AFTER_LIMIT)
            JUndefined (request ann)) harbour).1 =
      Listed 200 (LoadPage items next None) ∧
    (run (AuthLoads.get_loads (one_page [(7, lego (Some 1))] MORE_RESULTS_AFTER_LIMIT)
            JUndefined (request ann)) harbour).1 =
      Listed 200 (LoadPage items next (Some 1)) ∧
    lr_id <$> items = [7] ∧
    (is_Some next ↔ MORE_RESULTS_AFTER_LIMIT = MORE_RESULTS_AFTER_LIMIT).
Proof.
  apply (loads_page_is_listed_or_unanswered
           (one_page [(7, lego (Some 1))] MORE_RESULTS_AFTER_LIMIT) JUndefined (request ann)
           harbour [(7, lego (Some 1))] [(7, lego (Some 1))]
           {| moreResults := MORE_RESULTS_AFTER_LIMIT; endCursor := "a/b" |}
           {| moreResults := MORE_RESULTS_AFTER_LIMIT; endCursor := "a/b" |});
    reflexivity.
Defined.

(** X19.  In every store that is reached from the empty store, a load is
    on at most one boat: two stored boats that list the same load are the
    same boat, and the load is stored with that boat as its carrier. *)
Theorem a_load_is_on_one_boat
    (rs : list (Call * Request)) (b b' l : Z) (B B' : Boat) :
  let st := serve_all rs empty_store in
  boats st !! b = Some B → boats st !! b' = Some B' →
  lists_load B l = true → lists_load B' l = true →
  b = b' ∧ ∃ L c, loads st !! l = Some L ∧ load_carrier L = Some c ∧ carrier_id c = b.
Proof.
  intros st HB HB' (r & Hr & Hid)%lists_load_true (r' & Hr' & Hid')%lists_load_true.
  destruct (serve_all_sound rs empty_store sound_empty) as [[[_ Hbw] _] _].
  destruct (Hbw b B r HB Hr) as (L & c & HL & HC & Hc).
  destruct (Hbw b' B' r' HB' Hr') as (L' & c' & HL' & HC' & Hc').
  fold st in HL, HL'. rewrite Hid in HL. rewrite Hid' in HL'.
  split; [congruence|by exists L, c].
Qed.

Lemma hex_digit_safe (a : Ascii.ascii) :
  unreserved (hex_digit (N_of_ascii a / 16)) = true ∧
  unreserved (hex_digit (N_of_ascii a mod 16)) = true.
Proof. by destruct a as [[] [] [] [] [] [] [] []]; vm_compute. Qed.

Lemma encodeURIComponent_safe (s : string) :
  forallb safe (list_ascii_of_string (encodeURIComponent s)) = true.
Proof.
  induction s as [|a s IH]; [done|]. simpl.
  destruct (unreserved a) eqn:Ha; simpl.
  - unfold safe at 1. by rewrite Ha.
  - destruct (hex_digit_safe a) as [H1 H2]. unfold safe at 1 2 3.
    by rewrite H1, H2.
Qed.

Lemma encodeURIComponent_unreserved (s : string) :
  forallb unreserved (list_ascii_of_string s) = true → encodeURIComponent s = s.
Proof.
  induction s as [|a s IH]; [done|]. simpl. intros [Ha Hs]%andb_true_iff.
  by rewrite Ha, IH.
Qed.

(** X20.  The next link of a page is present exactly when the datastore
    reports [MORE_RESULTS_AFTER_LIMIT].  It is the base URL, the path and
    [?cursor=] followed by the escaped end cursor, which holds only
    unreserved characters and [%], and which is the end cursor itself when
    that has only unreserved characters. *)
Theorem next_link_escapes_the_cursor (baseUrl path : string) (info : QueryInfo) :
  (is_Some (next_link baseUrl path info) ↔ moreResults info = MORE_RESULTS_AFTER_LIMIT) ∧
  ∀ url, next_link baseUrl path info = Some url →
    ∃ cursor,
      url = baseUrl +:+ path +:+ "?cursor=" +:+ cursor ∧
      forallb safe (list_ascii_of_string cursor) = true ∧
      (forallb unreserved (list_ascii_of_string (endCursor info)) = true →
       cursor = endCursor info).
Proof.
  unfold next_link.
  destruct (String.eqb_spec (moreResults info) MORE_RESULTS_AFTER_LIMIT) as [He|He].
  - split; [by split; eauto|]. intros url [= <-].
    exists (encodeURIComponent (endCursor info)).
    split_and!; [done|apply encodeURIComponent_safe|apply encodeURIComponent_unreserved].
  - split; [|done]. split; [by intros []|done].
Qed.

(** X21.  When the authenticated application listens on port 80 or 443,
    or the socket has no local port, [req.serverName()] returns nothing
    and the self link of every boat and load representation starts with
    [undefined]; the server name of the first application is always the
    protocol, [://] and the host. *)
Theorem links_on_the_default_ports
    (protocol hostname : string) (port : option Z) (production singleton : bool)
    (id : Z) (boat : Boat) (load : Load) :
  port = None ∨ port = Some 80 ∨ port = Some 443 →
  let baseUrl := template (App.serverName protocol hostname port production) in
  br_self (AuthBoats.boatRepr id boat baseUrl singleton).1 = "undefined/boats/" +:+ show id ∧
  (∀ repr, Utils.loadRepr id load baseUrl = Some repr →
           lr_self repr = "undefined/loads/" +:+ show id) ∧
  template (FirstApp.serverName protocol hostname) = protocol +:+ "://" +:+ hostname.
Proof.
  intros Hport baseUrl.
  assert (Hbase : baseUrl = "undefined") by by destruct Hport as [->|[->| ->]].
  rewrite Hbase. split_and!; [done| |done].
  intros repr. unfold Utils.loadRepr. by destruct (load_creation_date load); intros [= <-].
Qed.

Lemma links_on_the_default_ports_witness :
  br_self (AuthBoats.boatRepr 1 (orca [7])
             (template (App.serverName "https" "api.example" (Some 443) true)) true).1
    = "undefined/boats/" +:+ show 1.
Proof.
  apply (links_on_the_default_ports "https" "api.example" (Some 443) true true 1
           (orca [7]) (lego None)).
  right. right. reflexivity.
Defined.

Lemma soundb_true (st : Store) : soundb st = true → sound st.
Proof.
  unfold soundb. intros [[Hc Hn]%andb_true_iff Hs]%andb_true_iff.
  split; [split|]; [by apply consistentb_true|by apply no_duplicatesb_true|
                    by apply carriers_storedb_true].
Qed.

Lemma get_routes_only_read_witness :
  after (AuthGetBoat "1") (request ann) harbour = harbour ∧
  existsb is_write (calls (run (serve (AuthGetBoat "1") (request ann)) harbour).2) = false.
Proof. apply (get_routes_only_read (AuthGetBoat "1") (request ann) harbour). reflexivity. Defined.

Lemma delete_load_is_answered_and_unlisted_witness :
  (run (AuthLoads.delete_load "7" (request ann)) harbour).1 = no_content ∧
  (run (Loads.delete_load Throws "7" (request ann)) harbour).1 = no_content.
Proof.
  pose proof (delete_load_is_answered_and_unlisted Throws "7" 7 (lego (Some 1))
                (request ann) harbour) as H.
  destruct H as (H1 & H2 & _).
  - apply soundb_true. vm_compute. reflexivity.
  - reflexivity.
  - reflexivity.
  - reflexivity.
  - split; [exact H1|exact H2].
Defined.

Lemma deleted_boat_carries_nothing_witness :
  sound (after (Relate (AuthDeleteBoat "1")) (request ann) harbour) ∧
  boats (after (Relate (AuthDeleteBoat "1")) (request ann) harbour) !! 1 = None ∧
  (∀ l L c,
     loads (after (Relate (AuthDeleteBoat "1")) (request ann) harbour) !! l = Some L →
     load_carrier L = Some c → carrier_id c ≠ 1).
Proof.
  apply (deleted_boat_carries_nothing (AuthDeleteBoat "1") "1" 1 (orca [7])
           (request ann) harbour).
  - apply soundb_true. vm_compute. reflexivity.
  - right. reflexivity.
  - reflexivity.
  - reflexivity.
  - vm_compute. reflexivity.
Defined.

Lemma owner_never_changes_witness :
  boat_owner {| boat_name := JStr "Orca II"; boat_type := JStr "sail";
                boat_length := JNum 14; boat_owner := JStr ann;
                boat_loads := boat_loads (orca [7]) |}
    = boat_owner (orca [7]).
Proof.
  apply (owner_never_changes (AuthPatchBoat "1") edit harbour 1).
  - reflexivity.
  - vm_compute. reflexivity.
Defined.

Lemma a_load_is_on_one_boat_witness :
  1 = 1 ∧
  ∃ L c, loads (serve_all voyage empty_store) !! 7 = Some L ∧
         load_carrier L = Some c ∧ carrier_id c = 1.
Proof.
  apply (a_load_is_on_one_boat voyage 1 1 7
           {| boat_name := JStr "Orca II"; boat_type := JStr "yacht";
              boat_length := JNum 14; boat_owner := JStr ann;
              boat_loads := [{| ref_id := 7; ref_self := None |}] |}
           {| boat_name := JStr "Orca II"; boat_type := JStr "yacht";
              boat_length := JNum 14; boat_owner := JStr ann;
              boat_loads := [{| ref_id := 7; ref_self := None |}] |}).
  - vm_compute. reflexivity.
  - vm_compute. reflexivity.
  - reflexivity.
  - reflexivity.
Defined.
